(** * Article recommender: a shallow embedding of [recommend.py]

    The development follows the Python module top to bottom:
    [BaseRecommender] (loading, batch generation), [SimpleRecommender],
    [AdvancedRecommender] (weights, time decay, cluster similarity, MMR).

    Conventions of the embedding.
    - Python exceptions are values of [PyError]; a method that can raise
      returns [result].
    - A [dict] is an association list in insertion order ([Dict]); JSON
      objects have unique keys, which is stated as [NoDup] where a proof
      needs it.
    - Floating point numbers are idealised as exact rationals [Q]; the
      square root and the exponential of NumPy and the wall clock are the
      fields of the class [Platform].
    - [np.mean], [cosine_similarity], [round], [list.sort] and slicing are
      library code; they are embedded from their documented behaviour.
    - The embedding starts from the parsed JSON documents: opening and
      parsing the files is not part of it. A stored article is a JSON
      object whose ['metadata'], when present, is an object with string
      fields; a [null] in their place is outside the data model, and so
      are the [TypeError] and [AttributeError] the code raises on it. *)

From Stdlib Require Import String List ZArith QArith Qround Lia Lra Bool.
From Stdlib Require Import Permutation Sorted Morphisms Setoid.
From Stdlib Require Import Lqa.
Import ListNotations.

Local Open Scope Q_scope.

(* ================================================================= *)
(** * Exceptions *)

(** The exceptions that the embedded code raises on data of the shape
    of [RawArticle] and [Article]. *)
Inductive PyError : Type :=
| KeyError
| ValueError
| IndexError
| ZeroDivisionError.

Inductive result (A : Type) : Type :=
| Ok (a : A)
| Raise (e : PyError).

Arguments Ok {A} a.
Arguments Raise {A} e.

Definition bind {A B : Type} (m : result A) (k : A -> result B) : result B :=
  match m with
  | Ok a => k a
  | Raise e => Raise e
  end.

Notation "x <- m ;; k" := (bind m (fun x => k))
  (at level 61, m at next level, right associativity).
Notation "' pat <- m ;; k" := (bind m (fun x => match x with pat => k end))
  (at level 61, pat pattern, m at next level, right associativity).

(* ================================================================= *)
(** * Dictionaries *)

Definition Dict (V : Type) : Type := list (string * V).

Fixpoint dict_get {V : Type} (k : string) (d : Dict V) : option V :=
  match d with
  | [] => None
  | (k', v) :: d' => if String.eqb k k' then Some v else dict_get k d'
  end.

(** [k in d] *)
Definition dict_mem {V : Type} (k : string) (d : Dict V) : bool :=
  match dict_get k d with Some _ => true | None => false end.

(** [d[k]]: a missing key raises [KeyError]. *)
Definition dict_item {V : Type} (k : string) (d : Dict V) : result V :=
  match dict_get k d with Some v => Ok v | None => Raise KeyError end.

(** [d[k] = v]: an existing key keeps its position, a new key goes last. *)
Fixpoint dict_set {V : Type} (k : string) (v : V) (d : Dict V) : Dict V :=
  match d with
  | [] => [(k, v)]
  | (k', v') :: d' =>
      if String.eqb k k' then (k, v) :: d' else (k', v') :: dict_set k v d'
  end.

Definition dict_keys {V : Type} (d : Dict V) : list string := map fst d.

(** [x in l] for a list of strings. *)
Definition str_in (x : string) (l : list string) : bool :=
  existsb (String.eqb x) l.

(* ================================================================= *)
(** * The numeric platform *)

Class Platform : Type := {
  (** [np.sqrt] *)
  np_sqrt : Q -> Q;
  (** [np.exp] *)
  np_exp : Q -> Q;
  (** [(datetime.now() - datetime.strptime(s, '%Y-%m-%d %H:%M:%S')).days];
      [None] when [strptime] raises [ValueError]. *)
  days_old : string -> option Z
}.

(** ** Vectors *)

Definition Vec : Type := list Q.

Definition Qsum (l : list Q) : Q := fold_right Qplus 0 l.

Fixpoint dot (x y : Vec) : Q :=
  match x, y with
  | a :: x', b :: y' => a * b + dot x' y'
  | _, _ => 0
  end.

Fixpoint vec_add (x y : Vec) : Vec :=
  match x, y with
  | a :: x', b :: y' => (a + b) :: vec_add x' y'
  | _, _ => []
  end.

Definition same_length (d : nat) (rows : list Vec) : bool :=
  forallb (fun r => Nat.eqb (length r) d) rows.

(** [np.mean(rows, axis=0)] for a non-empty list of one-dimensional
    arrays [v0 :: rest]. Rows of unequal length cannot be stacked into a
    matrix: NumPy raises [ValueError] (inhomogeneous shape). *)
Definition np_mean_axis0 (v0 : Vec) (rest : list Vec) : result Vec :=
  if same_length (length v0) rest then
    let total := fold_left vec_add rest v0 in
    let n := inject_Z (Z.of_nat (S (length rest))) in
    Ok (map (fun s => s / n) total)
  else Raise ValueError.

(** [np.mean] of a non-empty list of scalars. *)
Definition np_mean (l : list Q) : Q :=
  Qsum l / inject_Z (Z.of_nat (length l)).

(** First index of a maximum, as [np.argmax] on a non-empty array. *)
Fixpoint argmax_from (best : nat) (bestv : Q) (i : nat) (l : list Q) : nat :=
  match l with
  | [] => best
  | x :: l' =>
      if Qle_bool x bestv then argmax_from best bestv (S i) l'
      else argmax_from i x (S i) l'
  end.

Definition np_argmax (l : list Q) : nat :=
  match l with
  | [] => O
  | x :: l' => argmax_from O x 1%nat l'
  end.

(** ** Rounding *)

(** Round half to even, to an integer. *)
Definition rint (x : Q) : Z :=
  let f := Qfloor x in
  match Qcompare (x - inject_Z f) (1 # 2) with
  | Lt => f
  | Gt => (f + 1)%Z
  | Eq => if Z.even f then f else (f + 1)%Z
  end.

(** [round(x, 4)] *)
Definition round4 (x : Q) : Q := Qmake (rint (x * 10000)) 10000.

Section WithPlatform.
Context {pf : Platform}.

(** ** Cosine similarity (scikit-learn) *)

(** Row normalisation of [sklearn.preprocessing.normalize]: a zero norm
    is replaced by one. *)
Definition l2_norm (x : Vec) : Q :=
  let n := np_sqrt (dot x x) in
  if Qeq_bool n 0 then 1 else n.

Definition normalize (x : Vec) : Vec :=
  let n := l2_norm x in map (fun a => a / n) x.

Definition cos_row (x y : Vec) : Q := dot (normalize x) (normalize y).

(** [cosine_similarity([x], Y)[0]]: [Y] must be a non-empty matrix whose
    rows have the dimension of [x], and that dimension is not zero. *)
Definition cosine_similarity (x : Vec) (Y : list Vec) : result (list Q) :=
  match Y with
  | [] => Raise ValueError
  | _ =>
      if Nat.eqb (length x) O then Raise ValueError
      else if same_length (length x) Y then Ok (map (cos_row x) Y)
      else Raise ValueError
  end.

End WithPlatform.

(* ================================================================= *)
(** * Sorting and slicing *)

Section Sort.
Context {A : Type} (key : A -> Q).

(** [x] goes in front of the first element whose key is not greater:
    equal keys keep their order of arrival. *)
Fixpoint insert_desc (x : A) (l : list A) : list A :=
  match l with
  | [] => [x]
  | y :: l' =>
      if Qle_bool (key y) (key x) then x :: y :: l'
      else y :: insert_desc x l'
  end.

(** [l.sort(key=key, reverse=True)] *)
Definition sort_desc (l : list A) : list A :=
  fold_right insert_desc [] l.

(** [a] may stand before [b] in a descending order. *)
Definition ge_key (a b : A) : Prop := key b <= key a.

End Sort.

(** [l[:n]] *)
Definition slice_to {A : Type} (l : list A) (n : Z) : list A :=
  if (0 <=? n)%Z then firstn (Z.to_nat n) l
  else firstn (length l - Z.to_nat (- n)) l.

(* ================================================================= *)
(** * Data model *)

Record Metadata : Type := {
  title : option string;
  content : option string;
  url : option string;
  scraped_at : option string
}.

(** The ['vector'] entry of a stored article. *)
Inductive VectorField : Type :=
| VAbsent
| VNotList
| VList (v : Vec).

(** An article as stored in the embeddings file. *)
Record RawArticle : Type := {
  raw_vector : VectorField;
  raw_cluster : option Z;
  raw_metadata : option Metadata
}.

(** An article that passed the filter of [_load_data]. *)
Record Article : Type := {
  vector : Vec;
  cluster : option Z;
  metadata : option Metadata
}.

Record SimilarityComponents : Type := {
  semantic : Q;
  freshness : Q;
  topic : Q
}.

(** One recommendation; [rec_content] and [similarity_components] are
    present in the records of the advanced recommender only. *)
Record Recommendation : Type := {
  article_id : string;
  rec_title : string;
  rec_content : option string;
  rec_url : string;
  score : Q;
  similarity_components : option SimilarityComponents
}.

(** [m.get(field, '')] *)
Definition get_or_empty (o : option string) : string :=
  match o with Some s => s | None => EmptyString end.

(* ================================================================= *)
(** * BaseRecommender *)

Record BaseRecommender : Type := {
  article_vectors : Dict Article;
  article_ids : list string;
  vector_array : list Vec;
  user_profiles : Dict (list string)
}.

(** The filter of [_load_data]: ['vector'] present, a list, not empty. *)
Definition valid_article (data : RawArticle) : option Article :=
  match raw_vector data with
  | VList (x :: v) =>
      Some {| vector := x :: v;
              cluster := raw_cluster data;
              metadata := raw_metadata data |}
  | _ => None
  end.

Fixpoint valid_articles (raw : Dict RawArticle) : Dict Article :=
  match raw with
  | [] => []
  | (aid, data) :: raw' =>
      match valid_article data with
      | Some a => (aid, a) :: valid_articles raw'
      | None => valid_articles raw'
      end
  end.

(** Pad or truncate to the expected length. *)
Definition repair (expected_length : nat) (v : Vec) : Vec :=
  if Nat.eqb (length v) expected_length then v
  else if Nat.ltb (length v) expected_length
       then v ++ repeat 0 (expected_length - length v)
       else firstn expected_length v.

(** [embeddings] and [profiles] are the contents of the two files. The
    rows of [vector_array] are kept exact: the final conversion to
    [float32], which rounds the entries and raises [OverflowError] on an
    integer too large for a float, is not represented. *)
Definition _load_data (embeddings : Dict RawArticle)
    (profiles : Dict (list string)) : result BaseRecommender :=
  let valid := valid_articles embeddings in
  let ids := dict_keys valid in
  match valid with
  | [] => Raise ValueError
  | (_, first) :: _ =>
      let expected_length := length (vector first) in
      let vectors := map (fun p => repair expected_length (vector (snd p))) valid in
      Ok {| article_vectors := valid;
            article_ids := ids;
            vector_array := vectors;
            user_profiles := profiles |}
  end.

(** [np.array(self.article_vectors[article_id]['vector'])] *)
Definition _get_article_vector (self : BaseRecommender) (aid : string)
    : result Vec :=
  a <- dict_item aid (article_vectors self) ;;
  Ok (vector a).

(** Monadic map: the first failing element raises. *)
Fixpoint mapM {A B : Type} (f : A -> result B) (l : list A) : result (list B) :=
  match l with
  | [] => Ok []
  | x :: l' =>
      y <- f x ;;
      ys <- mapM f l' ;;
      Ok (y :: ys)
  end.

(** ** generate_all_recommendations *)

Section GenerateAll.
Context {Self : Type}.
(** The bound method [self.recommend_for_user] and the attributes the
    loop reads. *)
Context (recommend_for_user :
           Self -> string -> Dict Article -> list string -> Z ->
           result (list Recommendation)).
Context (base_of : Self -> BaseRecommender).

(** The loop over [self.user_profiles.items()]; [all_recommendations] is
    the accumulator. An exception of one user is logged and the loop goes
    on. *)
Fixpoint generate_loop (self : Self) (profiles : Dict (list string))
    (top_n : Z) (all_recommendations : Dict (list Recommendation))
    : Dict (list Recommendation) :=
  match profiles with
  | [] => all_recommendations
  | (user_id, read_articles) :: rest =>
      match recommend_for_user self user_id
              (article_vectors (base_of self)) read_articles top_n with
      | Ok recs =>
          generate_loop self rest top_n
            (dict_set user_id recs all_recommendations)
      | Raise _ => generate_loop self rest top_n all_recommendations
      end
  end.

(** The mapping that is written to [output_file]. *)
Definition generate_all_recommendations (self : Self) (top_n : Z)
    : Dict (list Recommendation) :=
  generate_loop self (user_profiles (base_of self)) top_n [].

End GenerateAll.

(* ================================================================= *)
(** * SimpleRecommender *)

Module Simple.
Section WithPlatform.
Context {pf : Platform}.

(** First loop: the vectors of the read articles that the passed
    [article_vectors] knows. [vector is not None] always holds. *)
Fixpoint read_vectors (self : BaseRecommender) (av : Dict Article)
    (user_reads : list string) : result (list Vec) :=
  match user_reads with
  | [] => Ok []
  | aid :: rest =>
      if dict_mem aid av then
        vector <- _get_article_vector self aid ;;
        user_vecs <- read_vectors self av rest ;;
        Ok (vector :: user_vecs)
      else read_vectors self av rest
  end.

(** Second loop: [candidate_ids] and [candidate_vectors], zipped. *)
Fixpoint candidates (self : BaseRecommender) (ids : list string)
    (user_reads : list string) : result (list (string * Vec)) :=
  match ids with
  | [] => Ok []
  | aid :: rest =>
      if str_in aid user_reads then candidates self rest user_reads
      else
        v <- _get_article_vector self aid ;;
        cs <- candidates self rest user_reads ;;
        Ok ((aid, v) :: cs)
  end.

Definition record (av : Dict Article) (p : string * Q)
    : result Recommendation :=
  let '(aid, sc) := p in
  article_data <- dict_item aid av ;;
  match metadata article_data with
  | None => Raise KeyError
  | Some m =>
      Ok {| article_id := aid;
            rec_title := get_or_empty (title m);
            rec_content := None;
            rec_url := get_or_empty (url m);
            score := round4 sc;
            similarity_components := None |}
  end.

Definition recommend_for_user (self : BaseRecommender) (user_id : string)
    (av : Dict Article) (user_reads : list string) (top_n : Z)
    : result (list Recommendation) :=
  match user_reads with
  | [] => Ok []
  | _ =>
      user_vecs <- read_vectors self av user_reads ;;
      match user_vecs with
      | [] => Ok []
      | v0 :: vs =>
          user_profile_vector <- np_mean_axis0 v0 vs ;;
          cands <- candidates self (article_ids self) user_reads ;;
          match cands with
          | [] => Ok []
          | _ =>
              similarities <-
                cosine_similarity user_profile_vector (map snd cands) ;;
              recommendations <-
                mapM (record av) (combine (map fst cands) similarities) ;;
              Ok (slice_to (sort_desc score recommendations) top_n)
          end
      end
  end.

End WithPlatform.
End Simple.

(* ================================================================= *)
(** * AdvancedRecommender *)

Record AdvancedRecommender : Type := {
  base : BaseRecommender;
  diversity_weight : Q;
  time_decay_days : Q;
  cluster_weight : Q
}.

Module Advanced.

(** The constructor: load, then store the three parameters. *)
Definition __init__ (embeddings : Dict RawArticle)
    (profiles : Dict (list string))
    (diversity_weight time_decay_days cluster_weight : Q)
    : result AdvancedRecommender :=
  b <- _load_data embeddings profiles ;;
  Ok {| base := b;
        diversity_weight := diversity_weight;
        time_decay_days := time_decay_days;
        cluster_weight := cluster_weight |}.

Definition _calculate_cluster_similarity (user_clusters : list Z)
    (article_cluster : Z) : Q :=
  match user_clusters with
  | [] => 0
  | _ =>
      let cluster_count := count_occ Z.eq_dec user_clusters article_cluster in
      inject_Z (Z.of_nat cluster_count)
      / inject_Z (Z.of_nat (length user_clusters))
  end.

(** The entry of [candidate_clusters] for an article: its label, or [-1]
    when it has none. *)
Definition cluster_label (a : Article) : Z :=
  match cluster a with
  | Some c => c
  | None => (-1)%Z
  end.

(** [list.remove(x)]: the first occurrence goes, [ValueError] if none. *)
Fixpoint list_remove (x : nat) (l : list nat) : result (list nat) :=
  match l with
  | [] => Raise ValueError
  | y :: l' =>
      if Nat.eqb x y then Ok l'
      else l'' <- list_remove x l' ;; Ok (y :: l'')
  end.

(** [a[i]] on a list or on the rows of a matrix. *)
Definition index {A : Type} (l : list A) (i : nat) : result A :=
  match nth_error l i with
  | Some a => Ok a
  | None => Raise IndexError
  end.

Section WithPlatform.
Context {pf : Platform}.

(** [KeyError] and [ValueError] are caught; a zero [time_decay_days]
    raises [ZeroDivisionError], which is not. *)
Definition _calculate_time_decay (self : AdvancedRecommender)
    (aid : string) : result Q :=
  match dict_get aid (article_vectors (base self)) with
  | None => Ok 1
  | Some a =>
      match metadata a with
      | None => Ok 1
      | Some m =>
          match scraped_at m with
          | None => Ok 1
          | Some s =>
              match days_old s with
              | None => Ok 1
              | Some d =>
                  if Qeq_bool (time_decay_days self) 0
                  then Raise ZeroDivisionError
                  else Ok (np_exp (- inject_Z d / time_decay_days self))
              end
          end
      end
  end.

(** The MMR score of every remaining index, given the selected ones. *)
Definition mmr_scores (candidate_vectors : list Vec) (lambda_param : Q)
    (relevance : list Q) (selected remaining : list nat) : list Q :=
  let diversity :=
    map (fun idx =>
           np_mean (map (fun j => cos_row (nth idx candidate_vectors [])
                                          (nth j candidate_vectors []))
                        selected))
        remaining in
  map (fun rd => lambda_param * fst rd - (1 - lambda_param) * snd rd)
      (combine relevance diversity).

(** The [while] loop; every round removes one index from [remaining], so
    [length remaining] rounds of fuel are enough. *)
Fixpoint mmr_loop (fuel : nat) (query_vector : Vec)
    (candidate_vectors : list Vec) (lambda_param : Q) (top_n : Z)
    (selected remaining : list nat) : result (list nat) :=
  match fuel with
  | O => Ok selected
  | S fuel' =>
      match remaining with
      | [] => Ok selected
      | _ =>
          if (Z.of_nat (length selected) <? top_n)%Z then
            rows <- mapM (index candidate_vectors) remaining ;;
            relevance <- cosine_similarity query_vector rows ;;
            let scores :=
              mmr_scores candidate_vectors lambda_param relevance
                         selected remaining in
            selected_idx <- index remaining (np_argmax scores) ;;
            remaining' <- list_remove selected_idx remaining ;;
            mmr_loop fuel' query_vector candidate_vectors lambda_param
                     top_n (selected ++ [selected_idx]) remaining'
          else Ok selected
      end
  end.

Definition _maximal_marginal_relevance (query_vector : Vec)
    (candidate_vectors : list Vec) (candidate_ids : list string)
    (lambda_param : Q) (top_n : Z) : result (list (string * Q)) :=
  let remaining := seq 0 (length candidate_ids) in
  similarities <- cosine_similarity query_vector candidate_vectors ;;
  let selected_idx := np_argmax similarities in
  remaining <- list_remove selected_idx remaining ;;
  selected <- mmr_loop (length remaining) query_vector candidate_vectors
                       lambda_param top_n [selected_idx] remaining ;;
  mapM (fun i =>
          aid <- index candidate_ids i ;;
          s <- index similarities i ;;
          Ok (aid, s))
       selected.

(** First loop: vectors and cluster history of the read articles. *)
Fixpoint read_history (self : AdvancedRecommender) (av : Dict Article)
    (user_reads : list string) : result (list Vec * list Z) :=
  match user_reads with
  | [] => Ok ([], [])
  | aid :: rest =>
      match dict_get aid av with
      | Some a =>
          vector <- _get_article_vector (base self) aid ;;
          '(user_vecs, user_clusters) <- read_history self av rest ;;
          Ok (vector :: user_vecs,
              match cluster a with
              | Some c => c :: user_clusters
              | None => user_clusters
              end)
      | None => read_history self av rest
      end
  end.

(** Second loop: ids, vectors and cluster labels of the candidates; a
    candidate without label gets [-1]. *)
Fixpoint candidates (self : AdvancedRecommender) (av : Dict Article)
    (ids : list string) (user_reads : list string)
    : result (list (string * Vec * Z)) :=
  match ids with
  | [] => Ok []
  | aid :: rest =>
      if str_in aid user_reads then candidates self av rest user_reads
      else
        v <- _get_article_vector (base self) aid ;;
        a <- dict_item aid av ;;
        cs <- candidates self av rest user_reads ;;
        Ok ((aid, v, cluster_label a) :: cs)
  end.

(** Third loop: time decay and cluster similarity per candidate. *)
Definition signals (self : AdvancedRecommender) (user_clusters : list Z)
    (p : string * Z) : result (Q * Q) :=
  let '(aid, c) := p in
  time_factor <- _calculate_time_decay self aid ;;
  Ok (time_factor, _calculate_cluster_similarity user_clusters c).

Definition final_score (self : AdvancedRecommender)
    (semantic_sim time_decay cluster_sim : Q) : Q :=
  semantic_sim * (1 - diversity_weight self - cluster_weight self)
  + time_decay * diversity_weight self
  + cluster_sim * cluster_weight self.

(** Fourth loop: one record per candidate. *)
Definition record (self : AdvancedRecommender) (av : Dict Article)
    (p : string * Q * (Q * Q)) : result Recommendation :=
  let '(aid, semantic_sim, (time_decay, cluster_sim)) := p in
  article_data <- dict_item aid av ;;
  match metadata article_data with
  | None => Raise KeyError
  | Some m =>
      Ok {| article_id := aid;
            rec_title := get_or_empty (title m);
            rec_content := Some (get_or_empty (content m));
            rec_url := get_or_empty (url m);
            score :=
              round4 (final_score self semantic_sim time_decay cluster_sim);
            similarity_components :=
              Some {| semantic := round4 semantic_sim;
                      freshness := round4 time_decay;
                      topic := round4 cluster_sim |} |}
  end.

Definition recommend_for_user (self : AdvancedRecommender)
    (user_id : string) (av : Dict Article) (user_reads : list string)
    (top_n : Z) : result (list Recommendation) :=
  match user_reads with
  | [] => Ok []
  | _ =>
      '(user_vecs, user_clusters) <- read_history self av user_reads ;;
      match user_vecs with
      | [] => Ok []
      | v0 :: vs =>
          user_profile_vector <- np_mean_axis0 v0 vs ;;
          cands <- candidates self av (article_ids (base self)) user_reads ;;
          match cands with
          | [] => Ok []
          | _ =>
              let candidate_ids := map (fun c => fst (fst c)) cands in
              let candidate_vectors := map (fun c => snd (fst c)) cands in
              let candidate_clusters := map snd cands in
              semantic_similarities <-
                cosine_similarity user_profile_vector candidate_vectors ;;
              sigs <- mapM (signals self user_clusters)
                           (combine candidate_ids candidate_clusters) ;;
              recommendations <-
                mapM (record self av)
                     (combine (combine candidate_ids semantic_similarities)
                              sigs) ;;
              Ok (slice_to (sort_desc score recommendations) top_n)
          end
      end
  end.

End WithPlatform.
End Advanced.

(* ================================================================= *)
(** * Vocabulary of the specification *)

(** The candidates of a request, in enumeration order: the corpus ids
    that are not in the read list. *)
Definition candidate_ids_of (self : BaseRecommender)
    (user_reads : list string) : list string :=
  filter (fun aid => negb (str_in aid user_reads)) (article_ids self).

(** A read item is valid when the passed corpus knows its id. *)
Definition retained (av : Dict Article) (user_reads : list string)
    : list string :=
  filter (fun aid => dict_mem aid av) user_reads.

Definition sorted_desc (recs : list Recommendation) : Prop :=
  StronglySorted (ge_key score) recs.

Definition with_score (s : Q) (recs : list Recommendation)
    : list Recommendation :=
  filter (fun r => Qeq_bool (score r) s) recs.

(** Records of equal score come in the order in which the candidates
    were enumerated: there is one scored record per candidate, in
    enumeration order, and the returned records of any given score are
    the first ones of that score among them. *)
Definition ties_in_enumeration_order (cand_ids : list string)
    (recs : list Recommendation) : Prop :=
  exists scored : list Recommendation,
    map article_id scored = cand_ids /\
    forall s, exists later, with_score s scored = with_score s recs ++ later.

(** The ranking contract as the specification words it, for a returned
    list [recs]. *)
Definition ranking_contract (cand_ids user_reads : list string)
    (top_n : Z) (recs : list Recommendation) : Prop :=
  (Z.of_nat (length recs) <= Z.min top_n (Z.of_nat (length cand_ids)))%Z /\
  sorted_desc recs /\
  ties_in_enumeration_order cand_ids recs /\
  (forall r, In r recs -> ~ In (article_id r) user_reads) /\
  ((Z.of_nat (length cand_ids) < top_n)%Z ->
   Permutation (map article_id recs) cand_ids).

(** The contract the code keeps: the length bound for a non-negative
    [top_n], and all candidates returned when the profile is not empty. *)
Definition ranking_contract_amended (av : Dict Article)
    (cand_ids user_reads : list string)
    (top_n : Z) (recs : list Recommendation) : Prop :=
  ((0 <= top_n)%Z ->
   (Z.of_nat (length recs) <= Z.min top_n (Z.of_nat (length cand_ids)))%Z) /\
  sorted_desc recs /\
  ties_in_enumeration_order cand_ids recs /\
  (forall r, In r recs -> ~ In (article_id r) user_reads) /\
  (retained av user_reads <> [] ->
   (Z.of_nat (length cand_ids) <= top_n)%Z ->
   Permutation (map article_id recs) cand_ids).

(** The part of an advanced record that a simple record has too. *)
Definition simple_view (r : Recommendation) : Recommendation :=
  {| article_id := article_id r;
     rec_title := rec_title r;
     rec_content := None;
     rec_url := rec_url r;
     score := score r;
     similarity_components := None |}.

(** The topic component as the specification words it. *)
Definition topic_spec (cluster_history : list Z) (label : option Z) : Q :=
  match cluster_history, label with
  | [], _ => 0
  | _, None => 0
  | _ :: _, Some c =>
      inject_Z (Z.of_nat (count_occ Z.eq_dec cluster_history c))
      / inject_Z (Z.of_nat (length cluster_history))
  end.

(** The topic signal the code computes for a candidate article: the
    cluster similarity of its entry in [candidate_clusters]. *)
Definition candidate_topic (cluster_history : list Z) (a : Article) : Q :=
  Advanced._calculate_cluster_similarity cluster_history
                                         (Advanced.cluster_label a).

(** The column [k] of a list of rows. *)
Definition column (k : nat) (rows : list Vec) : list Q :=
  map (fun v => nth k v 0) rows.

(** The profile as the specification words it: the mean, component by
    component, of the kept vectors, each counted as often as it is
    kept. *)
Definition multiplicity_mean (kept : list Vec) (profile : Vec) : Prop :=
  kept <> [] /\
  Forall (fun v => length v = length profile) kept /\
  forall k, (k < length profile)%nat ->
    nth k profile 0 * inject_Z (Z.of_nat (length kept)) ==
    Qsum (column k kept).

(** Whether a read id is known and carries the cluster label [c]. *)
Definition reads_cluster (av : Dict Article) (c : Z) (aid : string) : bool :=
  match dict_get aid av with
  | Some a =>
      match cluster a with
      | Some c' => Z.eqb c' c
      | None => false
      end
  | None => false
  end.

(** The cluster labels a read list contributes, one per occurrence. *)
Definition cluster_history_of (av : Dict Article) (user_reads : list string)
    : list Z :=
  flat_map (fun aid =>
              match dict_get aid av with
              | Some a => match cluster a with Some c => [c] | None => [] end
              | None => []
              end)
           user_reads.

Section Greedy.
Context (relevance : nat -> Q) (similarity : nat -> nat -> Q).
Context (lambda_param : Q) (top_n : Z).

(** The MMR objective of the specification for index [i], given the
    indices already selected. *)
Definition mmr_objective (selected : list nat) (i : nat) : Q :=
  lambda_param * relevance i
  - (1 - lambda_param) * np_mean (map (similarity i) selected).

(** The greedy selection of the specification: from [selected] and
    [remaining], pick a maximiser of the objective until [top_n] indices
    are selected or none remains. *)
Inductive greedy : list nat -> list nat -> list nat -> Prop :=
| greedy_full : forall selected remaining,
    (top_n <= Z.of_nat (length selected))%Z ->
    greedy selected remaining selected
| greedy_exhausted : forall selected,
    greedy selected [] selected
| greedy_pick : forall selected remaining i remaining' final,
    (Z.of_nat (length selected) < top_n)%Z ->
    In i remaining ->
    (forall j, In j remaining ->
               mmr_objective selected j <= mmr_objective selected i) ->
    Permutation remaining (i :: remaining') ->
    greedy (selected ++ [i]) remaining' final ->
    greedy selected remaining final.

End Greedy.

Section Relevance.
Context {pf : Platform}.
Context (query_vector : Vec) (candidate_vectors : list Vec).

(** The relevance of the candidate at index [i], and the similarity of
    the candidates at indices [i] and [j]. *)
Definition relevance_of (i : nat) : Q :=
  cos_row query_vector (nth i candidate_vectors []).

Definition similarity_of (i j : nat) : Q :=
  cos_row (nth i candidate_vectors []) (nth j candidate_vectors []).

End Relevance.

(* ================================================================= *)
(** * Concrete data *)

Module Examples.
Local Open Scope string_scope.

(** Rational stand-ins for the numeric library: the square root is exact
    on squares of rationals, the exponential is a Taylor polynomial. *)
Definition sqrt_floor (q : Q) : Q :=
  Qmake (Z.sqrt (Qnum q * Zpos (Qden q))) (Qden q).

Definition exp_taylor (x : Q) : Q :=
  1 + x + x * x / 2 + x * x * x / 6 + x * x * x * x / 24.

Definition platform : Platform :=
  {| np_sqrt := sqrt_floor;
     np_exp := exp_taylor;
     days_old := fun s =>
       if String.eqb s "2024-01-01 00:00:00" then Some 0%Z else None |}.

Definition meta (t : string) : Metadata :=
  {| title := Some t;
     content := Some "";
     url := Some "";
     scraped_at := Some "2024-01-01 00:00:00" |}.

Definition raw (v : Vec) (c : option Z) (t : string) : RawArticle :=
  {| raw_vector := VList v; raw_cluster := c; raw_metadata := Some (meta t) |}.

Definition art (v : Vec) (c : option Z) (t : string) : Article :=
  {| vector := v; cluster := c; metadata := Some (meta t) |}.

Definition loaded (corpus : Dict Article) (rows : list Vec)
    (profiles : Dict (list string)) : BaseRecommender :=
  {| article_vectors := corpus;
     article_ids := dict_keys corpus;
     vector_array := rows;
     user_profiles := profiles |}.

Definition advanced (b : BaseRecommender) (dw cw : Q) : AdvancedRecommender :=
  {| base := b;
     diversity_weight := dw;
     time_decay_days := 30;
     cluster_weight := cw |}.

(** The two-article corpus of the specification. *)
Definition ab_embeddings : Dict RawArticle :=
  [("a", raw [1; 0] (Some 0%Z) "A"); ("b", raw [0; 1] (Some 1%Z) "B")].

Definition ab_corpus : Dict Article :=
  [("a", art [1; 0] (Some 0%Z) "A"); ("b", art [0; 1] (Some 1%Z) "B")].

Definition ab_profiles : Dict (list string) :=
  [("u1", ["a"]); ("u2", ["zzz"])].

Definition ab : BaseRecommender :=
  loaded ab_corpus [[1; 0]; [0; 1]] ab_profiles.

(** A corpus whose vectors have lengths 2, 1 and 3. *)
Definition mixed_embeddings : Dict RawArticle :=
  [("a", raw [1; 0] None "A"); ("b", raw [1] None "B");
   ("c", raw [1; 2; 3] None "C"); ("d", raw [] None "D")].

Definition mixed_corpus : Dict Article :=
  [("a", art [1; 0] None "A"); ("b", art [1] None "B");
   ("c", art [1; 2; 3] None "C")].

Definition mixed : BaseRecommender :=
  loaded mixed_corpus [[1; 0]; [1; 0]; [1; 2]]
         [("u1", ["a"]); ("u2", ["a"; "b"; "c"]); ("u3", ["c"])].

(** A corpus in which a read article carries the label [-1] and the
    candidate carries none. *)
Definition noise_corpus : Dict Article :=
  [("a", art [1; 0] (Some (-1)%Z) "A"); ("b", art [0; 1] None "B")].

Definition noise : BaseRecommender :=
  loaded noise_corpus [[1; 0]; [0; 1]] [].

(** What the two recommenders return for a reader of ["a"]. *)
Definition b_simple : Recommendation :=
  {| article_id := "b"; rec_title := "B"; rec_content := None;
     rec_url := ""; score := 0 # 10000; similarity_components := None |}.

Definition b_advanced (final fresh top : Q) : Recommendation :=
  {| article_id := "b"; rec_title := "B"; rec_content := Some "";
     rec_url := ""; score := final;
     similarity_components :=
       Some {| semantic := 0 # 10000; freshness := fresh; topic := top |} |}.

End Examples.

(* ================================================================= *)
(** * The vector cache *)

(** [_initialize_caches] wraps [_get_article_vector] in
    [functools.lru_cache(maxsize=cache_size)]. The cache is keyed by the
    article id; its entries are listed here from the most recently used
    to the least. A call that raises stores nothing; a size of 0 or less
    disables caching. *)
Definition LruCache : Type := Dict Vec.

Fixpoint cache_drop (k : string) (c : LruCache) : LruCache :=
  match c with
  | [] => []
  | (k', v) :: c' =>
      if String.eqb k k' then c' else (k', v) :: cache_drop k c'
  end.

Definition cached_get_article_vector (cache_size : Z)
    (self : BaseRecommender) (cache : LruCache) (aid : string)
    : result Vec * LruCache :=
  if (cache_size <=? 0)%Z then (_get_article_vector self aid, cache)
  else
    match dict_get aid cache with
    | Some v => (Ok v, (aid, v) :: cache_drop aid cache)
    | None =>
        match _get_article_vector self aid with
        | Ok v => (Ok v, firstn (Z.to_nat cache_size) ((aid, v) :: cache))
        | Raise e => (Raise e, cache)
        end
    end.

(** Successive calls on one recommender, each with the cache the
    previous one left. *)
Fixpoint cached_calls (cache_size : Z) (self : BaseRecommender)
    (cache : LruCache) (aids : list string)
    : list (result Vec) * LruCache :=
  match aids with
  | [] => ([], cache)
  | aid :: rest =>
      let '(r, cache') :=
        cached_get_article_vector cache_size self cache aid in
      let '(rs, cache'') := cached_calls cache_size self cache' rest in
      (r :: rs, cache'')
  end.

(** What every cache reached from the empty one satisfies. *)
Definition cache_ok (cache_size : Z) (self : BaseRecommender)
    (c : LruCache) : Prop :=
  NoDup (dict_keys c) /\
  (length c <= Z.to_nat cache_size)%nat /\
  forall k v, dict_get k c = Some v -> _get_article_vector self k = Ok v.

(* ================================================================= *)
(** * RecommenderFactory *)

Module Factory.

(** [str.lower] on the ASCII letters. A non-ASCII character never
    lowers to a letter of ["simple"] or ["advanced"], so the two
    comparisons of [create_recommender] come out the same. *)
Definition lower_ascii (c : Ascii.ascii) : Ascii.ascii :=
  let n := Ascii.nat_of_ascii c in
  if Nat.leb 65 n && Nat.leb n 90 then Ascii.ascii_of_nat (n + 32) else c.

Fixpoint lower (s : string) : string :=
  match s with
  | EmptyString => EmptyString
  | String c s' => String (lower_ascii c) (lower s')
  end.

(** The keyword arguments that only [AdvancedRecommender] accepts. *)
Record Kwargs : Type := {
  kw_diversity_weight : option Q;
  kw_time_decay_days : option Q;
  kw_cluster_weight : option Q
}.

Inductive Recommender : Type :=
| IsSimple (r : BaseRecommender)
| IsAdvanced (r : AdvancedRecommender).

(** [TypeError] is what an unexpected keyword argument raises. *)
Inductive FactoryError : Type :=
| TypeError
| Raised (e : PyError).

Definition with_default (o : option Q) (d : Q) : Q :=
  match o with
  | Some x => x
  | None => d
  end.

Definition create_recommender (recommender_type : string) (kwargs : Kwargs)
    (embeddings : Dict RawArticle) (profiles : Dict (list string))
    : Recommender + FactoryError :=
  if String.eqb (lower recommender_type) "simple" then
    match kw_diversity_weight kwargs, kw_time_decay_days kwargs,
          kw_cluster_weight kwargs with
    | None, None, None =>
        match _load_data embeddings profiles with
        | Ok b => inl (IsSimple b)
        | Raise e => inr (Raised e)
        end
    | _, _, _ => inr TypeError
    end
  else if String.eqb (lower recommender_type) "advanced" then
    match Advanced.__init__ embeddings profiles
            (with_default (kw_diversity_weight kwargs) (3 # 10))
            (with_default (kw_time_decay_days kwargs) 30)
            (with_default (kw_cluster_weight kwargs) (2 # 10)) with
    | Ok a => inl (IsAdvanced a)
    | Raise e => inr (Raised e)
    end
  else inr (Raised ValueError).

End Factory.

(* ================================================================= *)
(** * The web application ([app.py]) *)

Module App.

(** A JSON response: status 200 with a body, or status 500 with an
    error message. *)
Inductive Response (A : Type) : Type :=
| Status200 (body : A)
| Status500.

Arguments Status200 {A} body.
Arguments Status500 {A}.

(** The loop that adds ['content'] to every returned article. *)
Definition add_content (av : Dict Article) (article : Recommendation)
    : result Recommendation :=
  match dict_get (article_id article) av with
  | Some a =>
      match metadata a with
      | Some m =>
          Ok {| article_id := article_id article;
                rec_title := rec_title article;
                rec_content := Some (get_or_empty (content m));
                rec_url := rec_url article;
                score := score article;
                similarity_components := similarity_components article |}
      | None => Raise KeyError
      end
  | None => Ok article
  end.

Section WithPlatform.
Context {pf : Platform}.

(** [recommender] is the module's global: [None] when its construction
    failed. *)
Definition get_similar_articles (recommender : option AdvancedRecommender)
    (article_id : string) : Response (list Recommendation) :=
  match recommender with
  | None => Status500
  | Some r =>
      let av := article_vectors (base r) in
      match
        similar_articles <-
          Advanced.recommend_for_user r "demo_user" av [article_id] 5 ;;
        mapM (add_content av) similar_articles
      with
      | Ok similar_articles => Status200 similar_articles
      | Raise _ => Status500
      end
  end.

End WithPlatform.

(** ** The loops of [get_stats]

    The three loops that compute the cluster distribution, the freshness
    distribution and the cluster topics; the response that [get_stats]
    builds from them is not represented. *)

(** Dictionaries keyed by cluster label. *)
Fixpoint zget {V : Type} (k : Z) (d : list (Z * V)) : option V :=
  match d with
  | [] => None
  | (k', v) :: d' => if Z.eqb k k' then Some v else zget k d'
  end.

Fixpoint zset {V : Type} (k : Z) (v : V) (d : list (Z * V)) : list (Z * V) :=
  match d with
  | [] => [(k, v)]
  | (k', v') :: d' =>
      if Z.eqb k k' then (k, v) :: d' else (k', v') :: zset k v d'
  end.

(** [data.get('cluster', -1)] and the counting loop. *)
Definition count_cluster (cluster_counts : list (Z * nat)) (data : Article)
    : list (Z * nat) :=
  let cluster := Advanced.cluster_label data in
  zset cluster
       (match zget cluster cluster_counts with Some n => n | None => O end + 1)%nat
       cluster_counts.

(** The count stored for a cluster, 0 when it has no entry, and the sum
    of all counts. *)
Definition count_of (cluster : Z) (counts : list (Z * nat)) : nat :=
  match zget cluster counts with Some n => n | None => O end.

Definition sum_counts (counts : list (Z * nat)) : nat :=
  fold_right (fun kv s => (snd kv + s)%nat) O counts.

Definition cluster_distribution (av : Dict Article) : list (Z * nat) :=
  fold_left (fun counts entry => count_cluster counts (snd entry)) av [].

Inductive Bucket : Type := Today | ThisWeek | ThisMonth | Older.

Record FreshnessCounts : Type := {
  today : nat;
  this_week : nat;
  this_month : nat;
  older : nat
}.

Definition sum_buckets (c : FreshnessCounts) : nat :=
  (today c + this_week c + this_month c + older c)%nat.

Definition bump (b : Bucket) (c : FreshnessCounts) : FreshnessCounts :=
  match b with
  | Today => {| today := today c + 1; this_week := this_week c;
                this_month := this_month c; older := older c |}
  | ThisWeek => {| today := today c; this_week := this_week c + 1;
                   this_month := this_month c; older := older c |}
  | ThisMonth => {| today := today c; this_week := this_week c;
                    this_month := this_month c + 1; older := older c |}
  | Older => {| today := today c; this_week := this_week c;
                this_month := this_month c; older := older c + 1 |}
  end%nat.

(** The titles of a cluster, and the final cut to three. *)
Definition add_topic (cluster_topics : list (Z * list string))
    (data : Article) : list (Z * list string) :=
  let cluster := Advanced.cluster_label data in
  let topics :=
    match zget cluster cluster_topics with
    | Some _ => cluster_topics
    | None => zset cluster [] cluster_topics
    end in
  match metadata data with
  | Some m =>
      match title m with
      | Some t =>
          zset cluster
               (match zget cluster topics with
                | Some ts => ts
                | None => []
                end ++ [t])
               topics
      | None => topics
      end
  | None => topics
  end.

(** The titles a cluster has, in the order of the articles. *)
Definition titles_of (cluster : Z) (av : Dict Article) : list string :=
  flat_map (fun entry : string * Article =>
              if Z.eq_dec (Advanced.cluster_label (snd entry)) cluster
              then match metadata (snd entry) with
                   | Some m => match title m with Some t => [t] | None => [] end
                   | None => []
                   end
              else [])
           av.

Definition topics_of (cluster : Z) (topics : list (Z * list string))
    : list string :=
  match zget cluster topics with Some ts => ts | None => [] end.

Definition cluster_topics (av : Dict Article) : list (Z * list string) :=
  map (fun kv => (fst kv, firstn 3 (snd kv)))
      (fold_left (fun topics entry => add_topic topics (snd entry)) av []).

Section WithPlatform.
Context {pf : Platform}.

(** The bucket of one article; a missing or unparsable timestamp counts
    as [Older]. *)
Definition bucket_of (data : Article) : Bucket :=
  match metadata data with
  | Some m =>
      match scraped_at m with
      | Some s =>
          match days_old s with
          | Some d =>
              if (d =? 0)%Z then Today
              else if (d <=? 7)%Z then ThisWeek
              else if (d <=? 30)%Z then ThisMonth
              else Older
          | None => Older
          end
      | None => Older
      end
  | None => Older
  end.

Definition in_bucket (b : Bucket) (data : Article) : bool :=
  match b, bucket_of data with
  | Today, Today | ThisWeek, ThisWeek
  | ThisMonth, ThisMonth | Older, Older => true
  | _, _ => false
  end.

Definition freshness_distribution (av : Dict Article) : FreshnessCounts :=
  fold_left (fun counts entry => bump (bucket_of (snd entry)) counts) av
            {| today := O; this_week := O; this_month := O; older := O |}.

End WithPlatform.
End App.

(* ================================================================= *)
(** * The user model ([app/models/user.py]) *)

Module UserModel.

Definition Preferences : Type := Dict string.

Record User : Type := {
  id : string;
  read_articles : list string;
  (** [None] is Python's [None]. *)
  preferences : option Preferences
}.

(** The dictionary [from_dict] reads: each key may be absent, and
    ['preferences'] may hold [None]. *)
Record UserDict : Type := {
  d_id : option string;
  d_read_articles : option (list string);
  d_preferences : option (option Preferences)
}.

Definition from_dict (data : UserDict) : User :=
  {| id := match d_id data with Some s => s | None => EmptyString end;
     read_articles :=
       match d_read_articles data with Some l => l | None => [] end;
     preferences :=
       match d_preferences data with Some p => p | None => Some [] end |}.

(** [self.preferences or {}]: [None] and the empty dictionary both give
    the empty dictionary. *)
Definition to_dict (u : User) : UserDict :=
  {| d_id := Some (id u);
     d_read_articles := Some (read_articles u);
     d_preferences :=
       Some (Some (match preferences u with
                   | Some (kv :: p) => kv :: p
                   | _ => []
                   end)) |}.

End UserModel.

(* ================================================================= *)
(** * Further vocabulary *)

(** A stored article passes the filter of [_load_data] when its
    ['vector'] is a non-empty list. *)
Definition usable (data : RawArticle) : Prop :=
  exists x v, raw_vector data = VList (x :: v).

(** A recommender whose ids are all stored, whose vectors all have the
    non-zero length [d], and whose articles all have metadata. *)
Definition well_formed (self : BaseRecommender) (d : nat) : Prop :=
  d <> O /\
  (forall aid, In aid (article_ids self) ->
     exists a, dict_get aid (article_vectors self) = Some a) /\
  (forall aid a, dict_get aid (article_vectors self) = Some a ->
     length (vector a) = d /\ metadata a <> None).

(** ** More concrete data *)

Module Cases.
Local Open Scope string_scope.

(** Three articles of one dimension; [c] has norm 5. *)
Definition abc_corpus : Dict Article :=
  [("a", Examples.art [1; 0] (Some 0%Z) "A");
   ("b", Examples.art [0; 1] (Some 1%Z) "B");
   ("c", Examples.art [3; 4] (Some 0%Z) "C")].

Definition abc_embeddings : Dict RawArticle :=
  [("a", Examples.raw [1; 0] (Some 0%Z) "A");
   ("b", Examples.raw [0; 1] (Some 1%Z) "B");
   ("c", Examples.raw [3; 4] (Some 0%Z) "C")].

Definition abc_profiles : Dict (list string) :=
  [("u1", ["a"]); ("u2", ["zzz"]); ("u3", ["b"; "c"])].

Definition abc : BaseRecommender :=
  Examples.loaded abc_corpus [[1; 0]; [0; 1]; [3; 4]] abc_profiles.

Definition simple_rec (aid t : string) (s : Q) : Recommendation :=
  {| article_id := aid; rec_title := t; rec_content := None;
     rec_url := ""; score := s; similarity_components := None |}.

End Cases.

(** Whether a call returned. *)
Definition returned {A : Type} (r : result A) : bool :=
  match r with
  | Ok _ => true
  | Raise _ => false
  end.

(* ================================================================= *)
(** * Basic facts: exceptions, dictionaries, lists *)

Lemma bind_ok : forall (A B : Type) (m : result A) (k : A -> result B) b,
  bind m k = Ok b -> exists a, m = Ok a /\ k a = Ok b.
Proof.
  intros A B [a | e] k b H; simpl in H; [eauto | discriminate].
Qed.

Ltac inv_bind H :=
  let a := fresh "x" in
  let Ha := fresh "E" in
  apply bind_ok in H; destruct H as (a & Ha & H).

Lemma mapM_Forall2 : forall (A B : Type) (f : A -> result B) l ys,
  mapM f l = Ok ys -> Forall2 (fun x y => f x = Ok y) l ys.
Proof.
  induction l as [| x l IH]; simpl; intros ys H.
  - inversion H; constructor.
  - inv_bind H. inv_bind H. inversion H; subst. constructor; auto.
Qed.

Lemma mapM_length : forall (A B : Type) (f : A -> result B) l ys,
  mapM f l = Ok ys -> length ys = length l.
Proof.
  intros A B f l ys H. apply mapM_Forall2 in H.
  symmetry. eapply Forall2_length; eauto.
Qed.

Lemma mapM_total : forall (A B : Type) (f : A -> result B) l,
  (forall x, In x l -> exists y, f x = Ok y) ->
  exists ys, mapM f l = Ok ys.
Proof.
  induction l as [| x l IH]; simpl; intros H.
  - eauto.
  - destruct (H x) as (y & Hy); auto. rewrite Hy. simpl.
    destruct IH as (ys & Hys); auto. rewrite Hys. simpl. eauto.
Qed.

Lemma str_in_true : forall x l, str_in x l = true <-> In x l.
Proof.
  intros x l. unfold str_in. rewrite existsb_exists. split.
  - intros (y & Hy & E). apply String.eqb_eq in E. subst; auto.
  - intros H. exists x. split; auto. apply String.eqb_refl.
Qed.

Lemma str_in_false : forall x l, str_in x l = false <-> ~ In x l.
Proof.
  intros x l. rewrite <- str_in_true. destruct (str_in x l); split;
    intros; try discriminate; try congruence.
Qed.

Lemma dict_get_In_keys : forall (V : Type) k (d : Dict V) v,
  dict_get k d = Some v -> In k (dict_keys d).
Proof.
  induction d as [| [k' v'] d IH]; simpl; intros v H; try discriminate.
  destruct (String.eqb k k') eqn:E.
  - apply String.eqb_eq in E. auto.
  - right. eauto.
Qed.

Lemma dict_get_not_in_keys : forall (V : Type) k (d : Dict V),
  ~ In k (dict_keys d) -> dict_get k d = None.
Proof.
  intros V k d H. destruct (dict_get k d) eqn:E; auto.
  apply dict_get_In_keys in E. contradiction.
Qed.

Lemma dict_get_set_same : forall (V : Type) k (v : V) d,
  dict_get k (dict_set k v d) = Some v.
Proof.
  induction d as [| [k' v'] d IH]; simpl.
  - rewrite String.eqb_refl. reflexivity.
  - destruct (String.eqb k k') eqn:E; simpl.
    + rewrite String.eqb_refl. reflexivity.
    + rewrite E. exact IH.
Qed.

Lemma dict_get_set_other : forall (V : Type) k k' (v : V) d,
  k <> k' -> dict_get k (dict_set k' v d) = dict_get k d.
Proof.
  induction d as [| [k0 v0] d IH]; simpl; intros Hne.
  - destruct (String.eqb k k') eqn:E; auto.
    apply String.eqb_eq in E. contradiction.
  - destruct (String.eqb k' k0) eqn:E'; simpl.
    + apply String.eqb_eq in E'. subst k0.
      destruct (String.eqb k k') eqn:E; auto.
      apply String.eqb_eq in E. contradiction.
    + destruct (String.eqb k k0); auto.
Qed.

(* ================================================================= *)
(** * Sorting and slicing *)

Lemma Qle_bool_false : forall x y, Qle_bool x y = false -> y < x.
Proof.
  intros x y H. apply Qnot_le_lt. intro Hle.
  apply Qle_bool_iff in Hle. congruence.
Qed.

Section SortFacts.
Context {A : Type} (key : A -> Q).

Lemma insert_desc_perm : forall x l,
  Permutation (insert_desc key x l) (x :: l).
Proof.
  induction l as [| y l IH]; simpl; auto.
  destruct (Qle_bool (key y) (key x)); auto.
  rewrite IH. apply perm_swap.
Qed.

Lemma sort_desc_perm : forall l, Permutation (sort_desc key l) l.
Proof.
  induction l as [| x l IH]; simpl; auto.
  rewrite insert_desc_perm. auto.
Qed.

Lemma sort_desc_length : forall l, length (sort_desc key l) = length l.
Proof. intros l. apply Permutation_length, sort_desc_perm. Qed.

Lemma insert_desc_sorted : forall x l,
  StronglySorted (ge_key key) l -> StronglySorted (ge_key key) (insert_desc key x l).
Proof.
  induction l as [| y l IH]; simpl; intros Hs.
  - repeat constructor.
  - inversion Hs as [| ? ? Hl Hy]; subst.
    destruct (Qle_bool (key y) (key x)) eqn:E.
    + apply Qle_bool_iff in E. constructor; auto.
      constructor; auto.
      eapply Forall_impl; [| exact Hy].
      intros z Hz. unfold ge_key in *. eapply Qle_trans; eauto.
    + apply Qle_bool_false in E. constructor; auto.
      eapply Permutation_Forall.
      * symmetry. apply insert_desc_perm.
      * constructor; auto. unfold ge_key. apply Qlt_le_weak; auto.
Qed.

Lemma sort_desc_sorted : forall l, StronglySorted (ge_key key) (sort_desc key l).
Proof.
  induction l as [| x l IH]; simpl.
  - constructor.
  - apply insert_desc_sorted; auto.
Qed.

(** Stability: the elements of any given key keep their order. *)
Lemma insert_desc_stable : forall s x l,
  filter (fun a => Qeq_bool (key a) s) (insert_desc key x l) =
  filter (fun a => Qeq_bool (key a) s) (x :: l).
Proof.
  induction l as [| y l IH]; simpl; auto.
  destruct (Qle_bool (key y) (key x)) eqn:E; simpl; auto.
  apply Qle_bool_false in E.
  simpl in IH. rewrite IH.
  destruct (Qeq_bool (key x) s) eqn:Ex; auto.
  destruct (Qeq_bool (key y) s) eqn:Ey; auto.
  apply Qeq_bool_iff in Ex, Ey. rewrite Ex, Ey in E.
  exfalso. revert E. apply Qlt_irrefl.
Qed.

Lemma sort_desc_stable : forall s l,
  filter (fun a => Qeq_bool (key a) s) (sort_desc key l) =
  filter (fun a => Qeq_bool (key a) s) l.
Proof.
  induction l as [| x l IH]; simpl; auto.
  rewrite insert_desc_stable. simpl. rewrite IH. reflexivity.
Qed.

Lemma firstn_sorted : forall k l,
  StronglySorted (ge_key key) l -> StronglySorted (ge_key key) (firstn k l).
Proof.
  induction k as [| k IH]; intros [| x l] Hs; simpl; try constructor.
  - inversion Hs; subst. apply IH; auto.
  - inversion Hs as [| ? ? Hl Hx]; subst.
    rewrite <- (firstn_skipn k l) in Hx.
    apply Forall_app in Hx. tauto.
Qed.

End SortFacts.

Lemma sort_desc_map : forall (A B : Type) (f : A -> B) (ka : A -> Q)
    (kb : B -> Q) l,
  (forall a, kb (f a) = ka a) ->
  sort_desc kb (map f l) = map f (sort_desc ka l).
Proof.
  intros A B f ka kb l H.
  induction l as [| x l IH]; simpl; auto.
  rewrite IH. generalize (sort_desc ka l) as m.
  induction m as [| y m IHm]; simpl; auto.
  rewrite !H. destruct (Qle_bool (ka y) (ka x)); simpl; auto.
  rewrite IHm. reflexivity.
Qed.

Lemma firstn_incl : forall (A : Type) k (l : list A) x,
  In x (firstn k l) -> In x l.
Proof.
  intros A k l x H. rewrite <- (firstn_skipn k l).
  apply in_or_app. left. exact H.
Qed.

Lemma slice_to_firstn : forall (A : Type) (l : list A) n,
  exists k, slice_to l n = firstn k l.
Proof.
  intros A l n. unfold slice_to. destruct (0 <=? n)%Z; eauto.
Qed.

Lemma slice_to_nonneg : forall (A : Type) (l : list A) n,
  (0 <= n)%Z -> slice_to l n = firstn (Z.to_nat n) l.
Proof.
  intros A l n H. unfold slice_to.
  apply Z.leb_le in H. rewrite H. reflexivity.
Qed.

Lemma slice_to_all : forall (A : Type) (l : list A) n,
  (Z.of_nat (length l) <= n)%Z -> slice_to l n = l.
Proof.
  intros A l n H. rewrite slice_to_nonneg by lia.
  apply firstn_all2. lia.
Qed.

Lemma slice_to_map : forall (A B : Type) (f : A -> B) l n,
  slice_to (map f l) n = map f (slice_to l n).
Proof.
  intros A B f l n. unfold slice_to. rewrite length_map.
  destruct (0 <=? n)%Z; apply firstn_map.
Qed.

(* ================================================================= *)
(** * Loading *)

Lemma repair_length : forall d v, length (repair d v) = d.
Proof.
  intros d v. unfold repair.
  destruct (Nat.eqb (length v) d) eqn:E.
  - apply Nat.eqb_eq in E. exact E.
  - destruct (Nat.ltb (length v) d) eqn:L.
    + apply Nat.ltb_lt in L. rewrite length_app, repeat_length. lia.
    + apply Nat.ltb_ge in L. rewrite length_firstn. lia.
Qed.

Lemma repair_cases : forall d v,
  (length v = d -> repair d v = v) /\
  ((length v < d)%nat -> repair d v = v ++ repeat 0 (d - length v)) /\
  ((d < length v)%nat -> repair d v = firstn d v).
Proof.
  intros d v. unfold repair. repeat split; intros H.
  - apply Nat.eqb_eq in H. rewrite H. reflexivity.
  - assert (E : Nat.eqb (length v) d = false) by (apply Nat.eqb_neq; lia).
    apply Nat.ltb_lt in H. rewrite E, H. reflexivity.
  - assert (E : Nat.eqb (length v) d = false) by (apply Nat.eqb_neq; lia).
    assert (L : Nat.ltb (length v) d = false) by (apply Nat.ltb_ge; lia).
    rewrite E, L. reflexivity.
Qed.

Lemma valid_articles_nonempty_vectors : forall raw aid a,
  In (aid, a) (valid_articles raw) -> vector a <> [].
Proof.
  induction raw as [| [k data] raw IH]; simpl; intros aid a H; [tauto |].
  destruct (valid_article data) as [a' |] eqn:E; [| eauto].
  destruct H as [H | H]; [| eauto].
  inversion H; subst. unfold valid_article in E.
  destruct (raw_vector data) as [| | [| x v]]; try discriminate.
  inversion E; subst; simpl. discriminate.
Qed.

(** C5. With [D] the vector length of the first surviving article,
    [_load_data] does not raise, keeps the surviving articles, and
    builds one row per surviving article: the row has length exactly
    [D]; it is the vector itself when the lengths agree, the vector
    followed by zeros when the vector is shorter, and the first [D]
    entries of the vector when it is longer. *)
Theorem C5_dimension_repair :
  forall embeddings profiles aid0 first rest,
    valid_articles embeddings = (aid0, first) :: rest ->
    exists self,
      _load_data embeddings profiles = Ok self /\
      article_vectors self = valid_articles embeddings /\
      Forall2 (fun entry row =>
                 let v := vector (snd entry) in
                 let D := length (vector first) in
                 length row = D /\
                 (length v = D -> row = v) /\
                 ((length v < D)%nat -> row = v ++ repeat 0 (D - length v)) /\
                 ((D < length v)%nat -> row = firstn D v))
              (article_vectors self) (vector_array self).
Proof.
  intros embeddings profiles aid0 first rest Hv.
  unfold _load_data. rewrite Hv.
  eexists. split; [reflexivity |]. split; [reflexivity |].
  cbv beta iota delta [article_vectors vector_array].
  generalize ((aid0, first) :: rest) as l.
  induction l as [| entry l IH]; simpl; constructor; auto.
  split; [apply repair_length | apply repair_cases].
Qed.

Lemma C5_dimension_repair_witness :
  exists self,
    _load_data Examples.mixed_embeddings [] = Ok self /\
    article_vectors self = valid_articles Examples.mixed_embeddings /\
    Forall2 (fun entry row =>
               let v := vector (snd entry) in
               let D := 2%nat in
               length row = D /\
               (length v = D -> row = v) /\
               ((length v < D)%nat -> row = v ++ repeat 0 (D - length v)) /\
               ((D < length v)%nat -> row = firstn D v))
            (article_vectors self) (vector_array self).
Proof.
  exact (C5_dimension_repair Examples.mixed_embeddings [] _ _ _ eq_refl).
Defined.

(* ================================================================= *)
(** * Construction of the advanced recommender *)

Lemma init_stores_any_weights : forall embeddings profiles dw tdd cw b,
  _load_data embeddings profiles = Ok b ->
  Advanced.__init__ embeddings profiles dw tdd cw =
  Ok {| base := b; diversity_weight := dw;
        time_decay_days := tdd; cluster_weight := cw |}.
Proof.
  intros. unfold Advanced.__init__. rewrite H. reflexivity.
Qed.

(** C1. The constructor stores the weights without checking them: with
    [diversity_weight = 1.5] and the default [cluster_weight = 0.2], whose
    sum exceeds 1, it returns a recommender instead of raising. *)
Theorem C1_init_accepts_weights_above_one :
  exists self,
    Advanced.__init__ Examples.ab_embeddings Examples.ab_profiles
                      (3 # 2) 30 (1 # 5) = Ok self /\
    diversity_weight self = 3 # 2 /\
    cluster_weight self = 1 # 5 /\
    1 < diversity_weight self + cluster_weight self.
Proof.
  eexists. split; [reflexivity |]. simpl. repeat split.
Qed.

(* ================================================================= *)
(** * The loops of [recommend_for_user] *)

Lemma map_fst_combine : forall (A B : Type) (l : list A) (l' : list B),
  length l = length l' -> map fst (combine l l') = l.
Proof.
  induction l as [| a l IH]; intros [| b l'] H; simpl in *;
    try discriminate; auto.
  f_equal. apply IH. lia.
Qed.

Section Loops.
Context {pf : Platform}.

Lemma cosine_similarity_ok : forall x Y sims,
  cosine_similarity x Y = Ok sims ->
  sims = map (cos_row x) Y /\ Y <> [] /\
  length x <> O /\ Forall (fun r => length r = length x) Y.
Proof.
  intros x Y sims H. unfold cosine_similarity in H.
  destruct Y as [| y Y]; [discriminate |].
  destruct (Nat.eqb (length x) 0) eqn:E0; [discriminate |].
  destruct (same_length (length x) (y :: Y)) eqn:Es; [| discriminate].
  inversion H; subst. repeat split; try discriminate.
  - apply Nat.eqb_neq; auto.
  - unfold same_length in Es. rewrite forallb_forall in Es.
    apply Forall_forall. intros r Hr. apply Nat.eqb_eq. auto.
Qed.

Lemma simple_read_vectors_spec : forall self av reads vs,
  Simple.read_vectors self av reads = Ok vs ->
  Forall2 (fun aid v => _get_article_vector self aid = Ok v)
          (retained av reads) vs.
Proof.
  induction reads as [| aid reads IH]; simpl; intros vs H.
  - inversion H. constructor.
  - destruct (dict_mem aid av) eqn:E; [| auto].
    inv_bind H. inv_bind H. inversion H; subst. constructor; auto.
Qed.

Lemma advanced_read_history_spec : forall self av reads vs cs,
  Advanced.read_history self av reads = Ok (vs, cs) ->
  Forall2 (fun aid v => _get_article_vector (base self) aid = Ok v)
          (retained av reads) vs /\
  cs = cluster_history_of av reads.
Proof.
  induction reads as [| aid reads IH]; simpl; intros vs cs H.
  - inversion H. split; [constructor | reflexivity].
  - unfold dict_mem. destruct (dict_get aid av) as [a |] eqn:E; [| auto].
    inv_bind H. inv_bind H. destruct x0 as [vs' cs'].
    destruct (IH _ _ E1) as [IHv IHc].
    inversion H; subst. split; [constructor; auto |].
    destruct (cluster a); reflexivity.
Qed.

Lemma read_vectors_history : forall self av reads vs,
  Simple.read_vectors (base self) av reads = Ok vs ->
  Advanced.read_history self av reads = Ok (vs, cluster_history_of av reads).
Proof.
  induction reads as [| aid reads IH]; simpl; intros vs H.
  - inversion H. reflexivity.
  - unfold dict_mem in H. destruct (dict_get aid av) as [a |]; [| eauto].
    inv_bind H. inv_bind H. inversion H; subst.
    rewrite E. simpl. rewrite (IH _ E0). simpl.
    destruct (cluster a); reflexivity.
Qed.

Lemma simple_candidates_spec : forall self ids reads cs,
  Simple.candidates self ids reads = Ok cs ->
  map fst cs = filter (fun aid => negb (str_in aid reads)) ids /\
  Forall (fun c => _get_article_vector self (fst c) = Ok (snd c)) cs.
Proof.
  induction ids as [| aid ids IH]; simpl; intros reads cs H.
  - inversion H. split; [reflexivity | constructor].
  - destruct (str_in aid reads); simpl; [auto |].
    inv_bind H. inv_bind H. inversion H; subst.
    destruct (IH _ _ E0) as [IH1 IH2]. simpl. split.
    + f_equal; auto.
    + constructor; auto.
Qed.

Lemma advanced_candidates_spec : forall self av ids reads cs,
  Advanced.candidates self av ids reads = Ok cs ->
  map (fun c => fst (fst c)) cs =
    filter (fun aid => negb (str_in aid reads)) ids /\
  Forall (fun c =>
            _get_article_vector (base self) (fst (fst c)) = Ok (snd (fst c)) /\
            exists a, dict_get (fst (fst c)) av = Some a /\
                      snd c = Advanced.cluster_label a) cs.
Proof.
  induction ids as [| aid ids IH]; simpl; intros reads cs H.
  - inversion H. split; [reflexivity | constructor].
  - destruct (str_in aid reads); simpl; [auto |].
    inv_bind H. inv_bind H. inv_bind H. inversion H; subst.
    destruct (IH _ _ E1) as [IH1 IH2]. simpl. split.
    + f_equal; auto.
    + constructor; auto. simpl. split; auto.
      unfold dict_item in E0. destruct (dict_get aid av) eqn:G;
        [| discriminate]. inversion E0; subst. eauto.
Qed.

Lemma simple_record_ok : forall av aid sc r,
  Simple.record av (aid, sc) = Ok r ->
  article_id r = aid /\ score r = round4 sc /\
  rec_content r = None /\ similarity_components r = None /\
  exists a m, dict_get aid av = Some a /\ metadata a = Some m /\
              rec_title r = get_or_empty (title m) /\
              rec_url r = get_or_empty (url m).
Proof.
  intros av aid sc r H. unfold Simple.record, dict_item in H.
  destruct (dict_get aid av) as [a |] eqn:G; simpl in H; [| discriminate].
  destruct (metadata a) as [m |] eqn:M; [| discriminate].
  inversion H; subst; simpl. repeat split; eauto 10.
Qed.

Lemma advanced_record_ok : forall self av aid sem td cs r,
  Advanced.record self av (aid, sem, (td, cs)) = Ok r ->
  article_id r = aid /\
  score r = round4 (Advanced.final_score self sem td cs) /\
  similarity_components r =
    Some {| semantic := round4 sem; freshness := round4 td;
            topic := round4 cs |} /\
  exists a m, dict_get aid av = Some a /\ metadata a = Some m /\
              rec_title r = get_or_empty (title m) /\
              rec_content r = Some (get_or_empty (content m)) /\
              rec_url r = get_or_empty (url m).
Proof.
  intros self av aid sem td cs r H. unfold Advanced.record, dict_item in H.
  destruct (dict_get aid av) as [a |] eqn:G; simpl in H; [| discriminate].
  destruct (metadata a) as [m |] eqn:M; [| discriminate].
  inversion H; subst; simpl. repeat split; eauto 10.
Qed.

Lemma simple_records_ids : forall av ps recs,
  mapM (Simple.record av) ps = Ok recs ->
  map article_id recs = map fst ps.
Proof.
  intros av ps recs H. apply mapM_Forall2 in H.
  induction H as [| [aid sc] r ps recs Hr _ IH]; simpl; auto.
  apply simple_record_ok in Hr. destruct Hr as [-> _]. f_equal; auto.
Qed.

Lemma advanced_records_ids : forall self av ps recs,
  mapM (Advanced.record self av) ps = Ok recs ->
  map article_id recs = map (fun p => fst (fst p)) ps.
Proof.
  intros self av ps recs H. apply mapM_Forall2 in H.
  induction H as [| [[aid sem] [td cs]] r ps recs Hr _ IH]; simpl; auto.
  apply advanced_record_ok in Hr. destruct Hr as [-> _]. f_equal; auto.
Qed.

End Loops.

(* ================================================================= *)
(** * The ranking contract *)

Lemma with_score_firstn : forall s k recs,
  exists later,
    with_score s recs = with_score s (firstn k recs) ++ later.
Proof.
  intros s k recs. exists (with_score s (skipn k recs)).
  unfold with_score. rewrite <- filter_app, firstn_skipn. reflexivity.
Qed.

Lemma ranked_contract : forall av self reads top_n recommendations,
  map article_id recommendations = candidate_ids_of self reads ->
  ranking_contract_amended av (candidate_ids_of self reads) reads top_n
    (slice_to (sort_desc score recommendations) top_n).
Proof.
  intros av self reads top_n recommendations Hids.
  assert (Hlen : length (sort_desc score recommendations) =
                 length (candidate_ids_of self reads)).
  { rewrite sort_desc_length, <- Hids, length_map. reflexivity. }
  destruct (slice_to_firstn _ (sort_desc score recommendations) top_n)
    as (k & Hk).
  unfold ranking_contract_amended. repeat split.
  - intros Hn. rewrite slice_to_nonneg by assumption.
    rewrite length_firstn, Hlen. lia.
  - rewrite Hk. apply firstn_sorted, sort_desc_sorted.
  - exists recommendations. split; [assumption |].
    intros s. rewrite Hk. unfold with_score at 1.
    rewrite <- (sort_desc_stable score s recommendations).
    apply with_score_firstn.
  - intros r Hr Hread. rewrite Hk in Hr. apply firstn_incl in Hr.
    eapply Permutation_in in Hr; [| apply sort_desc_perm].
    apply (in_map article_id) in Hr. rewrite Hids in Hr.
    unfold candidate_ids_of in Hr. apply filter_In in Hr.
    destruct Hr as [_ Hr]. apply negb_true_iff, str_in_false in Hr. auto.
  - intros _ Hn. rewrite slice_to_all by lia.
    rewrite <- Hids. apply Permutation_map, sort_desc_perm.
Qed.

Lemma empty_contract : forall av cand_ids reads top_n,
  (retained av reads <> [] -> cand_ids = []) ->
  ranking_contract_amended av cand_ids reads top_n [].
Proof.
  intros av cand_ids reads top_n H.
  unfold ranking_contract_amended. repeat split.
  - simpl. lia.
  - constructor.
  - exists (map (fun aid =>
                   {| article_id := aid; rec_title := EmptyString;
                      rec_content := None; rec_url := EmptyString;
                      score := 0; similarity_components := None |})
                cand_ids).
    split.
    + rewrite map_map. simpl. apply map_id.
    + intros s. eexists. reflexivity.
  - intros r [].
  - intros Hr _. rewrite (H Hr). constructor.
Qed.

Lemma Forall2_nil_r : forall (A B : Type) (P : A -> B -> Prop) l,
  Forall2 P l [] -> l = [].
Proof. intros A B P l H. inversion H. reflexivity. Qed.

Section Contract.
Context {pf : Platform}.

Lemma simple_contract : forall self uid av reads top_n recs,
  Simple.recommend_for_user self uid av reads top_n = Ok recs ->
  ranking_contract_amended av (candidate_ids_of self reads) reads top_n recs.
Proof.
  intros self uid av reads top_n recs H.
  unfold Simple.recommend_for_user in H.
  destruct reads as [| r0 reads'].
  { inversion H. apply empty_contract. intros C. exfalso. apply C.
    reflexivity. }
  remember (r0 :: reads') as reads.
  inv_bind H. rename x into user_vecs.
  apply simple_read_vectors_spec in E.
  destruct user_vecs as [| v0 vs].
  { inversion H. apply empty_contract. intros C.
    apply Forall2_nil_r in E. contradiction. }
  inv_bind H. inv_bind H. rename x0 into cands.
  apply simple_candidates_spec in E1. destruct E1 as [Hids _].
  destruct cands as [| c cands].
  { inversion H. apply empty_contract. intros _.
    unfold candidate_ids_of. rewrite <- Hids. reflexivity. }
  inv_bind H. inv_bind H. inversion H; subst recs.
  apply ranked_contract.
  apply simple_records_ids in E2. rewrite E2.
  apply cosine_similarity_ok in E1. destruct E1 as [-> _].
  rewrite map_fst_combine by (rewrite !length_map; reflexivity).
  exact Hids.
Qed.

Lemma advanced_contract : forall self uid av reads top_n recs,
  Advanced.recommend_for_user self uid av reads top_n = Ok recs ->
  ranking_contract_amended av (candidate_ids_of (base self) reads)
                           reads top_n recs.
Proof.
  intros self uid av reads top_n recs H.
  unfold Advanced.recommend_for_user in H.
  destruct reads as [| r0 reads'].
  { inversion H. apply empty_contract. intros C. exfalso. apply C.
    reflexivity. }
  remember (r0 :: reads') as reads.
  inv_bind H. destruct x as [user_vecs user_clusters].
  apply advanced_read_history_spec in E. destruct E as [E _].
  destruct user_vecs as [| v0 vs].
  { inversion H. apply empty_contract. intros C.
    apply Forall2_nil_r in E. contradiction. }
  inv_bind H. inv_bind H. rename x0 into cands.
  apply advanced_candidates_spec in E1. destruct E1 as [Hids _].
  destruct cands as [| c cands].
  { inversion H. apply empty_contract. intros _.
    unfold candidate_ids_of. rewrite <- Hids. reflexivity. }
  inv_bind H. inv_bind H. inv_bind H. inversion H; subst recs.
  apply ranked_contract.
  apply advanced_records_ids in E3. rewrite E3.
  apply cosine_similarity_ok in E1. destruct E1 as [-> _].
  apply mapM_length in E2.
  rewrite <- map_map with (f := fst) (g := fst).
  rewrite !map_fst_combine; [exact Hids | |].
  - rewrite !length_map. reflexivity.
  - rewrite length_combine, E2, length_combine, !length_map. lia.
Qed.

End Contract.

(** C2 (as amended). For both strategies, every corpus, read list and
    [top_n], a returned list is sorted by score descending with ties in
    candidate enumeration order and contains no read id; for
    [top_n >= 0] its length is at most [min top_n candidateCount]; and
    when some read id is known to the corpus and at most [top_n]
    candidates exist, it consists of all candidates. *)
Theorem C2_ranking_contract :
  forall (pf : Platform) (simple : BaseRecommender)
         (adv : AdvancedRecommender) uid av reads top_n,
    (forall recs,
        Simple.recommend_for_user simple uid av reads top_n = Ok recs ->
        ranking_contract_amended av (candidate_ids_of simple reads)
                                 reads top_n recs) /\
    (forall recs,
        Advanced.recommend_for_user adv uid av reads top_n = Ok recs ->
        ranking_contract_amended av (candidate_ids_of (base adv) reads)
                                 reads top_n recs).
Proof.
  intros pf simple adv uid av reads top_n. split; intros recs H.
  - eapply simple_contract; eauto.
  - eapply advanced_contract; eauto.
Qed.

Lemma C2_ranking_contract_witness :
  ranking_contract_amended Examples.ab_corpus
    (candidate_ids_of Examples.ab ["a"%string]) ["a"%string] 5
    [Examples.b_simple] /\
  ranking_contract_amended Examples.ab_corpus
    (candidate_ids_of Examples.ab ["a"%string]) ["a"%string] 5
    [Examples.b_advanced (3000 # 10000) (10000 # 10000) (0 # 10000)].
Proof.
  split.
  - apply (proj1 (C2_ranking_contract Examples.platform Examples.ab
                    (Examples.advanced Examples.ab (3 # 10) (2 # 10))
                    "u1"%string Examples.ab_corpus ["a"%string] 5)).
    reflexivity.
  - apply (proj2 (C2_ranking_contract Examples.platform Examples.ab
                    (Examples.advanced Examples.ab (3 # 10) (2 # 10))
                    "u1"%string Examples.ab_corpus ["a"%string] 5)).
    reflexivity.
Defined.

(** The contract as the specification words it fails in two ways: an
    empty read list returns nothing although both articles are
    candidates and [top_n = 5] exceeds their number; and for
    [top_n = -1] no length can be at most [min top_n candidateCount]. *)
Lemma C2_counterexample :
  (exists recs,
      Simple.recommend_for_user (pf := Examples.platform) Examples.ab
        "u1"%string Examples.ab_corpus [] 5 = Ok recs /\
      Advanced.recommend_for_user (pf := Examples.platform)
        (Examples.advanced Examples.ab (3 # 10) (2 # 10))
        "u1"%string Examples.ab_corpus [] 5 = Ok recs /\
      ~ ranking_contract (candidate_ids_of Examples.ab []) [] 5 recs) /\
  (exists recs,
      Simple.recommend_for_user (pf := Examples.platform) Examples.ab
        "u1"%string Examples.ab_corpus ["a"%string] (-1) = Ok recs /\
      ~ ranking_contract (candidate_ids_of Examples.ab ["a"%string])
                         ["a"%string] (-1) recs).
Proof.
  split.
  - exists []. split; [reflexivity |]. split; [reflexivity |].
    intros (_ & _ & _ & _ & Hall).
    assert (Hp : Permutation (@nil string) ["a"%string; "b"%string]).
    { apply Hall. vm_compute. reflexivity. }
    apply Permutation_nil in Hp. discriminate.
  - exists []. split; [reflexivity |].
    intros (Hlen & _). vm_compute in Hlen. apply Hlen. reflexivity.
Qed.

(* ================================================================= *)
(** * The score of the advanced recommender *)

Lemma Forall2_In_r : forall (A B : Type) (P : A -> B -> Prop) l ys y,
  Forall2 P l ys -> In y ys -> exists x, In x l /\ P x y.
Proof.
  intros A B P l ys y H. induction H as [| x y' l ys Hxy _ IH]; simpl.
  - tauto.
  - intros [<- | Hy]; [eauto |].
    destruct (IH Hy) as (x' & Hx' & HP). eauto.
Qed.

Lemma Forall2_map_left : forall (A B C : Type) (f : A -> B)
    (P : B -> C -> Prop) l ys,
  Forall2 P (map f l) ys -> Forall2 (fun a y => P (f a) y) l ys.
Proof.
  induction l as [| a l IH]; simpl; intros ys H; inversion H; subst;
    constructor; auto.
Qed.

Lemma combine_map_same : forall (A B C : Type) (f : A -> B) (g : A -> C) l,
  combine (map f l) (map g l) = map (fun a => (f a, g a)) l.
Proof.
  induction l as [| a l IH]; simpl; f_equal; auto.
Qed.

Lemma in_combine_Forall2 : forall (A B C : Type) (f : A -> B)
    (P : A -> C -> Prop) l ys p,
  Forall2 P l ys ->
  In p (combine (map f l) ys) ->
  exists a y, In a l /\ P a y /\ p = (f a, y).
Proof.
  intros A B C f P l ys p H. induction H as [| a y l ys Hay _ IH]; simpl.
  - tauto.
  - intros [<- | Hp]; [eauto 6 |].
    destruct (IH Hp) as (a' & y' & Ha & HP & ->). eauto 7.
Qed.

Lemma slice_to_incl : forall (A : Type) (l : list A) n x,
  In x (slice_to l n) -> In x l.
Proof.
  intros A l n x H. destruct (slice_to_firstn A l n) as (k & Hk).
  rewrite Hk in H. eapply firstn_incl; eauto.
Qed.

(** Where a returned record comes from: the profile, the candidate's
    vector and the three signals. *)
Lemma advanced_record_origin :
  forall (pf : Platform) (self : AdvancedRecommender) uid av reads top_n
         recs r,
    Advanced.recommend_for_user self uid av reads top_n = Ok recs ->
    In r recs ->
    exists v0 vs profile a v fresh,
      Advanced.read_history self av reads =
        Ok (v0 :: vs, cluster_history_of av reads) /\
      np_mean_axis0 v0 vs = Ok profile /\
      dict_get (article_id r) av = Some a /\
      _get_article_vector (base self) (article_id r) = Ok v /\
      Advanced._calculate_time_decay self (article_id r) = Ok fresh /\
      let sem := cos_row profile v in
      let top :=
        Advanced._calculate_cluster_similarity
          (cluster_history_of av reads) (Advanced.cluster_label a) in
      let final :=
        sem * (1 - diversity_weight self - cluster_weight self)
        + fresh * diversity_weight self
        + top * cluster_weight self in
      Advanced.final_score self sem fresh top = final /\
      score r = round4 final /\
      similarity_components r =
        Some {| semantic := round4 sem;
                freshness := round4 fresh;
                topic := round4 top |}.
Proof.
  intros pf self uid av reads top_n recs r H Hr.
  unfold Advanced.recommend_for_user in H.
  destruct reads as [| r0 reads']; [inversion H; subst; contradiction |].
  remember (r0 :: reads') as reads.
  inv_bind H. destruct x as [user_vecs user_clusters].
  pose proof (advanced_read_history_spec _ _ _ _ _ E) as [_ Hc].
  subst user_clusters.
  destruct user_vecs as [| v0 vs]; [inversion H; subst; contradiction |].
  inv_bind H. rename x into profile.
  inv_bind H. rename x into cands.
  apply advanced_candidates_spec in E1. destruct E1 as [_ Hcands].
  destruct cands as [| c0 cands']; [inversion H; subst; contradiction |].
  remember (c0 :: cands') as cands.
  inv_bind H. inv_bind H. inv_bind H. inversion H; subst recs. clear H.
  apply slice_to_incl in Hr.
  eapply Permutation_in in Hr; [| apply sort_desc_perm].
  apply cosine_similarity_ok in E1. destruct E1 as [-> _].
  apply mapM_Forall2 in E2, E3.
  rewrite combine_map_same in E2. apply Forall2_map_left in E2.
  destruct (Forall2_In_r _ _ _ _ _ _ E3 Hr) as (p & Hp & Hrec).
  rewrite map_map, combine_map_same in Hp.
  destruct (in_combine_Forall2 _ _ _ _ _ _ _ _ E2 Hp)
    as (c & sig & Hc & Hsig & ->).
  destruct sig as [td cs].
  apply advanced_record_ok in Hrec.
  destruct Hrec as (Hid & Hscore & Hcomp & _).
  rewrite Forall_forall in Hcands.
  destruct (Hcands c Hc) as (Hget & a & Ha & Hlabel).
  unfold Advanced.signals in Hsig. inv_bind Hsig.
  inversion Hsig; subst td cs. rewrite Hlabel in *.
  exists v0, vs, profile, a, (snd (fst c)), x.
  rewrite Hid. repeat split; auto.
Qed.

(** C3. Every record returned by the advanced recommender belongs to a
    candidate whose semantic, freshness and topic signals are combined
    as [semantic * (1 - dw - cw) + freshness * dw + topic * cw]; the
    record's score is that value rounded to 4 decimals, and the record
    carries the three signals, each rounded to 4 decimals. *)
Theorem C3_advanced_score_breakdown :
  forall (pf : Platform) (self : AdvancedRecommender) uid av reads top_n
         recs r,
    Advanced.recommend_for_user self uid av reads top_n = Ok recs ->
    In r recs ->
    exists v0 vs profile a v fresh,
      Advanced.read_history self av reads =
        Ok (v0 :: vs, cluster_history_of av reads) /\
      np_mean_axis0 v0 vs = Ok profile /\
      dict_get (article_id r) av = Some a /\
      _get_article_vector (base self) (article_id r) = Ok v /\
      Advanced._calculate_time_decay self (article_id r) = Ok fresh /\
      let sem := cos_row profile v in
      let top :=
        Advanced._calculate_cluster_similarity
          (cluster_history_of av reads) (Advanced.cluster_label a) in
      let final :=
        sem * (1 - diversity_weight self - cluster_weight self)
        + fresh * diversity_weight self
        + top * cluster_weight self in
      Advanced.final_score self sem fresh top = final /\
      score r = round4 final /\
      similarity_components r =
        Some {| semantic := round4 sem;
                freshness := round4 fresh;
                topic := round4 top |}.
Proof. exact advanced_record_origin. Qed.

Lemma C3_advanced_score_breakdown_witness :
  exists v0 vs profile a v fresh,
    Advanced.read_history (Examples.advanced Examples.ab (3 # 10) (2 # 10))
      Examples.ab_corpus ["a"%string] =
      Ok (v0 :: vs, cluster_history_of Examples.ab_corpus ["a"%string]) /\
    np_mean_axis0 v0 vs = Ok profile /\
    dict_get "b"%string Examples.ab_corpus = Some a /\
    _get_article_vector Examples.ab "b"%string = Ok v /\
    Advanced._calculate_time_decay (pf := Examples.platform)
      (Examples.advanced Examples.ab (3 # 10) (2 # 10)) "b"%string =
      Ok fresh /\
    let sem := cos_row (pf := Examples.platform) profile v in
    let top :=
      Advanced._calculate_cluster_similarity
        (cluster_history_of Examples.ab_corpus ["a"%string])
        (Advanced.cluster_label a) in
    let final := sem * (1 - (3 # 10) - (2 # 10)) + fresh * (3 # 10)
                 + top * (2 # 10) in
    Advanced.final_score (Examples.advanced Examples.ab (3 # 10) (2 # 10))
                         sem fresh top = final /\
    3000 # 10000 = round4 final /\
    Some {| semantic := 0 # 10000; freshness := 10000 # 10000;
            topic := 0 # 10000 |} =
    Some {| semantic := round4 sem; freshness := round4 fresh;
            topic := round4 top |}.
Proof.
  exact (C3_advanced_score_breakdown Examples.platform
           (Examples.advanced Examples.ab (3 # 10) (2 # 10))
           "u1"%string Examples.ab_corpus ["a"%string] 5
           [Examples.b_advanced (3000 # 10000) (10000 # 10000) (0 # 10000)]
           (Examples.b_advanced (3000 # 10000) (10000 # 10000) (0 # 10000))
           eq_refl (or_introl eq_refl)).
Defined.
(* ================================================================= *)
(** * Empty outcomes *)

Section EmptyOutcomes.
Context {pf : Platform}.

Lemma simple_read_vectors_unknown : forall self av reads,
  retained av reads = [] -> Simple.read_vectors self av reads = Ok [].
Proof.
  induction reads as [| aid reads IH]; simpl; intros H; auto.
  destruct (dict_mem aid av); [discriminate | auto].
Qed.

Lemma advanced_read_history_unknown : forall self av reads,
  retained av reads = [] ->
  Advanced.read_history self av reads = Ok ([], []).
Proof.
  induction reads as [| aid reads IH]; simpl; intros H; auto.
  unfold dict_mem in H. destruct (dict_get aid av); [discriminate | auto].
Qed.

Lemma simple_candidates_none : forall self ids reads,
  filter (fun aid => negb (str_in aid reads)) ids = [] ->
  Simple.candidates self ids reads = Ok [].
Proof.
  induction ids as [| aid ids IH]; simpl; intros reads H; auto.
  destruct (str_in aid reads); simpl in H; [auto | discriminate].
Qed.

Lemma advanced_candidates_none : forall self av ids reads,
  filter (fun aid => negb (str_in aid reads)) ids = [] ->
  Advanced.candidates self av ids reads = Ok [].
Proof.
  induction ids as [| aid ids IH]; simpl; intros reads H; auto.
  destruct (str_in aid reads); simpl in H; [auto | discriminate].
Qed.

(** An empty read list and a read list without known ids give the empty
    list in both strategies, whatever the corpus. *)
Lemma empty_or_unknown_reads : forall simple adv uid av reads top_n,
  retained av reads = [] ->
  Simple.recommend_for_user simple uid av reads top_n = Ok [] /\
  Advanced.recommend_for_user adv uid av reads top_n = Ok [].
Proof.
  intros simple adv uid av reads top_n H.
  unfold Simple.recommend_for_user, Advanced.recommend_for_user.
  destruct reads as [| r0 reads']; [split; reflexivity |].
  rewrite simple_read_vectors_unknown, advanced_read_history_unknown
    by assumption.
  split; reflexivity.
Qed.

(** An empty candidate set gives the empty list when the vectors of the
    read articles can be averaged. *)
Lemma no_candidates_simple : forall self uid av reads top_n v0 vs profile,
  candidate_ids_of self reads = [] ->
  Simple.read_vectors self av reads = Ok (v0 :: vs) ->
  np_mean_axis0 v0 vs = Ok profile ->
  Simple.recommend_for_user self uid av reads top_n = Ok [].
Proof.
  intros self uid av reads top_n v0 vs profile Hc Hr Hm.
  unfold Simple.recommend_for_user.
  destruct reads as [| r0 reads']; [reflexivity |].
  rewrite Hr. simpl. rewrite Hm. simpl.
  rewrite simple_candidates_none by exact Hc. reflexivity.
Qed.

Lemma no_candidates_advanced :
  forall self uid av reads top_n v0 vs cs profile,
  candidate_ids_of (base self) reads = [] ->
  Advanced.read_history self av reads = Ok (v0 :: vs, cs) ->
  np_mean_axis0 v0 vs = Ok profile ->
  Advanced.recommend_for_user self uid av reads top_n = Ok [].
Proof.
  intros self uid av reads top_n v0 vs cs profile Hc Hr Hm.
  unfold Advanced.recommend_for_user.
  destruct reads as [| r0 reads']; [reflexivity |].
  rewrite Hr. simpl. rewrite Hm. simpl.
  rewrite advanced_candidates_none by exact Hc. reflexivity.
Qed.

(** On the recommender's own corpus every read vector is found. *)
Lemma read_vectors_own_corpus : forall self reads,
  exists vs,
    Simple.read_vectors self (article_vectors self) reads = Ok vs /\
    Forall (fun v => exists aid a,
              dict_get aid (article_vectors self) = Some a /\ vector a = v)
           vs.
Proof.
  intros self. induction reads as [| aid reads IH]; simpl.
  - exists []. split; [reflexivity | constructor].
  - destruct IH as (vs & Hvs & HF).
    unfold dict_mem, _get_article_vector, dict_item.
    destruct (dict_get aid (article_vectors self)) as [a |] eqn:E.
    + simpl. rewrite Hvs. simpl. exists (vector a :: vs).
      split; [reflexivity |]. constructor; eauto.
    + exists vs. split; assumption.
Qed.

Lemma np_mean_axis0_uniform : forall d v0 rest,
  Forall (fun v => length v = d) (v0 :: rest) ->
  exists profile, np_mean_axis0 v0 rest = Ok profile.
Proof.
  intros d v0 rest H. inversion H as [| ? ? H0 Hrest]; subst.
  unfold np_mean_axis0.
  assert (Hs : same_length (length v0) rest = true).
  { unfold same_length. apply forallb_forall. intros r Hr.
    rewrite Forall_forall in Hrest. apply Nat.eqb_eq. auto. }
  rewrite Hs. eauto.
Qed.

(** When all vectors of the corpus have one length, an empty candidate
    set gives the empty list in both strategies. *)
Lemma no_candidates_uniform_corpus : forall adv uid reads top_n d,
  (forall aid a, dict_get aid (article_vectors (base adv)) = Some a ->
                 length (vector a) = d) ->
  candidate_ids_of (base adv) reads = [] ->
  Simple.recommend_for_user (base adv) uid (article_vectors (base adv))
                            reads top_n = Ok [] /\
  Advanced.recommend_for_user adv uid (article_vectors (base adv))
                              reads top_n = Ok [].
Proof.
  intros adv uid reads top_n d Hd Hc.
  destruct (read_vectors_own_corpus (base adv) reads) as (vs & Hvs & HF).
  destruct vs as [| v0 rest].
  - apply empty_or_unknown_reads.
    apply simple_read_vectors_spec in Hvs.
    eapply Forall2_nil_r; eauto.
  - destruct (np_mean_axis0_uniform d v0 rest) as (profile & Hm).
    { eapply Forall_impl; [| exact HF].
      intros v (aid & a & Ha & <-). eauto. }
    split.
    + eapply no_candidates_simple; eauto.
    + eapply no_candidates_advanced; eauto.
      apply read_vectors_history. exact Hvs.
Qed.

End EmptyOutcomes.

(** C4. A corpus whose vectors have lengths 2, 1 and 3 loads without
    error; when its reader has read all three articles the candidate set
    is empty, and both strategies raise [ValueError] from the mean of
    the read vectors instead of returning the empty list. *)
Theorem C4_empty_candidates_raise_on_mixed_lengths :
  _load_data Examples.mixed_embeddings (user_profiles Examples.mixed) =
    Ok Examples.mixed /\
  candidate_ids_of Examples.mixed ["a"; "b"; "c"]%string = [] /\
  Simple.recommend_for_user (pf := Examples.platform) Examples.mixed
    "u2"%string Examples.mixed_corpus ["a"; "b"; "c"]%string 5 =
    Raise ValueError /\
  Advanced.recommend_for_user (pf := Examples.platform)
    (Examples.advanced Examples.mixed (3 # 10) (2 # 10))
    "u2"%string Examples.mixed_corpus ["a"; "b"; "c"]%string 5 =
    Raise ValueError.
Proof. repeat split. Qed.

(* ================================================================= *)
(** * The topic signal *)

Lemma count_occ_absent : forall (l : list Z) x,
  ~ In x l -> count_occ Z.eq_dec l x = O.
Proof. intros l x H. apply count_occ_not_In. exact H. Qed.

Lemma candidate_topic_spec : forall history a,
  (cluster a <> None \/ ~ In (-1)%Z history) ->
  candidate_topic history a == topic_spec history (cluster a).
Proof.
  intros history a H.
  unfold candidate_topic, Advanced._calculate_cluster_similarity,
    Advanced.cluster_label, topic_spec.
  destruct history as [| c0 history']; [reflexivity |].
  destruct (cluster a) as [c |]; [reflexivity |].
  destruct H as [H | H]; [congruence |].
  rewrite count_occ_absent by exact H. reflexivity.
Qed.

(** C6 (as amended). For every record returned by the advanced
    recommender, the topic component is the rounding of the cluster
    similarity of the candidate's label, or of [-1] when it has none;
    that value equals [count / len] over the cluster history for a
    labelled candidate, and 0 when the history is empty, or when the
    candidate has no label and [-1] does not occur in the history. *)
Theorem C6_topic_component :
  forall (pf : Platform) (self : AdvancedRecommender) uid av reads top_n
         recs r,
    Advanced.recommend_for_user self uid av reads top_n = Ok recs ->
    In r recs ->
    exists a sc,
      dict_get (article_id r) av = Some a /\
      similarity_components r = Some sc /\
      topic sc = round4 (candidate_topic (cluster_history_of av reads) a) /\
      (cluster a <> None \/ ~ In (-1)%Z (cluster_history_of av reads) ->
       candidate_topic (cluster_history_of av reads) a ==
       topic_spec (cluster_history_of av reads) (cluster a)).
Proof.
  intros pf self uid av reads top_n recs r H Hr.
  destruct (advanced_record_origin pf self uid av reads top_n recs r H Hr)
    as (v0 & vs & profile & a & v & fresh & _ & _ & Ha & _ & _ & Hrest).
  cbv zeta in Hrest. destruct Hrest as (_ & _ & Hsc).
  exists a. eexists. split; [exact Ha |]. split; [exact Hsc |].
  split; [reflexivity |].
  apply candidate_topic_spec.
Qed.

Lemma C6_topic_component_witness :
  exists a sc,
    dict_get "b"%string Examples.ab_corpus = Some a /\
    Some {| semantic := 0 # 10000; freshness := 10000 # 10000;
            topic := 0 # 10000 |} = Some sc /\
    topic sc =
      round4 (candidate_topic
                (cluster_history_of Examples.ab_corpus ["a"%string]) a) /\
    (cluster a <> None \/
     ~ In (-1)%Z (cluster_history_of Examples.ab_corpus ["a"%string]) ->
     candidate_topic (cluster_history_of Examples.ab_corpus ["a"%string]) a ==
     topic_spec (cluster_history_of Examples.ab_corpus ["a"%string])
                (cluster a)).
Proof.
  exact (C6_topic_component Examples.platform
           (Examples.advanced Examples.ab (3 # 10) (2 # 10))
           "u1"%string Examples.ab_corpus ["a"%string] 5
           [Examples.b_advanced (3000 # 10000) (10000 # 10000) (0 # 10000)]
           (Examples.b_advanced (3000 # 10000) (10000 # 10000) (0 # 10000))
           eq_refl (or_introl eq_refl)).
Defined.

(** A read article labelled [-1] and a candidate without label: the
    candidate's topic signal is 1, not 0. *)
Lemma C6_counterexample :
  exists r a sc,
    Advanced.recommend_for_user (pf := Examples.platform)
      (Examples.advanced Examples.noise 0 1)
      "u1"%string Examples.noise_corpus ["a"%string] 5 = Ok [r] /\
    dict_get (article_id r) Examples.noise_corpus = Some a /\
    cluster a = None /\
    similarity_components r = Some sc /\
    topic sc = 10000 # 10000 /\
    ~ candidate_topic (cluster_history_of Examples.noise_corpus ["a"%string])
                      a ==
      topic_spec (cluster_history_of Examples.noise_corpus ["a"%string])
                 (cluster a).
Proof.
  eexists. eexists. eexists.
  split; [reflexivity |]. split; [reflexivity |]. split; [reflexivity |].
  split; [reflexivity |]. split; [reflexivity |].
  vm_compute. discriminate.
Qed.

(* ================================================================= *)
(** * Batch generation *)

Section Batch.
Context {Self : Type}.
Context (recommend_for_user :
           Self -> string -> Dict Article -> list string -> Z ->
           result (list Recommendation)).
Context (base_of : Self -> BaseRecommender).

(** The entry of a user after the loop: the user's own result when the
    call returned, the entry before the loop otherwise. *)
Lemma generate_loop_get : forall self top_n profiles acc u,
  NoDup (dict_keys profiles) ->
  dict_get u (generate_loop recommend_for_user base_of self profiles
                            top_n acc) =
  match dict_get u profiles with
  | Some reads =>
      match recommend_for_user self u (article_vectors (base_of self))
                               reads top_n with
      | Ok recs => Some recs
      | Raise _ => dict_get u acc
      end
  | None => dict_get u acc
  end.
Proof.
  intros self top_n profiles.
  induction profiles as [| [k reads] profiles IH]; simpl; intros acc u Hnd.
  - reflexivity.
  - inversion Hnd as [| ? ? Hk Hnd']; subst.
    destruct (String.eqb u k) eqn:E.
    + apply String.eqb_eq in E. subst k.
      destruct (recommend_for_user self u _ reads top_n) as [recs | e];
        rewrite IH by assumption;
        rewrite (dict_get_not_in_keys _ _ _ Hk); auto.
      apply dict_get_set_same.
    + apply String.eqb_neq in E.
      destruct (recommend_for_user self k _ reads top_n) as [recs | e];
        rewrite IH by assumption; auto.
      rewrite dict_get_set_other by assumption. reflexivity.
Qed.

Lemma generate_all_get : forall self top_n u,
  NoDup (dict_keys (user_profiles (base_of self))) ->
  dict_get u (generate_all_recommendations recommend_for_user base_of
                                           self top_n) =
  match dict_get u (user_profiles (base_of self)) with
  | Some reads =>
      match recommend_for_user self u (article_vectors (base_of self))
                               reads top_n with
      | Ok recs => Some recs
      | Raise _ => None
      end
  | None => None
  end.
Proof.
  intros self top_n u Hnd. unfold generate_all_recommendations.
  rewrite generate_loop_get by assumption.
  destruct (dict_get u (user_profiles (base_of self))); auto.
Qed.

End Batch.

(** C7 (as amended). For both strategies and user profiles with distinct
    ids, the batch returns a mapping in which every user's entry is
    decided by that user's own call: the returned list when the call
    returns, no entry when it raises. A user whose read list has no id
    known to the corpus is present, with the empty list. *)
Theorem C7_batch_isolates_failures :
  forall (pf : Platform) (simple : BaseRecommender)
         (adv : AdvancedRecommender) top_n u reads,
    (NoDup (dict_keys (user_profiles simple)) ->
     dict_get u (user_profiles simple) = Some reads ->
     let out := generate_all_recommendations Simple.recommend_for_user
                  (fun s => s) simple top_n in
     (forall recs,
         Simple.recommend_for_user simple u (article_vectors simple)
                                   reads top_n = Ok recs ->
         dict_get u out = Some recs) /\
     (forall e,
         Simple.recommend_for_user simple u (article_vectors simple)
                                   reads top_n = Raise e ->
         dict_get u out = None) /\
     (retained (article_vectors simple) reads = [] ->
      dict_get u out = Some [])) /\
    (NoDup (dict_keys (user_profiles (base adv))) ->
     dict_get u (user_profiles (base adv)) = Some reads ->
     let out := generate_all_recommendations Advanced.recommend_for_user
                  base adv top_n in
     (forall recs,
         Advanced.recommend_for_user adv u (article_vectors (base adv))
                                     reads top_n = Ok recs ->
         dict_get u out = Some recs) /\
     (forall e,
         Advanced.recommend_for_user adv u (article_vectors (base adv))
                                     reads top_n = Raise e ->
         dict_get u out = None) /\
     (retained (article_vectors (base adv)) reads = [] ->
      dict_get u out = Some [])).
Proof.
  intros pf simple adv top_n u reads. split; intros Hnd Hu out; subst out.
  - assert (Hout := generate_all_get Simple.recommend_for_user
                      (fun s => s) simple top_n u Hnd).
    cbv beta in Hout. rewrite Hu in Hout. rewrite Hout. repeat split.
    + intros recs H. rewrite H. reflexivity.
    + intros e H. rewrite H. reflexivity.
    + intros H.
      destruct (empty_or_unknown_reads simple adv u (article_vectors simple)
                  reads top_n H) as [Hs _].
      rewrite Hs. reflexivity.
  - assert (Hout := generate_all_get Advanced.recommend_for_user
                      base adv top_n u Hnd).
    rewrite Hu in Hout. rewrite Hout. repeat split.
    + intros recs H. rewrite H. reflexivity.
    + intros e H. rewrite H. reflexivity.
    + intros H.
      destruct (empty_or_unknown_reads simple adv u
                  (article_vectors (base adv)) reads top_n H) as [_ Ha].
      rewrite Ha. reflexivity.
Qed.

Lemma NoDup_three : forall a b c : string,
  a <> b -> a <> c -> b <> c -> NoDup [a; b; c].
Proof.
  intros a b c Hab Hac Hbc. repeat constructor; simpl; intuition congruence.
Qed.

Lemma C7_batch_isolates_failures_witness :
  dict_get "u1"%string
    (generate_all_recommendations
       (Simple.recommend_for_user (pf := Examples.platform))
       (fun s => s) Examples.ab 5) = Some [Examples.b_simple] /\
  dict_get "u2"%string
    (generate_all_recommendations
       (Advanced.recommend_for_user (pf := Examples.platform))
       base (Examples.advanced Examples.mixed (3 # 10) (2 # 10)) 5) = None.
Proof.
  split.
  - refine (proj1 (proj1 (C7_batch_isolates_failures Examples.platform
              Examples.ab (Examples.advanced Examples.mixed (3 # 10) (2 # 10))
              5 "u1"%string ["a"%string]) _ eq_refl)
              [Examples.b_simple] eq_refl).
    repeat constructor; simpl; intuition discriminate.
  - refine (proj1 (proj2 (proj2 (C7_batch_isolates_failures Examples.platform
              Examples.ab (Examples.advanced Examples.mixed (3 # 10) (2 # 10))
              5 "u2"%string ["a"; "b"; "c"]%string) _ eq_refl))
              ValueError eq_refl).
    apply NoDup_three; discriminate.
Defined.

(** The second profile of the example batch names only the unknown id
    ["zzz"]; its user is in the output of both strategies, with an empty
    list, and the batch also holds the first user's recommendation. *)
Lemma C7_counterexample :
  retained Examples.ab_corpus ["zzz"%string] = [] /\
  generate_all_recommendations
    (Simple.recommend_for_user (pf := Examples.platform))
    (fun s => s) Examples.ab 5 =
    [("u1"%string, [Examples.b_simple]); ("u2"%string, [])] /\
  dict_get "u2"%string
    (generate_all_recommendations
       (Advanced.recommend_for_user (pf := Examples.platform))
       base (Examples.advanced Examples.ab (3 # 10) (2 # 10)) 5) <> None.
Proof.
  split; [reflexivity |]. split; [reflexivity |].
  vm_compute. discriminate.
Qed.

(* ================================================================= *)
(** * Zero weights: the advanced scores are the simple scores *)

Lemma rint_comp : forall x y, x == y -> rint x = rint y.
Proof.
  intros x y H. unfold rint.
  rewrite (Qfloor_comp x y H).
  assert (Hc : Qcompare (x - inject_Z (Qfloor y)) (1 # 2) =
               Qcompare (y - inject_Z (Qfloor y)) (1 # 2)).
  { apply Qcompare_comp; [rewrite H |]; reflexivity. }
  rewrite Hc. reflexivity.
Qed.

Lemma round4_comp : forall x y, x == y -> round4 x = round4 y.
Proof.
  intros x y H. unfold round4. f_equal. apply rint_comp.
  rewrite H. reflexivity.
Qed.

Lemma final_score_zero_weights : forall self sem td cs,
  diversity_weight self == 0 -> cluster_weight self == 0 ->
  Advanced.final_score self sem td cs == sem.
Proof.
  intros self sem td cs Hd Hc. unfold Advanced.final_score.
  rewrite Hd, Hc. ring.
Qed.

Lemma dot_scaled : forall a b x y,
  dot (map (fun s => s / a) x) (map (fun s => s / b) y) ==
  dot x y * (/ a * / b).
Proof.
  intros a b. induction x as [| p x IH]; intros [| q y]; simpl;
    try ring.
  rewrite IH. unfold Qdiv. ring.
Qed.

Section ZeroWeights.
Context {pf : Platform}.

Lemma cos_row_orthogonal : forall x y, dot x y == 0 -> cos_row x y == 0.
Proof.
  intros x y H. unfold cos_row, normalize.
  rewrite dot_scaled, H. ring.
Qed.

Lemma read_history_simple : forall self av reads vs cs,
  Advanced.read_history self av reads = Ok (vs, cs) ->
  Simple.read_vectors (base self) av reads = Ok vs.
Proof.
  induction reads as [| aid reads IH]; simpl; intros vs cs H.
  - inversion H. reflexivity.
  - unfold dict_mem. destruct (dict_get aid av) as [a |]; [| eauto].
    inv_bind H. inv_bind H. destruct x0 as [vs' cs'].
    inversion H; subst. rewrite E. simpl.
    rewrite (IH _ _ E0). reflexivity.
Qed.

Lemma candidates_simple : forall self av ids reads cands,
  Advanced.candidates self av ids reads = Ok cands ->
  Simple.candidates (base self) ids reads = Ok (map fst cands).
Proof.
  induction ids as [| aid ids IH]; simpl; intros reads cands H.
  - inversion H. reflexivity.
  - destruct (str_in aid reads); [eauto |].
    inv_bind H. inv_bind H. inv_bind H. inversion H; subst.
    simpl. rewrite E, (IH _ _ E1). reflexivity.
Qed.

Lemma record_simple : forall self av aid sem td cs r,
  diversity_weight self == 0 -> cluster_weight self == 0 ->
  Advanced.record self av (aid, sem, (td, cs)) = Ok r ->
  Simple.record av (aid, sem) = Ok (simple_view r).
Proof.
  intros self av aid sem td cs r Hd Hc H.
  unfold Advanced.record, Simple.record in *.
  destruct (dict_item aid av) as [a | e]; simpl in *; [| discriminate].
  destruct (metadata a) as [m |]; [| discriminate].
  inversion H; subst. unfold simple_view; simpl.
  rewrite (round4_comp _ _ (final_score_zero_weights self sem td cs Hd Hc)).
  reflexivity.
Qed.

Lemma records_simple : forall self av,
  diversity_weight self == 0 -> cluster_weight self == 0 ->
  forall ps sigs recs,
    length sigs = length ps ->
    mapM (Advanced.record self av) (combine ps sigs) = Ok recs ->
    mapM (Simple.record av) ps = Ok (map simple_view recs).
Proof.
  intros self av Hd Hc.
  induction ps as [| [aid sem] ps IH]; intros [| [td cs] sigs] recs Hl H;
    cbn [combine mapM length] in *; try discriminate.
  - inversion H. reflexivity.
  - inv_bind H. inv_bind H. inversion H; subst.
    rewrite (record_simple _ _ _ _ _ _ _ Hd Hc E). cbn [bind].
    rewrite (IH sigs x0) by (auto; lia). reflexivity.
Qed.

Lemma zero_weights_simple : forall self uid av reads top_n recs,
  diversity_weight self == 0 -> cluster_weight self == 0 ->
  Advanced.recommend_for_user self uid av reads top_n = Ok recs ->
  Simple.recommend_for_user (base self) uid av reads top_n =
    Ok (map simple_view recs).
Proof.
  intros self uid av reads top_n recs Hd Hc H.
  unfold Advanced.recommend_for_user in H.
  unfold Simple.recommend_for_user.
  destruct reads as [| r0 reads']; [inversion H; reflexivity |].
  remember (r0 :: reads') as reads.
  inv_bind H. destruct x as [user_vecs user_clusters].
  rewrite (read_history_simple _ _ _ _ _ E). simpl.
  destruct user_vecs as [| v0 vs]; [inversion H; reflexivity |].
  inv_bind H. rewrite E0. simpl.
  inv_bind H. rename x0 into cands.
  rewrite (candidates_simple _ _ _ _ _ E1). simpl.
  destruct cands as [| c0 cands']; [inversion H; reflexivity |].
  remember (c0 :: cands') as cands.
  assert (Hne : map fst cands <> []) by (subst cands; discriminate).
  destruct (map fst cands) as [| p ps] eqn:Hm; [congruence |].
  rewrite <- Hm. clear Hne.
  inv_bind H. inv_bind H. inv_bind H. inversion H; subst recs. clear H.
  rewrite !map_map. rewrite E2. simpl.
  pose proof (cosine_similarity_ok _ _ _ E2) as [Hsim _].
  pose proof (mapM_length _ _ _ _ _ E3) as Hlen.
  rewrite (records_simple self av Hd Hc _ x1 x2); auto.
  - simpl. rewrite <- slice_to_map.
    rewrite (sort_desc_map _ _ simple_view score score); auto.
  - rewrite Hlen, !length_combine, Hsim, !length_map. lia.
Qed.

Lemma simple_on_ab : forall uid,
  Simple.recommend_for_user Examples.ab uid Examples.ab_corpus
                            ["a"%string] 5 =
  Ok [{| article_id := "b"%string; rec_title := "B"%string;
         rec_content := None; rec_url := EmptyString;
         score := round4 (cos_row (map (fun s => s / 1) [1; 0]) [0; 1]);
         similarity_components := None |}].
Proof. intros uid. reflexivity. Qed.

End ZeroWeights.

Section ZeroWeightsConverse.
Context {pf : Platform}.

Lemma time_decay_total : forall self aid,
  Qeq_bool (time_decay_days self) 0 = false ->
  exists fresh, Advanced._calculate_time_decay self aid = Ok fresh.
Proof.
  intros self aid H. unfold Advanced._calculate_time_decay.
  destruct (dict_get aid (article_vectors (base self))) as [a |]; eauto.
  destruct (metadata a) as [m |]; eauto.
  destruct (scraped_at m) as [s |]; eauto.
  destruct (days_old s) as [d |]; eauto.
  rewrite H. eauto.
Qed.

Lemma signals_total : forall self user_clusters l,
  Qeq_bool (time_decay_days self) 0 = false ->
  exists sigs, mapM (Advanced.signals self user_clusters) l = Ok sigs.
Proof.
  intros self user_clusters l H. apply mapM_total.
  intros [aid c] _. unfold Advanced.signals.
  destruct (time_decay_total self aid H) as (fresh & ->). simpl. eauto.
Qed.

Lemma simple_records_entries : forall av ps rs,
  mapM (Simple.record av) ps = Ok rs ->
  Forall (fun p => exists a, dict_get (fst p) av = Some a) ps.
Proof.
  intros av ps rs H. apply mapM_Forall2 in H.
  induction H as [| [aid sc] r ps rs Hr _ IH]; constructor; auto.
  apply simple_record_ok in Hr.
  destruct Hr as (_ & _ & _ & _ & a & m & Ha & _). simpl. eauto.
Qed.

Lemma candidates_advanced : forall self av ids reads cands,
  Simple.candidates (base self) ids reads = Ok cands ->
  Forall (fun aid => exists a, dict_get aid av = Some a) (map fst cands) ->
  exists cands',
    Advanced.candidates self av ids reads = Ok cands' /\
    map fst cands' = cands.
Proof.
  induction ids as [| aid ids IH]; simpl; intros reads cands H Hav.
  - inversion H. exists []. split; reflexivity.
  - destruct (str_in aid reads); [eauto |].
    inv_bind H. inv_bind H. inversion H; subst. simpl in Hav.
    inversion Hav as [| ? ? (a & Ha) Hav']; subst.
    destruct (IH _ _ E0 Hav') as (cands' & Hc & Hm).
    rewrite E. simpl. unfold dict_item. rewrite Ha. simpl.
    rewrite Hc. simpl. eexists. split; [reflexivity |].
    simpl. rewrite Hm. reflexivity.
Qed.

Lemma record_advanced : forall self av aid sem td cs r,
  diversity_weight self == 0 -> cluster_weight self == 0 ->
  Simple.record av (aid, sem) = Ok r ->
  exists r', Advanced.record self av (aid, sem, (td, cs)) = Ok r' /\
             simple_view r' = r.
Proof.
  intros self av aid sem td cs r Hd Hc H.
  unfold Advanced.record, Simple.record in *.
  destruct (dict_item aid av) as [a | e]; simpl in *; [| discriminate].
  destruct (metadata a) as [m |]; [| discriminate].
  inversion H; subst. eexists. split; [reflexivity |].
  unfold simple_view; simpl.
  rewrite (round4_comp _ _ (final_score_zero_weights self sem td cs Hd Hc)).
  reflexivity.
Qed.

Lemma records_advanced : forall self av,
  diversity_weight self == 0 -> cluster_weight self == 0 ->
  forall ps sigs rs,
    length sigs = length ps ->
    mapM (Simple.record av) ps = Ok rs ->
    exists ra,
      mapM (Advanced.record self av) (combine ps sigs) = Ok ra /\
      map simple_view ra = rs.
Proof.
  intros self av Hd Hc.
  induction ps as [| [aid sem] ps IH]; intros [| [td cs] sigs] rs Hl H;
    cbn [combine mapM length] in *; try discriminate.
  - inversion H. exists []. split; reflexivity.
  - inv_bind H. inv_bind H. inversion H; subst.
    destruct (record_advanced self av aid sem td cs x Hd Hc E)
      as (r' & Hr' & Hv).
    destruct (IH sigs x0) as (ra & Hra & Hm); auto.
    rewrite Hr'. cbn [bind]. rewrite Hra. cbn [bind].
    eexists. split; [reflexivity |]. simpl. rewrite Hv, Hm. reflexivity.
Qed.

Lemma zero_weights_advanced : forall self uid av reads top_n rs,
  diversity_weight self == 0 -> cluster_weight self == 0 ->
  Qeq_bool (time_decay_days self) 0 = false ->
  Simple.recommend_for_user (base self) uid av reads top_n = Ok rs ->
  exists ra,
    Advanced.recommend_for_user self uid av reads top_n = Ok ra /\
    map simple_view ra = rs.
Proof.
  intros self uid av reads top_n rs Hd Hc Ht H.
  unfold Simple.recommend_for_user in H.
  unfold Advanced.recommend_for_user.
  destruct reads as [| r0 reads'].
  { inversion H. exists []. split; reflexivity. }
  remember (r0 :: reads') as reads.
  inv_bind H. rename x into user_vecs.
  rewrite (read_vectors_history _ _ _ _ E). simpl.
  destruct user_vecs as [| v0 vs].
  { inversion H. exists []. split; reflexivity. }
  inv_bind H. rewrite E0. simpl.
  inv_bind H. rename x0 into cands.
  destruct cands as [| c0 cands'].
  { inversion H; subst.
    destruct (candidates_advanced self av _ _ _ E1) as (cands' & Hc' & Hm);
      [constructor |].
    rewrite Hc'. simpl. destruct cands'; [| discriminate].
    exists []. split; reflexivity. }
  remember (c0 :: cands') as cands.
  inv_bind H. inv_bind H. inversion H; subst rs. clear H.
  pose proof (cosine_similarity_ok _ _ _ E2) as [Hsim _].
  assert (Hav : Forall (fun aid => exists a, dict_get aid av = Some a)
                       (map fst cands)).
  { apply simple_records_entries in E3.
    rewrite Forall_forall in *. intros aid Haid.
    apply in_map_iff in Haid. destruct Haid as (c & <- & Hcin).
    assert (Hin : In (fst c, cos_row x (snd c)) (combine (map fst cands) x0)).
    { rewrite Hsim, (map_map snd (cos_row x)), combine_map_same.
      apply in_map_iff. exists c. split; auto. }
    apply (E3 _ Hin). }
  destruct (candidates_advanced self av _ _ _ E1 Hav) as (acands & Hac & Hm).
  rewrite Hac. simpl.
  destruct acands as [| a0 acands'].
  { simpl in Hm. subst cands. discriminate. }
  remember (a0 :: acands') as acands.
  assert (Hvec : map (fun c => snd (fst c)) acands = map snd cands).
  { rewrite <- Hm, map_map. reflexivity. }
  assert (Hidm : map (fun c => fst (fst c)) acands = map fst cands).
  { rewrite <- Hm, map_map. reflexivity. }
  rewrite Hvec, E2. simpl.
  destruct (signals_total self (cluster_history_of av reads)
              (combine (map (fun c => fst (fst c)) acands) (map snd acands))
              Ht) as (sigs & Hsigs).
  rewrite Hsigs. simpl.
  destruct (records_advanced self av Hd Hc
              (combine (map fst cands) x0) sigs x1) as (ra & Hra & Hview);
    auto.
  { apply mapM_length in Hsigs.
    rewrite Hsigs, !length_combine, Hsim, !length_map.
    rewrite <- Hm, length_map. lia. }
  rewrite Hidm, Hra. simpl.
  eexists. split; [reflexivity |].
  rewrite <- slice_to_map.
  rewrite <- (sort_desc_map _ _ simple_view score score); auto.
  rewrite Hview. reflexivity.
Qed.

End ZeroWeightsConverse.

(** C9 (as amended). With [diversity_weight = 0], [cluster_weight = 0]
    and a [time_decay_days] that is not zero, the two strategies agree
    on every request: whenever the simple recommender returns, the
    advanced one returns the same records (ids, titles, urls and scores,
    in the same order); and whenever the advanced recommender returns,
    whatever [time_decay_days] is, the simple one returns the same
    records. On the two-article corpus with read list [a], both return
    the single article [b] with score 0. *)
Theorem C9_zero_weights_agree_with_simple :
  forall (pf : Platform),
    (forall (self : AdvancedRecommender) uid av reads top_n,
        diversity_weight self == 0 -> cluster_weight self == 0 ->
        (forall ra,
            Advanced.recommend_for_user self uid av reads top_n = Ok ra ->
            Simple.recommend_for_user (base self) uid av reads top_n =
              Ok (map simple_view ra)) /\
        (Qeq_bool (time_decay_days self) 0 = false ->
         forall rs,
           Simple.recommend_for_user (base self) uid av reads top_n = Ok rs ->
           exists ra,
             Advanced.recommend_for_user self uid av reads top_n = Ok ra /\
             map simple_view ra = rs)) /\
    (exists rs ra,
        Simple.recommend_for_user Examples.ab "u1"%string
          Examples.ab_corpus ["a"%string] 5 = Ok [rs] /\
        Advanced.recommend_for_user (Examples.advanced Examples.ab 0 0)
          "u1"%string Examples.ab_corpus ["a"%string] 5 = Ok [ra] /\
        article_id rs = "b"%string /\ article_id ra = "b"%string /\
        score rs == 0 /\ score ra = score rs).
Proof.
  intros pf. split.
  - intros self uid av reads top_n Hd Hc. split.
    + intros ra H. apply zero_weights_simple; assumption.
    + intros Ht rs H. apply zero_weights_advanced; assumption.
  - pose proof (simple_on_ab "u1"%string) as Hs.
    destruct (zero_weights_advanced (Examples.advanced Examples.ab 0 0)
                "u1"%string Examples.ab_corpus ["a"%string] 5 _
                (Qeq_refl 0) (Qeq_refl 0) eq_refl Hs) as (ra & Ha & Hv).
    destruct ra as [| r' [| r'' ra]]; try discriminate.
    pose proof (f_equal (map article_id) Hv) as Hid.
    pose proof (f_equal (map score) Hv) as Hsc.
    cbn [map simple_view article_id score] in Hid, Hsc.
    injection Hid as Hid. injection Hsc as Hsc.
    eexists. exists r'. split; [exact Hs |]. split; [exact Ha |].
    cbn [article_id score]. split; [reflexivity |]. split; [exact Hid |].
    split; [| exact Hsc].
    rewrite (round4_comp _ 0).
    + reflexivity.
    + apply cos_row_orthogonal. vm_compute. reflexivity.
Qed.

Lemma C9_zero_weights_agree_with_simple_witness :
  Simple.recommend_for_user (pf := Examples.platform)
    Examples.ab "u1"%string Examples.ab_corpus ["a"%string] 5 =
  Ok (map simple_view
          [Examples.b_advanced (0 # 10000) (10000 # 10000) (0 # 10000)]).
Proof.
  exact (proj1 (proj1 (C9_zero_weights_agree_with_simple Examples.platform)
                  (Examples.advanced Examples.ab 0 0)
                  "u1"%string Examples.ab_corpus ["a"%string] 5%Z
                  (Qeq_refl 0) (Qeq_refl 0))
               [Examples.b_advanced (0 # 10000) (10000 # 10000) (0 # 10000)]
               eq_refl).
Defined.

(** With [time_decay_days = 0] the agreement fails: the recommender is
    constructed, the simple strategy scores [b] with 0, and the advanced
    strategy with both weights 0 raises [ZeroDivisionError] on the same
    request. *)
Lemma C9_counterexample :
  let self := {| base := Examples.ab; diversity_weight := 0;
                 time_decay_days := 0; cluster_weight := 0 |} in
  Advanced.__init__ Examples.ab_embeddings Examples.ab_profiles 0 0 0 =
    Ok self /\
  Simple.recommend_for_user (pf := Examples.platform) (base self)
    "u1"%string Examples.ab_corpus ["a"%string] 5 = Ok [Examples.b_simple] /\
  Advanced.recommend_for_user (pf := Examples.platform) self
    "u1"%string Examples.ab_corpus ["a"%string] 5 = Raise ZeroDivisionError.
Proof. repeat split. Qed.

(* ================================================================= *)
(** * The profile of a read list with repeated ids *)

Lemma retained_count : forall av reads aid,
  dict_mem aid av = true ->
  count_occ string_dec (retained av reads) aid =
  count_occ string_dec reads aid.
Proof.
  intros av reads aid Hk. unfold retained.
  induction reads as [| r reads IH]; simpl; auto.
  destruct (string_dec r aid) as [-> | Hne].
  - rewrite Hk. simpl. destruct (string_dec aid aid); congruence.
  - destruct (dict_mem r av); simpl; auto.
    destruct (string_dec r aid); congruence.
Qed.

Lemma vec_add_length : forall x y,
  length y = length x -> length (vec_add x y) = length x.
Proof.
  induction x as [| a x IH]; intros [| b y] H; simpl in *;
    try discriminate; auto.
Qed.

Lemma vec_add_nth : forall x y k,
  length y = length x ->
  nth k (vec_add x y) 0 == nth k x 0 + nth k y 0.
Proof.
  induction x as [| a x IH]; intros [| b y] k H; simpl in *;
    try discriminate.
  - destruct k; ring.
  - destruct k; [ring | apply IH; lia].
Qed.

Lemma fold_vec_add : forall rows v0,
  Forall (fun r => length r = length v0) rows ->
  length (fold_left vec_add rows v0) = length v0 /\
  forall k, nth k (fold_left vec_add rows v0) 0 ==
            nth k v0 0 + Qsum (column k rows).
Proof.
  induction rows as [| r rows IH]; simpl; intros v0 H.
  - split; [reflexivity | intros k; ring].
  - inversion H as [| ? ? Hr Hrows]; subst.
    assert (Hl : length (vec_add v0 r) = length v0)
      by (apply vec_add_length; assumption).
    destruct (IH (vec_add v0 r)) as [IHl IHn].
    { rewrite Hl. exact Hrows. }
    split; [congruence |].
    intros k. rewrite IHn, vec_add_nth by assumption. ring.
Qed.

Lemma np_mean_axis0_ok : forall v0 rest profile,
  np_mean_axis0 v0 rest = Ok profile ->
  length profile = length v0 /\
  forall k, (k < length v0)%nat ->
    nth k profile 0 * inject_Z (Z.of_nat (length (v0 :: rest))) ==
    Qsum (column k (v0 :: rest)).
Proof.
  intros v0 rest profile H. unfold np_mean_axis0 in H.
  destruct (same_length (length v0) rest) eqn:Es; [| discriminate].
  inversion H; subst profile. clear H.
  assert (HF : Forall (fun r => length r = length v0) rest).
  { unfold same_length in Es. rewrite forallb_forall in Es.
    apply Forall_forall. intros r Hr. apply Nat.eqb_eq. auto. }
  destruct (fold_vec_add rest v0 HF) as [Hl Hn].
  split; [rewrite length_map; exact Hl |].
  intros k Hk.
  set (n := inject_Z (Z.of_nat (S (length rest)))).
  rewrite (nth_indep _ 0 (0 / n)) by (rewrite length_map; lia).
  rewrite (map_nth (fun s => s / n)).
  simpl length. fold n. rewrite Hn. simpl.
  field. unfold n. intro Hz.
  assert (Hpos : 0 < inject_Z (Z.of_nat (S (length rest)))).
  { rewrite <- (Zlt_Qlt 0). lia. }
  rewrite Hz in Hpos. revert Hpos. apply Qlt_irrefl.
Qed.

(* ================================================================= *)
(** * Maximal marginal relevance *)

Lemma argmax_from_spec : forall l best bestv i,
  exists v,
    ((argmax_from best bestv i l = best /\ v = bestv) \/
     (exists k, (k < length l)%nat /\
                argmax_from best bestv i l = (i + k)%nat /\
                v = nth k l 0)) /\
    bestv <= v /\
    forall k, (k < length l)%nat -> nth k l 0 <= v.
Proof.
  induction l as [| x l IH]; simpl; intros best bestv i.
  - exists bestv. split; [left; auto |]. split; [apply Qle_refl |].
    intros k Hk. lia.
  - destruct (Qle_bool x bestv) eqn:E.
    + apply Qle_bool_iff in E.
      destruct (IH best bestv (S i)) as (v & Hv & Hb & Hall).
      exists v. split; [| split; [exact Hb |]].
      * destruct Hv as [Hv | (k & Hk & Hr & Hv)]; [left; exact Hv |].
        right. exists (S k). repeat split; [lia | lia | exact Hv].
      * intros [| k] Hk; [eapply Qle_trans; eauto | apply Hall; lia].
    + apply Qle_bool_false in E.
      destruct (IH i x (S i)) as (v & Hv & Hb & Hall).
      exists v. split; [| split].
      * right. destruct Hv as [[Hr Hv] | (k & Hk & Hr & Hv)].
        -- exists O. repeat split; [lia | lia | exact Hv].
        -- exists (S k). repeat split; [lia | lia | exact Hv].
      * apply Qlt_le_weak. eapply Qlt_le_trans; eauto.
      * intros [| k] Hk; [exact Hb | apply Hall; lia].
Qed.

Lemma np_argmax_spec : forall l,
  l <> [] ->
  (np_argmax l < length l)%nat /\
  forall k, (k < length l)%nat -> nth k l 0 <= nth (np_argmax l) l 0.
Proof.
  intros [| x l] Hne; [congruence |]. simpl.
  destruct (argmax_from_spec l O x 1%nat) as (v & Hv & Hb & Hall).
  destruct Hv as [[Hr Hv] | (k & Hk & Hr & Hv)]; rewrite Hr; subst v.
  - split; [lia |]. intros [| j] Hj; [apply Qle_refl | apply Hall; lia].
  - simpl. split; [lia |].
    intros [| j] Hj; [exact Hb | apply Hall; lia].
Qed.

Lemma list_remove_ok : forall x l,
  In x l ->
  exists l', Advanced.list_remove x l = Ok l' /\ Permutation l (x :: l').
Proof.
  induction l as [| y l IH]; simpl; intros H; [tauto |].
  destruct (Nat.eqb x y) eqn:E.
  - apply Nat.eqb_eq in E. subst y. exists l. split; auto.
  - apply Nat.eqb_neq in E. destruct H as [H | H]; [congruence |].
    destruct (IH H) as (l' & Hl & Hp). rewrite Hl. simpl.
    exists (y :: l'). split; [reflexivity |].
    rewrite Hp. apply perm_swap.
Qed.

Lemma index_ok : forall (A : Type) (l : list A) i d,
  (i < length l)%nat -> Advanced.index l i = Ok (nth i l d).
Proof.
  intros A l i d H. unfold Advanced.index.
  rewrite (nth_error_nth' l d H). reflexivity.
Qed.

Lemma mapM_ok_map : forall (A B : Type) (f : A -> result B) (g : A -> B) l,
  (forall x, In x l -> f x = Ok (g x)) -> mapM f l = Ok (map g l).
Proof.
  induction l as [| x l IH]; simpl; intros H; auto.
  rewrite H by auto. simpl. rewrite IH by auto. reflexivity.
Qed.

Lemma nth_map_in_range : forall (A : Type) (f : A -> Q) l k d,
  (k < length l)%nat -> nth k (map f l) 0 = f (nth k l d).
Proof.
  intros A f l k d H.
  rewrite (nth_indep _ 0 (f d)) by (rewrite length_map; exact H).
  apply map_nth.
Qed.

Section MMR.
Context {pf : Platform}.
Context (query_vector : Vec) (candidate_vectors : list Vec).
Context (lambda_param : Q) (top_n : Z).

Local Abbreviation rel := (relevance_of query_vector candidate_vectors).
Local Abbreviation sim := (similarity_of candidate_vectors).

Hypothesis query_dim : length query_vector <> O.
Hypothesis rows_dim :
  Forall (fun r => length r = length query_vector) candidate_vectors.

Lemma cosine_similarity_rows : forall rows,
  rows <> [] ->
  Forall (fun r => length r = length query_vector) rows ->
  cosine_similarity query_vector rows = Ok (map (cos_row query_vector) rows).
Proof.
  intros rows Hne HF. unfold cosine_similarity.
  destruct rows as [| r rows]; [congruence |].
  destruct (Nat.eqb (length query_vector) 0) eqn:E0.
  { apply Nat.eqb_eq in E0. contradiction. }
  assert (Hs : same_length (length query_vector) (r :: rows) = true).
  { unfold same_length. apply forallb_forall. intros x Hx.
    rewrite Forall_forall in HF. apply Nat.eqb_eq. auto. }
  rewrite Hs. reflexivity.
Qed.

Lemma mmr_scores_objective : forall selected remaining,
  Advanced.mmr_scores candidate_vectors lambda_param
    (map (cos_row query_vector)
         (map (fun i => nth i candidate_vectors []) remaining))
    selected remaining =
  map (mmr_objective rel sim lambda_param selected)
      remaining.
Proof.
  intros selected remaining. unfold Advanced.mmr_scores, relevance_of, similarity_of, mmr_objective.
  rewrite map_map, combine_map_same, map_map. reflexivity.
Qed.

Lemma mmr_loop_greedy : forall fuel selected remaining,
  (length remaining <= fuel)%nat ->
  Forall (fun i => (i < length candidate_vectors)%nat) remaining ->
  exists final,
    Advanced.mmr_loop fuel query_vector candidate_vectors lambda_param top_n
             selected remaining = Ok final /\
    greedy rel sim lambda_param top_n
           selected remaining final /\
    Z.of_nat (length final) =
      Z.max (Z.of_nat (length selected))
            (Z.min top_n (Z.of_nat (length selected + length remaining))) /\
    (forall x, In x final -> In x selected \/ In x remaining) /\
    (NoDup (selected ++ remaining) -> NoDup final).
Proof.
  induction fuel as [| fuel IH]; intros selected remaining Hfuel Hrange.
  - destruct remaining; [| simpl in Hfuel; lia].
    exists selected. simpl. repeat split; auto.
    + apply greedy_exhausted.
    + rewrite Nat.add_0_r. lia.
    + rewrite app_nil_r. auto.
  - destruct remaining as [| r0 rs].
    { exists selected. simpl. repeat split; auto.
      + apply greedy_exhausted.
      + rewrite Nat.add_0_r. lia.
      + rewrite app_nil_r. auto. }
    cbn [Advanced.mmr_loop].
    remember (r0 :: rs) as remaining.
    assert (Hne : remaining <> []) by (subst; discriminate).
    destruct (Z.of_nat (length selected) <? top_n)%Z eqn:Elt.
    2:{ apply Z.ltb_ge in Elt. exists selected. repeat split; auto.
        - apply greedy_full. exact Elt.
        - lia.
        - intros Hnd. apply NoDup_app_remove_r in Hnd. exact Hnd. }
    apply Z.ltb_lt in Elt.
    rewrite (mapM_ok_map _ _ (Advanced.index candidate_vectors)
               (fun i => nth i candidate_vectors [])).
    2:{ intros x Hx. rewrite Forall_forall in Hrange.
        apply index_ok. auto. }
    cbn [bind].
    rewrite cosine_similarity_rows.
    2:{ destruct remaining; [congruence | discriminate]. }
    2:{ rewrite Forall_forall in *. intros r Hr.
        apply in_map_iff in Hr. destruct Hr as (i & <- & Hi).
        apply rows_dim. apply nth_In. auto. }
    cbn [bind]. rewrite mmr_scores_objective.
    set (scores := map (mmr_objective rel sim
                                      lambda_param selected) remaining).
    assert (Hsne : scores <> []).
    { unfold scores. destruct remaining; [congruence | discriminate]. }
    destruct (np_argmax_spec scores Hsne) as [Hlt Hmax].
    assert (Hlen : length scores = length remaining)
      by (unfold scores; apply length_map).
    rewrite Hlen in Hlt.
    rewrite (index_ok _ remaining _ O Hlt). cbn [bind].
    set (i := nth (np_argmax scores) remaining O).
    assert (Hin : In i remaining) by (apply nth_In; exact Hlt).
    destruct (list_remove_ok i remaining Hin) as (rem' & Hrem & Hperm).
    rewrite Hrem. cbn [bind].
    assert (Hlen' : length remaining = S (length rem')).
    { rewrite (Permutation_length Hperm). reflexivity. }
    destruct (IH (selected ++ [i]) rem') as (final & Hloop & Hg & Hl & Hi & Hnd).
    { lia. }
    { eapply Permutation_Forall in Hrange; [| exact Hperm].
      inversion Hrange; assumption. }
    exists final. split; [exact Hloop |]. split; [| split; [| split]].
    + eapply greedy_pick; eauto.
      intros j Hj. destruct (In_nth _ _ O Hj) as (k & Hk & Hnth).
      pose proof (Hmax k) as Hk'. rewrite Hlen in Hk'.
      specialize (Hk' Hk). unfold scores in Hk'.
      rewrite (nth_map_in_range _ _ _ _ O Hk) in Hk'.
      rewrite (nth_map_in_range _ _ _ _ O Hlt) in Hk'.
      rewrite Hnth in Hk'. exact Hk'.
    + rewrite Hl, length_app. simpl length. lia.
    + intros x Hx. destruct (Hi x Hx) as [Hs | Hr].
      * apply in_app_or in Hs. destruct Hs as [Hs | [<- | []]]; auto.
      * right. eapply Permutation_in; [symmetry; exact Hperm |].
        right. exact Hr.
    + intros Hnd0. apply Hnd.
      eapply Permutation_NoDup; [| exact Hnd0].
      rewrite <- app_assoc. apply Permutation_app_head. exact Hperm.
Qed.

End MMR.

Lemma greedy_extends : forall relevance similarity lambda_param top_n
    selected remaining final,
  greedy relevance similarity lambda_param top_n selected remaining final ->
  exists extra, final = selected ++ extra.
Proof.
  intros relevance similarity lambda_param top_n selected remaining final H.
  induction H as [selected remaining _ | selected
                  | selected remaining i remaining' final _ _ _ _ _ IH].
  - exists []. rewrite app_nil_r. reflexivity.
  - exists []. rewrite app_nil_r. reflexivity.
  - destruct IH as (extra & ->). exists (i :: extra).
    rewrite <- app_assoc. reflexivity.
Qed.

(** C8 (as amended). For a non-empty candidate matrix whose rows have
    the dimension of the query, and one id per row, the MMR utility
    returns, with their relevance, the candidates of a greedy selection:
    the first is a candidate of highest cosine similarity to the query,
    and every further one maximises
    [lambda * relevance - (1 - lambda) * mean similarity to the selected]
    among the remaining candidates, until [top_n] are selected or none
    remains. No candidate is selected twice, and the number returned is
    [min (max top_n 1) candidateCount], that is [min top_n candidateCount]
    for [top_n >= 1]. *)
Theorem C8_mmr_greedy_selection :
  forall (pf : Platform) (query_vector : Vec) (candidate_vectors : list Vec)
         (candidate_ids : list string) (lambda_param : Q) (top_n : Z),
    candidate_vectors <> [] ->
    length candidate_ids = length candidate_vectors ->
    length query_vector <> O ->
    Forall (fun r => length r = length query_vector) candidate_vectors ->
    exists selected first others later,
      Advanced._maximal_marginal_relevance query_vector candidate_vectors
        candidate_ids lambda_param top_n =
        Ok (map (fun i => (nth i candidate_ids EmptyString,
                           relevance_of query_vector candidate_vectors i))
                selected) /\
      selected = first :: later /\
      (forall j, (j < length candidate_vectors)%nat ->
         relevance_of query_vector candidate_vectors j <=
         relevance_of query_vector candidate_vectors first) /\
      Permutation (seq 0 (length candidate_vectors)) (first :: others) /\
      greedy (relevance_of query_vector candidate_vectors)
             (similarity_of candidate_vectors) lambda_param top_n
             [first] others selected /\
      NoDup selected /\
      Z.of_nat (length selected) =
        Z.min (Z.max top_n 1) (Z.of_nat (length candidate_vectors)) /\
      ((1 <= top_n)%Z ->
       Z.of_nat (length selected) =
         Z.min top_n (Z.of_nat (length candidate_vectors))).
Proof.
  intros pf q cv ids lam N Hne Hids Hq Hrows.
  unfold Advanced._maximal_marginal_relevance.
  rewrite (cosine_similarity_rows q Hq cv Hne Hrows). cbn [bind].
  set (sims := map (cos_row q) cv).
  assert (Hsne : sims <> []).
  { unfold sims. destruct cv; [congruence | discriminate]. }
  destruct (np_argmax_spec sims Hsne) as [Hlt Hmax].
  assert (Hlen : length sims = length cv) by (unfold sims; apply length_map).
  rewrite Hlen in Hlt.
  set (i0 := np_argmax sims) in *.
  assert (Hin : In i0 (seq 0 (length ids))).
  { apply in_seq. lia. }
  destruct (list_remove_ok i0 _ Hin) as (others & Hrem & Hperm).
  rewrite Hrem. cbn [bind].
  assert (Hrange : Forall (fun i => (i < length cv)%nat) (i0 :: others)).
  { eapply Permutation_Forall; [exact Hperm |].
    apply Forall_forall. intros x Hx. apply in_seq in Hx. lia. }
  assert (Hcount : length cv = S (length others)).
  { pose proof (Permutation_length Hperm) as Hp.
    rewrite length_seq in Hp. simpl in Hp. lia. }
  destruct (mmr_loop_greedy q cv lam N Hq Hrows (length others) [i0] others)
    as (final & Hloop & Hg & Hl & Hi & Hnd).
  { lia. }
  { inversion Hrange; assumption. }
  rewrite Hloop. cbn [bind].
  destruct (greedy_extends _ _ _ _ _ _ _ Hg) as (later & Hfinal).
  exists final, i0, others, later.
  split; [| split; [exact Hfinal |]].
  - apply mapM_ok_map. intros x Hx.
    assert (Hxlt : (x < length cv)%nat).
    { rewrite Forall_forall in Hrange. apply Hrange.
      destruct (Hi x Hx) as [[<- | []] | Hr]; [left | right]; auto. }
    rewrite (index_ok _ ids x EmptyString) by lia. cbn [bind].
    rewrite (index_ok _ sims x 0) by lia. cbn [bind].
    unfold sims. rewrite (nth_map_in_range _ _ _ _ [] Hxlt). reflexivity.
  - split; [| split; [| split; [exact Hg |]]].
    + intros j Hj. pose proof (Hmax j) as Hk. rewrite Hlen in Hk.
      specialize (Hk Hj). unfold sims in Hk.
      rewrite (nth_map_in_range _ _ _ _ [] Hj) in Hk.
      rewrite (nth_map_in_range _ _ _ _ [] Hlt) in Hk. exact Hk.
    + rewrite <- Hids. exact Hperm.
    + split; [| split].
      * apply Hnd. eapply Permutation_NoDup; [exact Hperm |].
        apply seq_NoDup.
      * rewrite Hl. simpl length. lia.
      * intros Hn. rewrite Hl. simpl length. lia.
Qed.

Lemma C8_mmr_greedy_selection_witness :
  exists selected first others later,
    Advanced._maximal_marginal_relevance (pf := Examples.platform)
      [1; 0] [[1; 0]; [1; 1]; [0; 1]] ["x"; "y"; "z"]%string (1 # 2) 2 =
      Ok (map (fun i => (nth i ["x"; "y"; "z"]%string EmptyString,
                         relevance_of (pf := Examples.platform)
                           [1; 0] [[1; 0]; [1; 1]; [0; 1]] i))
              selected) /\
    selected = first :: later /\
    (forall j, (j < 3)%nat ->
       relevance_of (pf := Examples.platform)
         [1; 0] [[1; 0]; [1; 1]; [0; 1]] j <=
       relevance_of (pf := Examples.platform)
         [1; 0] [[1; 0]; [1; 1]; [0; 1]] first) /\
    Permutation (seq 0 3) (first :: others) /\
    greedy (relevance_of (pf := Examples.platform)
              [1; 0] [[1; 0]; [1; 1]; [0; 1]])
           (similarity_of (pf := Examples.platform)
              [[1; 0]; [1; 1]; [0; 1]])
           (1 # 2) 2 [first] others selected /\
    NoDup selected /\
    Z.of_nat (length selected) = Z.min (Z.max 2 1) 3 /\
    ((1 <= 2)%Z -> Z.of_nat (length selected) = Z.min 2 3).
Proof.
  refine (C8_mmr_greedy_selection Examples.platform
            [1; 0] [[1; 0]; [1; 1]; [0; 1]] ["x"; "y"; "z"]%string
            (1 # 2) 2 _ eq_refl _ _).
  - discriminate.
  - discriminate.
  - repeat constructor.
Defined.

(** With [top_n = 0] the utility still returns its first pick: one item,
    not [min 0 3 = 0]. *)
Lemma C8_counterexample :
  exists out,
    Advanced._maximal_marginal_relevance (pf := Examples.platform)
      [1; 0] [[1; 0]; [1; 1]; [0; 1]] ["x"; "y"; "z"]%string (1 # 2) 0 =
      Ok out /\
    Z.of_nat (length out) <> Z.min 0 (Z.of_nat 3).
Proof.
  eexists. split; [reflexivity |]. vm_compute. discriminate.
Qed.

(* ================================================================= *)
(** * More on loading *)

Lemma valid_article_usable : forall data,
  (exists a, valid_article data = Some a) <-> usable data.
Proof.
  intros data. unfold valid_article, usable. split.
  - intros (a & H). destruct (raw_vector data) as [| | [| x v]];
      try discriminate. eauto.
  - intros (x & v & H). rewrite H. eauto.
Qed.

Lemma valid_article_fields : forall data a,
  valid_article data = Some a ->
  raw_vector data = VList (vector a) /\
  cluster a = raw_cluster data /\ metadata a = raw_metadata data.
Proof.
  intros data a H. unfold valid_article in H.
  destruct (raw_vector data) as [| | [| x v]]; try discriminate.
  inversion H; subst; simpl. auto.
Qed.

Lemma valid_articles_In : forall raw aid a,
  In (aid, a) (valid_articles raw) <->
  exists data, In (aid, data) raw /\ valid_article data = Some a.
Proof.
  induction raw as [| [k data] raw IH]; simpl; intros aid a.
  - split; [tauto | intros (d & [] & _)].
  - destruct (valid_article data) as [a' |] eqn:E; simpl; rewrite IH; split.
    + intros [H | (d & Hd & Hv)]; [inversion H; subst; eauto | eauto].
    + intros (d & [H | Hd] & Hv); [inversion H; subst | eauto].
      left. congruence.
    + intros (d & Hd & Hv). eauto.
    + intros (d & [H | Hd] & Hv); [inversion H; subst; congruence | eauto].
Qed.

Lemma valid_articles_keys_NoDup : forall raw,
  NoDup (dict_keys raw) -> NoDup (dict_keys (valid_articles raw)).
Proof.
  induction raw as [| [k data] raw IH]; simpl; intros H; [constructor |].
  inversion H as [| ? ? Hk Hnd]; subst.
  destruct (valid_article data) as [a |]; simpl; [| auto].
  constructor; [| auto].
  intros Hin. apply Hk. unfold dict_keys in *.
  apply in_map_iff in Hin. destruct Hin as ([k' a'] & <- & Hin).
  apply valid_articles_In in Hin. destruct Hin as (d & Hd & _).
  apply in_map_iff. exists (k', d). auto.
Qed.

Lemma dict_get_In : forall (V : Type) k (d : Dict V) v,
  dict_get k d = Some v -> In (k, v) d.
Proof.
  induction d as [| [k' v'] d IH]; simpl; intros v H; [discriminate |].
  destruct (String.eqb k k') eqn:E.
  - apply String.eqb_eq in E. inversion H; subst. auto.
  - right. auto.
Qed.

Lemma dict_get_of_key : forall (V : Type) k (d : Dict V),
  In k (dict_keys d) -> exists v, dict_get k d = Some v.
Proof.
  induction d as [| [k' v'] d IH]; simpl; intros H; [tauto |].
  destruct (String.eqb k k') eqn:E; [eauto |].
  destruct H as [H | H]; [| auto].
  subst k'. rewrite String.eqb_refl in E. discriminate.
Qed.

Lemma dict_get_NoDup_In : forall (V : Type) k (d : Dict V) v,
  NoDup (dict_keys d) -> In (k, v) d -> dict_get k d = Some v.
Proof.
  induction d as [| [k' v'] d IH]; simpl; intros v Hnd H; [tauto |].
  inversion Hnd as [| ? ? Hk Hnd']; subst.
  destruct H as [H | H].
  - inversion H; subst. rewrite String.eqb_refl. reflexivity.
  - destruct (String.eqb k k') eqn:E; [| auto].
    apply String.eqb_eq in E. subst k'. exfalso. apply Hk.
    unfold dict_keys. apply in_map_iff. exists (k, v). auto.
Qed.

Lemma load_ok_shape : forall embeddings profiles self,
  _load_data embeddings profiles = Ok self ->
  exists aid0 first rest,
    valid_articles embeddings = (aid0, first) :: rest /\
    article_vectors self = valid_articles embeddings /\
    article_ids self = dict_keys (valid_articles embeddings) /\
    vector_array self =
      map (fun p => repair (length (vector first)) (vector (snd p)))
          (valid_articles embeddings) /\
    user_profiles self = profiles.
Proof.
  intros embeddings profiles self H. unfold _load_data in H.
  destruct (valid_articles embeddings) as [| [aid0 first] rest] eqn:Ev;
    [discriminate |].
  inversion H; subst self; clear H.
  exists aid0, first, rest. repeat split.
Qed.

Lemma valid_articles_nil : forall embeddings,
  valid_articles embeddings = [] <->
  Forall (fun p => ~ usable (snd p)) embeddings.
Proof.
  induction embeddings as [| [k data] raw IH]; simpl.
  - split; auto.
  - destruct (valid_article data) as [a |] eqn:E; split; intros H.
    + discriminate.
    + inversion H as [| ? ? Hd _]; subst. exfalso. apply Hd.
      apply valid_article_usable. eauto.
    + constructor; [| apply IH; exact H].
      simpl. intros Hu. apply valid_article_usable in Hu.
      destruct Hu as (a & Ha). congruence.
    + inversion H; subst. apply IH. assumption.
Qed.

(** X1. When no stored article has a non-empty list as its vector,
    [_load_data] raises [ValueError], whatever the profiles are; and a
    recommender it returns has at least one article, some stored article
    having a non-empty list as its vector. *)
Theorem X1_load_without_usable_article_raises :
  forall embeddings profiles,
    (Forall (fun p => ~ usable (snd p)) embeddings ->
     _load_data embeddings profiles = Raise ValueError) /\
    (forall self,
        _load_data embeddings profiles = Ok self ->
        Exists (fun p => usable (snd p)) embeddings /\
        article_ids self <> [] /\
        length (vector_array self) = length (article_ids self)).
Proof.
  intros embeddings profiles. unfold _load_data. split.
  - intros HF. apply valid_articles_nil in HF. rewrite HF. reflexivity.
  - intros self H.
    destruct (valid_articles embeddings) as [| [aid0 first] rest] eqn:Ev;
      [discriminate |].
    inversion H; subst self; clear H. cbn [article_ids vector_array].
    split; [| split].
    + apply Exists_exists.
      assert (Hin : In (aid0, first) (valid_articles embeddings))
        by (rewrite Ev; left; reflexivity).
      apply valid_articles_In in Hin. destruct Hin as (data & Hd & Hv).
      exists (aid0, data). split; [exact Hd |].
      apply valid_article_usable. eauto.
    + discriminate.
    + unfold dict_keys. simpl. rewrite !length_map. reflexivity.
Qed.

Lemma X1_load_without_usable_article_raises_witness :
  (Exists (fun p => usable (snd p)) Examples.mixed_embeddings /\
   article_ids Examples.mixed <> [] /\
   length (vector_array Examples.mixed) =
     length (article_ids Examples.mixed)) /\
  _load_data [("d", Examples.raw [] None "D")]%string Cases.abc_profiles =
    Raise ValueError.
Proof.
  split.
  - exact (proj2 (X1_load_without_usable_article_raises
                    Examples.mixed_embeddings (user_profiles Examples.mixed))
                 Examples.mixed eq_refl).
  - apply (proj1 (X1_load_without_usable_article_raises
                    [("d", Examples.raw [] None "D")]%string
                    Cases.abc_profiles)).
    constructor; [| constructor].
    intros (x & v & H). discriminate H.
Defined.

(** X2. What a successful load keeps: the ids are the keys of the kept
    articles, in order, with one row of [vector_array] per id; every
    kept article is a stored article with the same non-empty vector,
    cluster and metadata; the vector of every id can be looked up; and
    distinct stored ids give distinct loaded ids. *)
Theorem X2_load_invariants :
  forall embeddings profiles self,
    _load_data embeddings profiles = Ok self ->
    article_ids self = dict_keys (article_vectors self) /\
    length (vector_array self) = length (article_ids self) /\
    user_profiles self = profiles /\
    (forall aid a, In (aid, a) (article_vectors self) ->
       vector a <> [] /\
       exists data, In (aid, data) embeddings /\
                    raw_vector data = VList (vector a) /\
                    raw_cluster data = cluster a /\
                    raw_metadata data = metadata a) /\
    (forall aid, In aid (article_ids self) ->
       exists v, _get_article_vector self aid = Ok v /\ v <> []) /\
    (NoDup (dict_keys embeddings) -> NoDup (article_ids self)).
Proof.
  intros embeddings profiles self H.
  destruct (load_ok_shape _ _ _ H)
    as (aid0 & first & rest & Ev & Hav & Hids & Hrows & Hprof).
  rewrite Hav, Hids, Hrows.
  split; [reflexivity |]. split.
  { unfold dict_keys. rewrite !length_map. reflexivity. }
  split; [exact Hprof |]. split; [| split].
  - intros aid a Hin. split.
    + eapply valid_articles_nonempty_vectors; eauto.
    + apply valid_articles_In in Hin. destruct Hin as (data & Hd & Hv).
      apply valid_article_fields in Hv. destruct Hv as (Hv & Hc & Hm).
      exists data. auto.
  - intros aid Hin. destruct (dict_get_of_key _ _ _ Hin) as (a & Ha).
    exists (vector a). unfold _get_article_vector, dict_item.
    rewrite Hav, Ha. split; [reflexivity |].
    apply dict_get_In in Ha.
    eapply valid_articles_nonempty_vectors; eauto.
  - apply valid_articles_keys_NoDup.
Qed.

Lemma X2_load_invariants_witness :
  article_ids Examples.mixed = dict_keys (article_vectors Examples.mixed) /\
  length (vector_array Examples.mixed) = length (article_ids Examples.mixed) /\
  user_profiles Examples.mixed = user_profiles Examples.mixed /\
  (forall aid a, In (aid, a) (article_vectors Examples.mixed) ->
     vector a <> [] /\
     exists data, In (aid, data) Examples.mixed_embeddings /\
                  raw_vector data = VList (vector a) /\
                  raw_cluster data = cluster a /\
                  raw_metadata data = metadata a) /\
  (forall aid, In aid (article_ids Examples.mixed) ->
     exists v, _get_article_vector Examples.mixed aid = Ok v /\ v <> []) /\
  (NoDup (dict_keys Examples.mixed_embeddings) ->
   NoDup (article_ids Examples.mixed)).
Proof.
  exact (X2_load_invariants Examples.mixed_embeddings
           (user_profiles Examples.mixed) Examples.mixed eq_refl).
Defined.

(* ================================================================= *)
(** * The kinds of exception *)

Lemma bind_raise : forall (A B : Type) (m : result A) (k : A -> result B) e,
  bind m k = Raise e ->
  m = Raise e \/ exists a, m = Ok a /\ k a = Raise e.
Proof.
  intros A B [a | e'] k e H; simpl in H; [right; eauto |].
  left. inversion H. reflexivity.
Qed.

Lemma mapM_raise : forall (A B : Type) (f : A -> result B) l e,
  mapM f l = Raise e -> exists x, In x l /\ f x = Raise e.
Proof.
  induction l as [| x l IH]; simpl; intros e H; [discriminate |].
  apply bind_raise in H. destruct H as [H | (y & Hy & H)]; [eauto |].
  apply bind_raise in H. destruct H as [H | (ys & Hys & H)];
    [| discriminate].
  destruct (IH _ H) as (x' & Hin & Hx'). eauto.
Qed.

Lemma dict_item_raise : forall (V : Type) k (d : Dict V) e,
  dict_item k d = Raise e -> e = KeyError.
Proof.
  intros V k d e H. unfold dict_item in H.
  destruct (dict_get k d); [discriminate | congruence].
Qed.

Lemma get_vector_raise : forall self aid e,
  _get_article_vector self aid = Raise e -> e = KeyError.
Proof.
  intros self aid e H. unfold _get_article_vector in H.
  apply bind_raise in H. destruct H as [H | (a & _ & H)];
    [eapply dict_item_raise; eauto | discriminate].
Qed.

Lemma np_mean_axis0_raise : forall v0 rest e,
  np_mean_axis0 v0 rest = Raise e -> e = ValueError.
Proof.
  intros v0 rest e H. unfold np_mean_axis0 in H.
  destruct (same_length (length v0) rest); [discriminate | congruence].
Qed.

Section ErrorKinds.
Context {pf : Platform}.

Lemma cosine_similarity_raise : forall x Y e,
  cosine_similarity x Y = Raise e -> e = ValueError.
Proof.
  intros x Y e H. unfold cosine_similarity in H.
  destruct Y as [| y Y]; [congruence |].
  destruct (Nat.eqb (length x) 0); [congruence |].
  destruct (same_length (length x) (y :: Y)); [discriminate | congruence].
Qed.

Lemma simple_read_vectors_raise : forall self av reads e,
  Simple.read_vectors self av reads = Raise e -> e = KeyError.
Proof.
  induction reads as [| aid reads IH]; simpl; intros e H; [discriminate |].
  destruct (dict_mem aid av); [| auto].
  apply bind_raise in H. destruct H as [H | (v & _ & H)];
    [eapply get_vector_raise; eauto |].
  apply bind_raise in H. destruct H as [H | (vs & _ & H)];
    [auto | discriminate].
Qed.

Lemma advanced_read_history_raise : forall self av reads e,
  Advanced.read_history self av reads = Raise e -> e = KeyError.
Proof.
  induction reads as [| aid reads IH]; simpl; intros e H; [discriminate |].
  destruct (dict_get aid av); [| auto].
  apply bind_raise in H. destruct H as [H | (v & _ & H)];
    [eapply get_vector_raise; eauto |].
  apply bind_raise in H. destruct H as [H | ([vs cs] & _ & H)];
    [auto | discriminate].
Qed.

Lemma simple_candidates_raise : forall self ids reads e,
  Simple.candidates self ids reads = Raise e -> e = KeyError.
Proof.
  induction ids as [| aid ids IH]; simpl; intros reads e H;
    [discriminate |].
  destruct (str_in aid reads); [eauto |].
  apply bind_raise in H. destruct H as [H | (v & _ & H)];
    [eapply get_vector_raise; eauto |].
  apply bind_raise in H. destruct H as [H | (cs & _ & H)];
    [eauto | discriminate].
Qed.

Lemma advanced_candidates_raise : forall self av ids reads e,
  Advanced.candidates self av ids reads = Raise e -> e = KeyError.
Proof.
  induction ids as [| aid ids IH]; simpl; intros reads e H;
    [discriminate |].
  destruct (str_in aid reads); [eauto |].
  apply bind_raise in H. destruct H as [H | (v & _ & H)];
    [eapply get_vector_raise; eauto |].
  apply bind_raise in H. destruct H as [H | (a & _ & H)];
    [eapply dict_item_raise; eauto |].
  apply bind_raise in H. destruct H as [H | (cs & _ & H)];
    [eauto | discriminate].
Qed.

Lemma simple_record_raise : forall av p e,
  Simple.record av p = Raise e -> e = KeyError.
Proof.
  intros av [aid sc] e H. unfold Simple.record in H.
  apply bind_raise in H. destruct H as [H | (a & _ & H)];
    [eapply dict_item_raise; eauto |].
  destruct (metadata a); [discriminate | congruence].
Qed.

Lemma advanced_record_raise : forall self av p e,
  Advanced.record self av p = Raise e -> e = KeyError.
Proof.
  intros self av [[aid sem] [td cs]] e H. unfold Advanced.record in H.
  apply bind_raise in H. destruct H as [H | (a & _ & H)];
    [eapply dict_item_raise; eauto |].
  destruct (metadata a); [discriminate | congruence].
Qed.

Lemma time_decay_raise : forall self aid e,
  Advanced._calculate_time_decay self aid = Raise e ->
  e = ZeroDivisionError /\ time_decay_days self == 0.
Proof.
  intros self aid e H. unfold Advanced._calculate_time_decay in H.
  destruct (dict_get aid (article_vectors (base self))) as [a |];
    [| discriminate].
  destruct (metadata a) as [m |]; [| discriminate].
  destruct (scraped_at m) as [s |]; [| discriminate].
  destruct (days_old s) as [d |]; [| discriminate].
  destruct (Qeq_bool (time_decay_days self) 0) eqn:E; [| discriminate].
  apply Qeq_bool_iff in E. split; [congruence | exact E].
Qed.

Lemma simple_raise_kinds : forall self uid av reads top_n e,
  Simple.recommend_for_user self uid av reads top_n = Raise e ->
  e = KeyError \/ e = ValueError.
Proof.
  intros self uid av reads top_n e H. unfold Simple.recommend_for_user in H.
  destruct reads as [| r0 reads']; [discriminate |].
  apply bind_raise in H. destruct H as [H | (vs & _ & H)].
  { left. eapply simple_read_vectors_raise; eauto. }
  destruct vs as [| v0 vs]; [discriminate |].
  apply bind_raise in H. destruct H as [H | (profile & _ & H)].
  { right. eapply np_mean_axis0_raise; eauto. }
  apply bind_raise in H. destruct H as [H | (cands & _ & H)].
  { left. eapply simple_candidates_raise; eauto. }
  destruct cands as [| c cands]; [discriminate |].
  apply bind_raise in H. destruct H as [H | (sims & _ & H)].
  { right. eapply cosine_similarity_raise; eauto. }
  apply bind_raise in H. destruct H as [H | (recs & _ & H)];
    [| discriminate].
  apply mapM_raise in H. destruct H as (p & _ & H).
  left. eapply simple_record_raise; eauto.
Qed.

Lemma advanced_raise_kinds : forall self uid av reads top_n e,
  Advanced.recommend_for_user self uid av reads top_n = Raise e ->
  e = KeyError \/ e = ValueError \/
  (e = ZeroDivisionError /\ time_decay_days self == 0).
Proof.
  intros self uid av reads top_n e H.
  unfold Advanced.recommend_for_user in H.
  destruct reads as [| r0 reads']; [discriminate |].
  apply bind_raise in H. destruct H as [H | ([vs cs] & _ & H)].
  { left. eapply advanced_read_history_raise; eauto. }
  destruct vs as [| v0 vs]; [discriminate |].
  apply bind_raise in H. destruct H as [H | (profile & _ & H)].
  { right; left. eapply np_mean_axis0_raise; eauto. }
  apply bind_raise in H. destruct H as [H | (cands & _ & H)].
  { left. eapply advanced_candidates_raise; eauto. }
  destruct cands as [| c cands]; [discriminate |].
  apply bind_raise in H. destruct H as [H | (sims & _ & H)].
  { right; left. eapply cosine_similarity_raise; eauto. }
  apply bind_raise in H. destruct H as [H | (sigs & _ & H)].
  { apply mapM_raise in H. destruct H as ([aid cl] & _ & H).
    unfold Advanced.signals in H.
    apply bind_raise in H. destruct H as [H | (t & _ & H)];
      [| discriminate].
    right; right. eapply time_decay_raise; eauto. }
  apply bind_raise in H. destruct H as [H | (recs & _ & H)];
    [| discriminate].
  apply mapM_raise in H. destruct H as (p & _ & H).
  left. eapply advanced_record_raise; eauto.
Qed.

End ErrorKinds.

Lemma time_decay_without_days : forall (pf : Platform) self aid f,
  time_decay_days self == 0 ->
  Advanced._calculate_time_decay self aid = Ok f -> f = 1.
Proof.
  intros pf self aid f Hz H. unfold Advanced._calculate_time_decay in H.
  apply Qeq_bool_iff in Hz.
  destruct (dict_get aid (article_vectors (base self))) as [a |];
    [| inversion H; reflexivity].
  destruct (metadata a) as [m |]; [| inversion H; reflexivity].
  destruct (scraped_at m) as [s |]; [| inversion H; reflexivity].
  destruct (days_old s) as [d |]; [| inversion H; reflexivity].
  rewrite Hz in H. discriminate.
Qed.

(** X4. Division by zero in scoring. The simple strategy never raises
    [ZeroDivisionError], and the advanced strategy raises it only when
    [time_decay_days] is 0. With [time_decay_days = 0] the advanced
    strategy returns only when no time decay had to be computed: every
    record it returns has the freshness 1 of an article without a
    readable timestamp. *)
Theorem X4_zero_division_needs_zero_decay :
  forall (pf : Platform) (simple : BaseRecommender)
         (adv : AdvancedRecommender) uid av reads top_n,
    Simple.recommend_for_user simple uid av reads top_n <>
      Raise ZeroDivisionError /\
    (Advanced.recommend_for_user adv uid av reads top_n =
       Raise ZeroDivisionError ->
     time_decay_days adv == 0) /\
    (time_decay_days adv == 0 ->
     forall recs r,
       Advanced.recommend_for_user adv uid av reads top_n = Ok recs ->
       In r recs ->
       Advanced._calculate_time_decay adv (article_id r) = Ok 1 /\
       exists sc,
         similarity_components r = Some sc /\ freshness sc = round4 1).
Proof.
  intros pf simple adv uid av reads top_n. split; [| split].
  - intros H. apply simple_raise_kinds in H.
    destruct H as [H | H]; discriminate H.
  - intros H. apply advanced_raise_kinds in H.
    destruct H as [H | [H | [_ H]]]; try discriminate H. exact H.
  - intros Hz recs r H Hr.
    destruct (advanced_record_origin pf adv uid av reads top_n recs r H Hr)
      as (v0 & vs & profile & a & v & fresh & _ & _ & _ & _ & Hf & Hrest).
    cbv zeta in Hrest. destruct Hrest as (_ & _ & Hsc).
    pose proof (time_decay_without_days pf adv _ _ Hz Hf) as ->.
    split; [exact Hf |]. eexists. split; [exact Hsc | reflexivity].
Qed.

(** Two articles without timestamp, [time_decay_days = 0]: the reader of
    ["a"] gets ["b"] with freshness 1. *)
Lemma X4_zero_division_needs_zero_decay_witness :
  let undated v t :=
    {| vector := v; cluster := None;
       metadata := Some {| title := Some t; content := None; url := None;
                           scraped_at := None |} |} in
  let corpus := [("a", undated [1; 0] "A"); ("b", undated [0; 1] "B")]%string in
  let adv := {| base := Examples.loaded corpus [[1; 0]; [0; 1]] [];
                diversity_weight := 3 # 10;
                time_decay_days := 0;
                cluster_weight := 2 # 10 |} in
  let r := Examples.b_advanced (3000 # 10000) (10000 # 10000) (0 # 10000) in
  Advanced._calculate_time_decay (pf := Examples.platform) adv
    (article_id r) = Ok 1 /\
  exists sc, similarity_components r = Some sc /\ freshness sc = round4 1.
Proof.
  intros undated corpus adv r.
  exact (proj2 (proj2 (X4_zero_division_needs_zero_decay
                         Examples.platform Examples.ab adv
                         "u1"%string corpus ["a"%string] 5%Z))
               (Qeq_refl 0) [r] r eq_refl (or_introl eq_refl)).
Defined.

(* ================================================================= *)
(** * Range of the topic signal *)

Lemma count_occ_le_length : forall (l : list Z) x,
  (count_occ Z.eq_dec l x <= length l)%nat.
Proof.
  induction l as [| y l IH]; simpl; intros x; [lia |].
  destruct (Z.eq_dec y x); specialize (IH x); lia.
Qed.

(** X5. The cluster similarity is a fraction between 0 and 1; it is 0
    exactly when the label does not occur in the user's history (an
    empty history included). *)
Theorem X5_cluster_similarity_range :
  forall user_clusters article_cluster,
    0 <= Advanced._calculate_cluster_similarity user_clusters
                                                article_cluster <= 1 /\
    (Advanced._calculate_cluster_similarity user_clusters article_cluster
       == 0 <-> ~ In article_cluster user_clusters).
Proof.
  intros h c. unfold Advanced._calculate_cluster_similarity.
  destruct h as [| c0 h'].
  { split; [split; [apply Qle_refl | discriminate] |].
    split; [intros _ [] | reflexivity]. }
  remember (c0 :: h') as h.
  assert (Hlen : (0 < length h)%nat) by (subst; simpl; lia).
  pose proof (count_occ_le_length h c) as Hle.
  set (n := count_occ Z.eq_dec h c) in *.
  assert (Hpos : 0 < inject_Z (Z.of_nat (length h))).
  { rewrite <- (Zlt_Qlt 0). lia. }
  split; [split |].
  - apply Qle_shift_div_l; [exact Hpos |].
    rewrite Qmult_0_l. rewrite <- (Zle_Qle 0). lia.
  - apply Qle_shift_div_r; [exact Hpos |].
    rewrite Qmult_1_l. rewrite <- Zle_Qle. lia.
  - split.
    + intros Hz Hin.
      assert (Hn : (0 < n)%nat) by (apply count_occ_In; exact Hin).
      assert (Hq : 0 < inject_Z (Z.of_nat n) / inject_Z (Z.of_nat (length h))).
      { apply Qlt_shift_div_l; [exact Hpos |].
        rewrite Qmult_0_l. rewrite <- (Zlt_Qlt 0). lia. }
      rewrite Hz in Hq. revert Hq. apply Qlt_irrefl.
    + intros Hnin. unfold n. rewrite count_occ_absent by exact Hnin.
      simpl. unfold Qdiv. apply Qmult_0_l.
Qed.

(* ================================================================= *)
(** * The result as a function of [top_n] *)

Lemma slice_to_nil : forall (A : Type) n, slice_to (@nil A) n = [].
Proof.
  intros A n. unfold slice_to. destruct (0 <=? n)%Z; apply firstn_nil.
Qed.

Lemma slice_to_length : forall (A : Type) (l : list A) n,
  Z.of_nat (length (slice_to l n)) =
  if (0 <=? n)%Z then Z.min n (Z.of_nat (length l))
  else Z.max 0 (Z.of_nat (length l) + n).
Proof.
  intros A l n. unfold slice_to.
  destruct (0 <=? n)%Z eqn:E; rewrite length_firstn.
  - apply Z.leb_le in E. lia.
  - apply Z.leb_gt in E. lia.
Qed.

Ltac replay_calls :=
  intros;
  repeat match goal with
         | H : ?m = Ok _ |- context [bind ?m _] => rewrite H; cbn [bind]
         end;
  try rewrite slice_to_nil; reflexivity.

Section Shape.
Context {pf : Platform}.

(** One successful call fixes the ranked list of which every call, for
    any [top_n], returns a slice. *)
Lemma simple_shape : forall self uid av reads top_n recs,
  Simple.recommend_for_user self uid av reads top_n = Ok recs ->
  exists ranked,
    (forall n, Simple.recommend_for_user self uid av reads n =
               Ok (slice_to ranked n)) /\
    (retained av reads = [] -> ranked = []) /\
    (retained av reads <> [] ->
     length ranked = length (candidate_ids_of self reads)).
Proof.
  intros self uid av reads top_n recs H.
  unfold Simple.recommend_for_user in *.
  destruct reads as [| r0 reads'].
  { exists []. split; [replay_calls |].
    split; [reflexivity | intros C; exfalso; apply C; reflexivity]. }
  remember (r0 :: reads') as reads.
  inv_bind H. rename x into user_vecs.
  pose proof (simple_read_vectors_spec _ _ _ _ E) as Hret.
  destruct user_vecs as [| v0 vs].
  { exists []. split; [replay_calls |].
    apply Forall2_nil_r in Hret.
    split; [reflexivity | intros C; contradiction]. }
  assert (Hne : retained av reads <> []).
  { intros C. rewrite C in Hret. inversion Hret. }
  inv_bind H. inv_bind H. rename x0 into cands.
  pose proof (simple_candidates_spec _ _ _ _ E1) as [Hids _].
  destruct cands as [| c cands].
  { exists []. split; [replay_calls |].
    split; [intros C; contradiction |].
    intros _. unfold candidate_ids_of. rewrite <- Hids. reflexivity. }
  inv_bind H. inv_bind H.
  exists (sort_desc score x1).
  split; [replay_calls |].
  split; [intros C; contradiction |].
  intros _. rewrite sort_desc_length.
  apply simple_records_ids in E3.
  apply (f_equal (@length string)) in E3. rewrite !length_map in E3.
  rewrite E3. apply cosine_similarity_ok in E2. destruct E2 as [-> _].
  rewrite length_combine, !length_map.
  unfold candidate_ids_of. rewrite <- Hids, length_map. lia.
Qed.

Lemma advanced_shape : forall self uid av reads top_n recs,
  Advanced.recommend_for_user self uid av reads top_n = Ok recs ->
  exists ranked,
    (forall n, Advanced.recommend_for_user self uid av reads n =
               Ok (slice_to ranked n)) /\
    (retained av reads = [] -> ranked = []) /\
    (retained av reads <> [] ->
     length ranked = length (candidate_ids_of (base self) reads)).
Proof.
  intros self uid av reads top_n recs H.
  unfold Advanced.recommend_for_user in *.
  destruct reads as [| r0 reads'].
  { exists []. split; [replay_calls |].
    split; [reflexivity | intros C; exfalso; apply C; reflexivity]. }
  remember (r0 :: reads') as reads.
  inv_bind H. destruct x as [user_vecs user_clusters].
  pose proof (advanced_read_history_spec _ _ _ _ _ E) as [Hret _].
  destruct user_vecs as [| v0 vs].
  { exists []. split; [replay_calls |].
    apply Forall2_nil_r in Hret.
    split; [reflexivity | intros C; contradiction]. }
  assert (Hne : retained av reads <> []).
  { intros C. rewrite C in Hret. inversion Hret. }
  inv_bind H. inv_bind H. rename x0 into cands.
  pose proof (advanced_candidates_spec _ _ _ _ _ E1) as [Hids _].
  destruct cands as [| c cands].
  { exists []. split; [replay_calls |].
    split; [intros C; contradiction |].
    intros _. unfold candidate_ids_of. rewrite <- Hids. reflexivity. }
  inv_bind H. inv_bind H. inv_bind H.
  exists (sort_desc score x2).
  split; [replay_calls |].
  split; [intros C; contradiction |].
  intros _. rewrite sort_desc_length.
  apply advanced_records_ids in E4.
  apply (f_equal (@length string)) in E4. rewrite !length_map in E4.
  rewrite E4. apply cosine_similarity_ok in E2. destruct E2 as [-> _].
  apply mapM_length in E3.
  rewrite length_combine, E3, !length_combine, !length_map.
  unfold candidate_ids_of. rewrite <- Hids, length_map. lia.
Qed.

End Shape.

(** X6. The exact number of recommendations, for both strategies: no
    recommendation when no read id is known to the passed corpus;
    otherwise [min top_n candidateCount] for [top_n >= 0], and for a
    negative [top_n] the candidates but the last [-top_n] of the ranking,
    that is [max 0 (candidateCount + top_n)]. *)
Theorem X6_number_of_recommendations :
  forall (pf : Platform) (simple : BaseRecommender)
         (adv : AdvancedRecommender) uid av reads top_n,
    (forall recs,
        Simple.recommend_for_user simple uid av reads top_n = Ok recs ->
        (retained av reads = [] -> recs = []) /\
        (retained av reads <> [] ->
         Z.of_nat (length recs) =
         let count := Z.of_nat (length (candidate_ids_of simple reads)) in
         if (0 <=? top_n)%Z then Z.min top_n count
         else Z.max 0 (count + top_n))) /\
    (forall recs,
        Advanced.recommend_for_user adv uid av reads top_n = Ok recs ->
        (retained av reads = [] -> recs = []) /\
        (retained av reads <> [] ->
         Z.of_nat (length recs) =
         let count := Z.of_nat (length (candidate_ids_of (base adv) reads)) in
         if (0 <=? top_n)%Z then Z.min top_n count
         else Z.max 0 (count + top_n))).
Proof.
  intros pf simple adv uid av reads top_n. split; intros recs H.
  - destruct (simple_shape _ _ _ _ _ _ H) as (ranked & Hall & Hnil & Hlen).
    rewrite Hall in H. inversion H; subst recs. split.
    + intros C. rewrite (Hnil C). apply slice_to_nil.
    + intros C. cbv zeta. rewrite slice_to_length, (Hlen C). reflexivity.
  - destruct (advanced_shape _ _ _ _ _ _ H) as (ranked & Hall & Hnil & Hlen).
    rewrite Hall in H. inversion H; subst recs. split.
    + intros C. rewrite (Hnil C). apply slice_to_nil.
    + intros C. cbv zeta. rewrite slice_to_length, (Hlen C). reflexivity.
Qed.

Lemma X6_number_of_recommendations_witness :
  (retained Examples.ab_corpus ["a"%string] = [] ->
   [Examples.b_simple] = []) /\
  (retained Examples.ab_corpus ["a"%string] <> [] ->
   Z.of_nat (length [Examples.b_simple]) =
   let count :=
     Z.of_nat (length (candidate_ids_of Examples.ab ["a"%string])) in
   if (0 <=? 5)%Z then Z.min 5 count else Z.max 0 (count + 5)).
Proof.
  exact (proj1 (X6_number_of_recommendations Examples.platform Examples.ab
                  (Examples.advanced Examples.ab (3 # 10) (2 # 10))
                  "u1"%string Examples.ab_corpus ["a"%string] 5%Z)
               [Examples.b_simple] eq_refl).
Defined.



(* ================================================================= *)
(** * Rounding and the simple score *)

Lemma rint_bounds : forall y,
  y - (1 # 2) <= inject_Z (rint y) <= y + (1 # 2).
Proof.
  intros y. unfold rint.
  pose proof (Qfloor_le y) as Hlo. pose proof (Qlt_floor y) as Hhi.
  destruct (Qcompare (y - inject_Z (Qfloor y)) (1 # 2)) eqn:E;
    [apply Qeq_alt in E; destruct (Z.even (Qfloor y))
    | apply Qlt_alt in E | apply Qgt_alt in E];
    rewrite ?inject_Z_plus in *; change (inject_Z 1) with 1 in *;
    revert Hlo Hhi E; generalize (inject_Z (Qfloor y)) as f;
    intros f Hlo Hhi E; lra.
Qed.

Lemma round4_bounds : forall x,
  x - (1 # 20000) <= round4 x <= x + (1 # 20000).
Proof.
  intros x. unfold round4.
  pose proof (rint_bounds (x * 10000)) as [Hlo Hhi].
  rewrite (Qmake_Qdiv (rint (x * 10000)) 10000).
  set (r := inject_Z (rint (x * 10000))) in *.
  change (inject_Z (Z.pos 10000)) with 10000.
  split.
  - apply Qle_shift_div_l; [reflexivity | lra].
  - apply Qle_shift_div_r; [reflexivity | lra].
Qed.

Section SimpleOrigin.
Context {pf : Platform}.

Lemma simple_record_origin : forall self uid av reads top_n recs r,
  Simple.recommend_for_user self uid av reads top_n = Ok recs ->
  In r recs ->
  exists v0 vs profile v a m,
    Simple.read_vectors self av reads = Ok (v0 :: vs) /\
    np_mean_axis0 v0 vs = Ok profile /\
    _get_article_vector self (article_id r) = Ok v /\
    dict_get (article_id r) av = Some a /\
    metadata a = Some m /\
    score r = round4 (cos_row profile v) /\
    rec_title r = get_or_empty (title m) /\
    rec_url r = get_or_empty (url m).
Proof.
  intros self uid av reads top_n recs r H Hr.
  unfold Simple.recommend_for_user in H.
  destruct reads as [| r0 reads']; [inversion H; subst; contradiction |].
  remember (r0 :: reads') as reads.
  inv_bind H. rename x into user_vecs.
  destruct user_vecs as [| v0 vs]; [inversion H; subst; contradiction |].
  inv_bind H. rename x into profile.
  inv_bind H. rename x into cands.
  apply simple_candidates_spec in E1. destruct E1 as [_ Hcands].
  destruct cands as [| c0 cands']; [inversion H; subst; contradiction |].
  remember (c0 :: cands') as cands.
  inv_bind H. inv_bind H. inversion H; subst recs. clear H.
  apply slice_to_incl in Hr.
  eapply Permutation_in in Hr; [| apply sort_desc_perm].
  apply cosine_similarity_ok in E1. destruct E1 as [-> _].
  apply mapM_Forall2 in E2.
  destruct (Forall2_In_r _ _ _ _ _ _ E2 Hr) as (p & Hp & Hrec).
  rewrite map_map, combine_map_same in Hp.
  apply in_map_iff in Hp. destruct Hp as (c & <- & Hc).
  apply simple_record_ok in Hrec.
  destruct Hrec as (Hid & Hscore & _ & _ & a & m & Ha & Hm & Ht & Hu).
  rewrite Forall_forall in Hcands. specialize (Hcands c Hc).
  exists v0, vs, profile, (snd c), a, m. rewrite Hid.
  repeat split; auto.
Qed.

End SimpleOrigin.

(** X8. Every record the simple recommender returns is that of a known
    article: its score is the cosine similarity between the mean of the
    read vectors and the article's vector, rounded to 4 decimals, hence
    within 0.00005 of it, and its title and url are the metadata's, or the
    empty string. *)
Theorem X8_simple_score_origin :
  forall (pf : Platform) (self : BaseRecommender) uid av reads top_n recs r,
    Simple.recommend_for_user self uid av reads top_n = Ok recs ->
    In r recs ->
    exists v0 vs profile v a m,
      Simple.read_vectors self av reads = Ok (v0 :: vs) /\
      np_mean_axis0 v0 vs = Ok profile /\
      _get_article_vector self (article_id r) = Ok v /\
      dict_get (article_id r) av = Some a /\
      metadata a = Some m /\
      score r = round4 (cos_row profile v) /\
      cos_row profile v - (1 # 20000) <= score r <=
        cos_row profile v + (1 # 20000) /\
      rec_title r = get_or_empty (title m) /\
      rec_url r = get_or_empty (url m).
Proof.
  intros pf self uid av reads top_n recs r H Hr.
  destruct (simple_record_origin self uid av reads top_n recs r H Hr)
    as (v0 & vs & profile & v & a & m & H1 & H2 & H3 & H4 & H5 & H6 & H7 & H8).
  exists v0, vs, profile, v, a, m. repeat split; auto;
    rewrite H6; apply round4_bounds.
Qed.

Lemma X8_simple_score_origin_witness :
  exists v0 vs profile v a m,
    Simple.read_vectors Examples.ab Examples.ab_corpus ["a"%string] =
      Ok (v0 :: vs) /\
    np_mean_axis0 v0 vs = Ok profile /\
    _get_article_vector Examples.ab "b"%string = Ok v /\
    dict_get "b"%string Examples.ab_corpus = Some a /\
    metadata a = Some m /\
    0 # 10000 = round4 (cos_row (pf := Examples.platform) profile v) /\
    cos_row (pf := Examples.platform) profile v - (1 # 20000) <=
      0 # 10000 <=
      cos_row (pf := Examples.platform) profile v + (1 # 20000) /\
    "B"%string = get_or_empty (title m) /\
    EmptyString = get_or_empty (url m).
Proof.
  exact (X8_simple_score_origin Examples.platform Examples.ab "u1"%string
           Examples.ab_corpus ["a"%string] 5 [Examples.b_simple]
           Examples.b_simple eq_refl (or_introl eq_refl)).
Defined.

Lemma StronglySorted_app_pair : forall (A : Type) (R : A -> A -> Prop)
    before x between y after,
  StronglySorted R (before ++ x :: between ++ y :: after) -> R x y.
Proof.
  intros A R before. induction before as [| b before IH];
    intros x between y after H; simpl in H.
  - inversion H as [| ? ? _ HF]; subst.
    rewrite Forall_forall in HF. apply HF.
    apply in_or_app. right. left. reflexivity.
  - inversion H; subst. eapply IH; eauto.
Qed.

(** X9. Sorting on rounded scores follows the unrounded similarity up
    to 0.0001: when the simple recommender lists [r1] before [r2], the
    cosine similarity of [r1]'s article to the profile is not more than
    0.0001 below that of [r2]'s. *)
Theorem X9_ranking_follows_similarity :
  forall (pf : Platform) (self : BaseRecommender) uid av reads top_n
         before r1 between r2 after,
    Simple.recommend_for_user self uid av reads top_n =
      Ok (before ++ r1 :: between ++ r2 :: after) ->
    exists v0 vs profile v1 v2,
      Simple.read_vectors self av reads = Ok (v0 :: vs) /\
      np_mean_axis0 v0 vs = Ok profile /\
      _get_article_vector self (article_id r1) = Ok v1 /\
      _get_article_vector self (article_id r2) = Ok v2 /\
      score r2 <= score r1 /\
      cos_row profile v2 - (1 # 10000) <= cos_row profile v1.
Proof.
  intros pf self uid av reads top_n before r1 between r2 after H.
  assert (Hs : score r2 <= score r1).
  { destruct (simple_contract _ _ _ _ _ _ H) as (_ & Hsorted & _).
    apply (StronglySorted_app_pair _ _ _ _ _ _ _ Hsorted). }
  assert (In1 : In r1 (before ++ r1 :: between ++ r2 :: after)).
  { apply in_or_app. right. left. reflexivity. }
  assert (In2 : In r2 (before ++ r1 :: between ++ r2 :: after)).
  { apply in_or_app. right. right. apply in_or_app. right. left.
    reflexivity. }
  destruct (simple_record_origin _ _ _ _ _ _ _ H In1)
    as (v0 & vs & profile & v1 & _ & _ & Hr & Hm & Hg1 & _ & _ & Hs1 & _).
  destruct (simple_record_origin _ _ _ _ _ _ _ H In2)
    as (v0' & vs' & profile' & v2 & _ & _ & Hr' & Hm' & Hg2 & _ & _ & Hs2 & _).
  rewrite Hr in Hr'. inversion Hr'; subst v0' vs'.
  rewrite Hm in Hm'. inversion Hm'; subst profile'.
  exists v0, vs, profile, v1, v2. repeat split; auto.
  pose proof (round4_bounds (cos_row profile v1)) as [_ B1].
  pose proof (round4_bounds (cos_row profile v2)) as [B2 _].
  rewrite <- Hs1 in B1. rewrite <- Hs2 in B2. lra.
Qed.

Lemma X9_ranking_follows_similarity_witness :
  exists v0 vs profile v1 v2,
    Simple.read_vectors Cases.abc Cases.abc_corpus ["a"%string] =
      Ok (v0 :: vs) /\
    np_mean_axis0 v0 vs = Ok profile /\
    _get_article_vector Cases.abc "c"%string = Ok v1 /\
    _get_article_vector Cases.abc "b"%string = Ok v2 /\
    0 # 10000 <= 6000 # 10000 /\
    cos_row (pf := Examples.platform) profile v2 - (1 # 10000) <=
    cos_row (pf := Examples.platform) profile v1.
Proof.
  exact (X9_ranking_follows_similarity Examples.platform Cases.abc
           "u1"%string Cases.abc_corpus ["a"%string] 5 []
           (Cases.simple_rec "c" "C" (6000 # 10000)) []
           (Cases.simple_rec "b" "B" (0 # 10000)) [] eq_refl).
Defined.

(* ================================================================= *)
(** * When the recommenders return *)

Section Returns.
Context {pf : Platform}.

Lemma simple_candidates_total : forall self ids reads,
  (forall aid, In aid ids ->
     exists a, dict_get aid (article_vectors self) = Some a) ->
  exists cs,
    Simple.candidates self ids reads = Ok cs /\
    Forall (fun c => exists a,
              dict_get (fst c) (article_vectors self) = Some a /\
              vector a = snd c) cs.
Proof.
  induction ids as [| aid ids IH]; simpl; intros reads H.
  - exists []. split; [reflexivity | constructor].
  - destruct (IH reads) as (cs & Hcs & HF); [auto |].
    destruct (str_in aid reads); [eauto |].
    destruct (H aid) as (a & Ha); [auto |].
    unfold _get_article_vector, dict_item. rewrite Ha. simpl.
    rewrite Hcs. simpl. eexists. split; [reflexivity |].
    constructor; [| exact HF]. simpl. eauto.
Qed.

Lemma simple_records_total : forall av ps,
  Forall (fun p => exists a, dict_get (fst p) av = Some a /\
                             metadata a <> None) ps ->
  exists recs, mapM (Simple.record av) ps = Ok recs.
Proof.
  intros av ps H. apply mapM_total. intros [aid sc] Hin.
  rewrite Forall_forall in H. destruct (H _ Hin) as (a & Ha & Hm).
  simpl in Ha. unfold Simple.record, dict_item. rewrite Ha. simpl.
  destruct (metadata a); [eauto | congruence].
Qed.

Lemma advanced_records_total : forall self av ps,
  Forall (fun p => exists a, dict_get (fst (fst p)) av = Some a /\
                             metadata a <> None) ps ->
  exists recs, mapM (Advanced.record self av) ps = Ok recs.
Proof.
  intros self av ps H. apply mapM_total. intros [[aid sem] [td cs]] Hin.
  rewrite Forall_forall in H. destruct (H _ Hin) as (a & Ha & Hm).
  simpl in Ha. unfold Advanced.record, dict_item. rewrite Ha. simpl.
  destruct (metadata a); [eauto | congruence].
Qed.

Lemma simple_returns : forall self d uid reads top_n,
  well_formed self d ->
  exists recs,
    Simple.recommend_for_user self uid (article_vectors self) reads top_n =
    Ok recs.
Proof.
  intros self d uid reads top_n (Hd & Hids & Hart).
  unfold Simple.recommend_for_user.
  destruct reads as [| r0 reads']; [eauto |].
  remember (r0 :: reads') as reads.
  destruct (read_vectors_own_corpus self reads) as (vs & Hvs & HF).
  rewrite Hvs. cbn [bind].
  destruct vs as [| v0 rest]; [eauto |].
  assert (Hdim : Forall (fun v => length v = d) (v0 :: rest)).
  { eapply Forall_impl; [| exact HF].
    intros v (aid & a & Ha & <-). apply (Hart aid a Ha). }
  destruct (np_mean_axis0_uniform d v0 rest Hdim) as (profile & Hm).
  rewrite Hm. cbn [bind].
  destruct (np_mean_axis0_ok _ _ _ Hm) as [Hlen _].
  assert (Hv0 : length v0 = d) by (inversion Hdim; assumption).
  destruct (simple_candidates_total self (article_ids self) reads Hids)
    as (cands & Hc & HFc).
  rewrite Hc. cbn [bind].
  destruct cands as [| c0 cands']; [eauto |].
  remember (c0 :: cands') as cands.
  rewrite (cosine_similarity_rows profile).
  - cbn [bind].
    destruct (simple_records_total (article_vectors self)
                (combine (map fst cands)
                         (map (cos_row profile) (map snd cands))))
      as (recs & Hrecs).
    { apply Forall_forall. intros [aid sc] Hp. apply in_combine_l in Hp.
      apply in_map_iff in Hp. destruct Hp as (c & Hfst & Hcin).
      rewrite Forall_forall in HFc. destruct (HFc c Hcin) as (a & Ha & _).
      exists a. simpl. rewrite <- Hfst. split; [exact Ha |].
      apply (Hart _ _ Ha). }
    rewrite Hrecs. cbn [bind]. eauto.
  - rewrite Hlen, Hv0. exact Hd.
  - subst cands. discriminate.
  - apply Forall_forall. intros v Hv.
    apply in_map_iff in Hv. destruct Hv as (c & <- & Hcin).
    rewrite Forall_forall in HFc. destruct (HFc c Hcin) as (a & Ha & <-).
    rewrite Hlen, Hv0. apply (Hart _ _ Ha).
Qed.

Lemma advanced_returns_with_simple : forall self uid av reads top_n rs,
  Qeq_bool (time_decay_days self) 0 = false ->
  Simple.recommend_for_user (base self) uid av reads top_n = Ok rs ->
  exists ra,
    Advanced.recommend_for_user self uid av reads top_n = Ok ra.
Proof.
  intros self uid av reads top_n rs Ht H.
  unfold Simple.recommend_for_user in H.
  unfold Advanced.recommend_for_user.
  destruct reads as [| r0 reads']; [eauto |].
  remember (r0 :: reads') as reads.
  inv_bind H. rename x into user_vecs.
  rewrite (read_vectors_history _ _ _ _ E). cbn [bind].
  destruct user_vecs as [| v0 vs]; [eauto |].
  inv_bind H. rewrite E0. cbn [bind].
  inv_bind H. rename x0 into cands.
  destruct cands as [| c0 cands'].
  { destruct (candidates_advanced self av _ _ _ E1) as (cands' & Hc' & Hm);
      [constructor |].
    rewrite Hc'. cbn [bind]. destruct cands'; [eauto | discriminate]. }
  remember (c0 :: cands') as cands.
  inv_bind H. inv_bind H. clear H.
  pose proof (cosine_similarity_ok _ _ _ E2) as [Hsim _].
  assert (Hmeta : Forall (fun aid => exists a, dict_get aid av = Some a /\
                                               metadata a <> None)
                         (map fst cands)).
  { apply mapM_Forall2 in E3.
    rewrite Hsim, (map_map snd (cos_row x)), combine_map_same in E3.
    apply Forall2_map_left in E3.
    apply Forall_forall. intros aid Haid.
    apply in_map_iff in Haid. destruct Haid as (c & <- & Hcin).
    clear - E3 Hcin. induction E3 as [| c' r l rs Hr _ IH];
      [contradiction |].
    destruct Hcin as [-> | Hcin]; [| auto].
    apply simple_record_ok in Hr.
    destruct Hr as (_ & _ & _ & _ & a & m & Ha & Hm & _).
    exists a. split; [exact Ha | congruence]. }
  assert (Hav : Forall (fun aid => exists a, dict_get aid av = Some a)
                       (map fst cands)).
  { eapply Forall_impl; [| exact Hmeta]. intros aid (a & Ha & _). eauto. }
  destruct (candidates_advanced self av _ _ _ E1 Hav) as (acands & Hac & Hm).
  rewrite Hac. cbn [bind].
  destruct acands as [| a0 acands'].
  { simpl in Hm. subst cands. discriminate. }
  remember (a0 :: acands') as acands.
  assert (Hvec : map (fun c => snd (fst c)) acands = map snd cands).
  { rewrite <- Hm, map_map. reflexivity. }
  assert (Hidm : map (fun c => fst (fst c)) acands = map fst cands).
  { rewrite <- Hm, map_map. reflexivity. }
  rewrite Hvec, E2. cbn [bind].
  destruct (signals_total self (cluster_history_of av reads)
              (combine (map (fun c => fst (fst c)) acands) (map snd acands))
              Ht) as (sigs & Hsigs).
  rewrite Hsigs. cbn [bind].
  destruct (advanced_records_total self av
              (combine (combine (map (fun c => fst (fst c)) acands) x0) sigs))
    as (ra & Hra).
  { apply Forall_forall. intros [[aid sem] sig] Hp.
    apply in_combine_l in Hp. apply in_combine_l in Hp.
    rewrite Hidm in Hp. rewrite Forall_forall in Hmeta. simpl. auto. }
  rewrite Hra. cbn [bind]. eauto.
Qed.

End Returns.

(** X10. On its own corpus, when the stored vectors all have one
    non-zero length and every article has metadata, the simple
    recommender returns for every read list and [top_n]; so does the
    advanced recommender unless [time_decay_days] is 0. *)
Theorem X10_returns_on_well_formed_corpus :
  forall (pf : Platform) (adv : AdvancedRecommender) d uid reads top_n,
    well_formed (base adv) d ->
    (exists recs,
        Simple.recommend_for_user (base adv) uid
          (article_vectors (base adv)) reads top_n = Ok recs) /\
    (~ time_decay_days adv == 0 ->
     exists recs,
       Advanced.recommend_for_user adv uid
         (article_vectors (base adv)) reads top_n = Ok recs).
Proof.
  intros pf adv d uid reads top_n Hwf.
  destruct (simple_returns (base adv) d uid reads top_n Hwf) as (rs & Hrs).
  split; [eauto |].
  intros Ht. eapply advanced_returns_with_simple; [| exact Hrs].
  destruct (Qeq_bool (time_decay_days adv) 0) eqn:E; [| reflexivity].
  apply Qeq_bool_iff in E. contradiction.
Qed.

Lemma abc_well_formed : well_formed Cases.abc 2.
Proof.
  split; [discriminate |]. split.
  - intros aid [<- | [<- | [<- | []]]]; eexists; reflexivity.
  - intros aid a H. simpl in H.
    repeat match type of H with
           | (if ?c then _ else _) = _ => destruct c
           end;
      try discriminate; inversion H; subst; simpl;
      (split; [reflexivity | discriminate]).
Qed.

Lemma X10_returns_on_well_formed_corpus_witness :
  (exists recs,
      Simple.recommend_for_user (pf := Examples.platform) Cases.abc
        "u1"%string Cases.abc_corpus ["a"%string] 5 = Ok recs) /\
  (~ 30 == 0 ->
   exists recs,
     Advanced.recommend_for_user (pf := Examples.platform)
       (Examples.advanced Cases.abc (3 # 10) (2 # 10))
       "u1"%string Cases.abc_corpus ["a"%string] 5 = Ok recs).
Proof.
  exact (X10_returns_on_well_formed_corpus Examples.platform
           (Examples.advanced Cases.abc (3 # 10) (2 # 10)) 2
           "u1"%string ["a"%string] 5 abc_well_formed).
Defined.

(** A loaded corpus is well formed when its kept articles have vectors
    of one length and all carry metadata. *)
Lemma load_well_formed : forall embeddings profiles self d,
  _load_data embeddings profiles = Ok self ->
  (forall p, In p (article_vectors self) ->
     length (vector (snd p)) = d /\ metadata (snd p) <> None) ->
  well_formed self d.
Proof.
  intros embeddings profiles self d H Hall.
  destruct (load_ok_shape _ _ _ H)
    as (aid0 & first & rest & Ev & Hav & Hids & _ & _).
  split; [| split].
  - assert (Hin : In (aid0, first) (article_vectors self))
      by (rewrite Hav, Ev; left; reflexivity).
    destruct (Hall _ Hin) as [Hlen _]. simpl in Hlen.
    assert (Hne : vector first <> []).
    { rewrite Hav in Hin.
      eapply valid_articles_nonempty_vectors; eauto. }
    intros Hd. subst d. destruct (vector first); [congruence | discriminate].
  - intros aid Hin. apply dict_get_of_key. rewrite Hav, <- Hids. exact Hin.
  - intros aid a Ha. apply dict_get_In in Ha. apply (Hall (aid, a) Ha).
Qed.

(* ================================================================= *)
(** * The users of a batch *)

Lemma dict_set_new_key : forall (V : Type) k (v : V) d,
  ~ In k (dict_keys d) -> dict_set k v d = d ++ [(k, v)].
Proof.
  induction d as [| [k' v'] d IH]; simpl; intros H; [reflexivity |].
  destruct (String.eqb k k') eqn:E.
  - apply String.eqb_eq in E. subst. exfalso. auto.
  - rewrite IH by auto. reflexivity.
Qed.

Section BatchUsers.
Context {Self : Type}.
Context (recommend_for_user :
           Self -> string -> Dict Article -> list string -> Z ->
           result (list Recommendation)).
Context (base_of : Self -> BaseRecommender).

Lemma generate_loop_keys : forall self top_n profiles acc,
  NoDup (dict_keys acc ++ dict_keys profiles) ->
  dict_keys (generate_loop recommend_for_user base_of self profiles
                           top_n acc) =
  dict_keys acc ++
  dict_keys (filter (fun p => returned (recommend_for_user self (fst p)
                                 (article_vectors (base_of self))
                                 (snd p) top_n))
                    profiles).
Proof.
  intros self top_n.
  induction profiles as [| [k reads] profiles IH]; simpl; intros acc Hnd.
  - rewrite app_nil_r. reflexivity.
  - destruct (recommend_for_user self k _ reads top_n) as [recs | e];
      simpl.
    + assert (Hk : ~ In k (dict_keys acc)).
      { intros Hin. apply NoDup_remove_2 in Hnd. apply Hnd.
        apply in_or_app. left. exact Hin. }
      rewrite IH.
      * rewrite dict_set_new_key by exact Hk.
        unfold dict_keys. rewrite map_app, <- app_assoc. reflexivity.
      * rewrite dict_set_new_key by exact Hk.
        unfold dict_keys in *. rewrite map_app, <- app_assoc. exact Hnd.
    + apply IH. apply NoDup_remove_1 in Hnd. exact Hnd.
Qed.

End BatchUsers.

(** X11. With distinct user ids, the user ids of the batch output are
    the ids of the profiles whose call returned, in the order of the
    profiles, in both strategies: no user is listed twice and none that
    has no profile. *)
Theorem X11_batch_users :
  forall (pf : Platform) (simple : BaseRecommender)
         (adv : AdvancedRecommender) top_n,
    (NoDup (dict_keys (user_profiles simple)) ->
     dict_keys (generate_all_recommendations Simple.recommend_for_user
                  (fun s => s) simple top_n) =
     dict_keys (filter (fun p => returned
                          (Simple.recommend_for_user simple (fst p)
                             (article_vectors simple) (snd p) top_n))
                       (user_profiles simple))) /\
    (NoDup (dict_keys (user_profiles (base adv))) ->
     dict_keys (generate_all_recommendations Advanced.recommend_for_user
                  base adv top_n) =
     dict_keys (filter (fun p => returned
                          (Advanced.recommend_for_user adv (fst p)
                             (article_vectors (base adv)) (snd p) top_n))
                       (user_profiles (base adv)))).
Proof.
  intros pf simple adv top_n. split; intros Hnd;
    unfold generate_all_recommendations.
  - rewrite (generate_loop_keys Simple.recommend_for_user (fun s => s));
      [reflexivity | exact Hnd].
  - rewrite (generate_loop_keys Advanced.recommend_for_user base);
      [reflexivity | exact Hnd].
Qed.

Lemma X11_batch_users_witness :
  dict_keys (generate_all_recommendations
               (Advanced.recommend_for_user (pf := Examples.platform))
               base (Examples.advanced Examples.mixed (3 # 10) (2 # 10)) 5) =
  dict_keys (filter (fun p => returned
                       (Advanced.recommend_for_user
                          (pf := Examples.platform)
                          (Examples.advanced Examples.mixed (3 # 10) (2 # 10))
                          (fst p) (article_vectors Examples.mixed)
                          (snd p) 5))
                    (user_profiles Examples.mixed)).
Proof.
  refine (proj2 (X11_batch_users Examples.platform Examples.mixed
                   (Examples.advanced Examples.mixed (3 # 10) (2 # 10)) 5)
                _).
  apply NoDup_three; discriminate.
Defined.

Lemma filter_all : forall (A : Type) (f : A -> bool) l,
  (forall x, In x l -> f x = true) -> filter f l = l.
Proof.
  induction l as [| x l IH]; simpl; intros H; [reflexivity |].
  rewrite H by auto. f_equal. auto.
Qed.

(** X12. After a successful load of embeddings whose kept articles have
    vectors of one length and all carry metadata, the batch of the
    simple recommender has an entry for every user profile (distinct
    ids), in the order of the profiles; so has the batch of the advanced
    recommender when [time_decay_days] is not 0. *)
Theorem X12_batch_is_complete_on_clean_corpus :
  forall (pf : Platform) embeddings profiles self d dw tdd cw top_n,
    _load_data embeddings profiles = Ok self ->
    (forall p, In p (article_vectors self) ->
       length (vector (snd p)) = d /\ metadata (snd p) <> None) ->
    NoDup (dict_keys profiles) ->
    dict_keys (generate_all_recommendations Simple.recommend_for_user
                 (fun s => s) self top_n) = dict_keys profiles /\
    (~ tdd == 0 ->
     dict_keys (generate_all_recommendations Advanced.recommend_for_user
                  base
                  {| base := self; diversity_weight := dw;
                     time_decay_days := tdd; cluster_weight := cw |}
                  top_n) = dict_keys profiles).
Proof.
  intros pf embeddings profiles self d dw tdd cw top_n Hload Hall Hnd.
  pose proof (load_well_formed _ _ _ _ Hload Hall) as Hwf.
  destruct (load_ok_shape _ _ _ Hload) as (_ & _ & _ & _ & _ & _ & _ & Hp).
  set (adv := {| base := self; diversity_weight := dw;
                 time_decay_days := tdd; cluster_weight := cw |}).
  split; [| intros Ht]; unfold generate_all_recommendations.
  - rewrite (generate_loop_keys Simple.recommend_for_user (fun s => s))
      by (rewrite Hp; exact Hnd).
    simpl. rewrite filter_all; [rewrite Hp; reflexivity |].
    intros [u reads] _. simpl.
    destruct (simple_returns self d u reads top_n Hwf) as (recs & ->).
    reflexivity.
  - rewrite (generate_loop_keys Advanced.recommend_for_user base)
      by (simpl; rewrite Hp; exact Hnd).
    simpl. rewrite filter_all; [rewrite Hp; reflexivity |].
    intros [u reads] _. simpl.
    destruct (simple_returns self d u reads top_n Hwf) as (rs & Hrs).
    destruct (advanced_returns_with_simple adv u (article_vectors self)
                reads top_n rs) as (ra & Hra); [| exact Hrs |].
    + simpl. destruct (Qeq_bool tdd 0) eqn:E; [| reflexivity].
      apply Qeq_bool_iff in E. contradiction.
    + simpl in Hra. rewrite Hra. reflexivity.
Qed.

Lemma X12_batch_is_complete_on_clean_corpus_witness :
  dict_keys (generate_all_recommendations
               (Simple.recommend_for_user (pf := Examples.platform))
               (fun s => s) Cases.abc 5) = dict_keys Cases.abc_profiles /\
  (~ 30 == 0 ->
   dict_keys (generate_all_recommendations
                (Advanced.recommend_for_user (pf := Examples.platform))
                base
                {| base := Cases.abc; diversity_weight := 3 # 10;
                   time_decay_days := 30; cluster_weight := 2 # 10 |}
                5) = dict_keys Cases.abc_profiles).
Proof.
  refine (X12_batch_is_complete_on_clean_corpus Examples.platform
            Cases.abc_embeddings Cases.abc_profiles Cases.abc 2
            (3 # 10) 30 (2 # 10) 5 eq_refl _ _).
  - intros p [<- | [<- | [<- | []]]]; (split; [reflexivity | discriminate]).
  - apply NoDup_three; discriminate.
Defined.

(* ================================================================= *)
(** * More on maximal marginal relevance *)

Lemma map_nth_seq_id : forall (A : Type) (l : list A) d,
  map (fun i => nth i l d) (seq 0 (length l)) = l.
Proof.
  induction l as [| x l IH]; intros d; simpl; [reflexivity |].
  f_equal. rewrite <- seq_shift, map_map. apply IH.
Qed.

Lemma NoDup_map_nth : forall (A : Type) (l : list A) d indices,
  NoDup l -> NoDup indices ->
  Forall (fun i => (i < length l)%nat) indices ->
  NoDup (map (fun i => nth i l d) indices).
Proof.
  intros A l d indices Hl Hi HF.
  induction Hi as [| i indices Hnin Hi IH]; simpl; [constructor |].
  inversion HF as [| ? ? Hlt HF']; subst.
  constructor; [| auto].
  intros Hin. apply in_map_iff in Hin. destruct Hin as (j & Hj & Hjin).
  rewrite Forall_forall in HF'.
  assert (j = i).
  { apply (proj1 (NoDup_nth l d) Hl); auto. }
  subst j. contradiction.
Qed.

Lemma mapM_index_raise : forall (A : Type) (l : list A) indices,
  Exists (fun i => (length l <= i)%nat) indices ->
  mapM (Advanced.index l) indices = Raise IndexError.
Proof.
  intros A l indices H.
  induction indices as [| i indices IH]; [inversion H |].
  cbn [mapM]. unfold Advanced.index at 1.
  destruct (nth_error l i) as [a |] eqn:E; [| reflexivity].
  cbn [bind]. inversion H as [? ? Hi | ? ? Hrest]; subst.
  - apply nth_error_None in Hi. congruence.
  - rewrite (IH Hrest). reflexivity.
Qed.

Section MMRMore.
Context {pf : Platform}.

(** The selection behind a result of the utility. *)
Lemma mmr_selection : forall q cv ids lam N,
  cv <> [] ->
  length ids = length cv ->
  length q <> O ->
  Forall (fun r => length r = length q) cv ->
  exists selected,
    Advanced._maximal_marginal_relevance q cv ids lam N =
      Ok (map (fun i => (nth i ids EmptyString, relevance_of q cv i))
              selected) /\
    NoDup selected /\
    Forall (fun i => (i < length cv)%nat) selected /\
    Z.of_nat (length selected) =
      Z.min (Z.max N 1) (Z.of_nat (length cv)).
Proof.
  intros q cv ids lam N Hne Hids Hq Hrows.
  unfold Advanced._maximal_marginal_relevance.
  rewrite (cosine_similarity_rows q Hq cv Hne Hrows). cbn [bind].
  set (sims := map (cos_row q) cv).
  assert (Hsne : sims <> []).
  { unfold sims. destruct cv; [congruence | discriminate]. }
  destruct (np_argmax_spec sims Hsne) as [Hlt _].
  assert (Hlen : length sims = length cv) by (unfold sims; apply length_map).
  rewrite Hlen in Hlt.
  set (i0 := np_argmax sims) in *.
  assert (Hin : In i0 (seq 0 (length ids))) by (apply in_seq; lia).
  destruct (list_remove_ok i0 _ Hin) as (others & Hrem & Hperm).
  rewrite Hrem. cbn [bind].
  assert (Hrange : Forall (fun i => (i < length cv)%nat) (i0 :: others)).
  { eapply Permutation_Forall; [exact Hperm |].
    apply Forall_forall. intros x Hx. apply in_seq in Hx. lia. }
  assert (Hcount : length cv = S (length others)).
  { pose proof (Permutation_length Hperm) as Hp.
    rewrite length_seq in Hp. simpl in Hp. lia. }
  destruct (mmr_loop_greedy q cv lam N Hq Hrows (length others) [i0] others)
    as (final & Hloop & _ & Hl & Hi & Hnd).
  { lia. }
  { inversion Hrange; assumption. }
  rewrite Hloop. cbn [bind].
  assert (Hfin : Forall (fun i => (i < length cv)%nat) final).
  { apply Forall_forall. intros x Hx. rewrite Forall_forall in Hrange.
    apply Hrange. destruct (Hi x Hx) as [[<- | []] | Hr];
      [left | right]; auto. }
  exists final. split; [| split; [| split; [exact Hfin |]]].
  - apply mapM_ok_map. intros x Hx.
    rewrite Forall_forall in Hfin. specialize (Hfin x Hx).
    rewrite (index_ok _ ids x EmptyString) by lia. cbn [bind].
    rewrite (index_ok _ sims x 0) by lia. cbn [bind].
    unfold sims. rewrite (nth_map_in_range _ _ _ _ [] Hfin). reflexivity.
  - apply Hnd. eapply Permutation_NoDup; [exact Hperm |]. apply seq_NoDup.
  - rewrite Hl. simpl length. lia.
Qed.

End MMRMore.

(** X13. On a well-shaped input the MMR utility returns candidates of
    the input with their own cosine similarity to the query; with
    distinct ids no id is returned twice; and when [top_n] is at least
    the number of candidates the returned ids are a rearrangement of all
    candidate ids. *)
Theorem X13_mmr_returns_candidates :
  forall (pf : Platform) (query_vector : Vec) (candidate_vectors : list Vec)
         (candidate_ids : list string) (lambda_param : Q) (top_n : Z),
    candidate_vectors <> [] ->
    length candidate_ids = length candidate_vectors ->
    length query_vector <> O ->
    Forall (fun r => length r = length query_vector) candidate_vectors ->
    exists out,
      Advanced._maximal_marginal_relevance query_vector candidate_vectors
        candidate_ids lambda_param top_n = Ok out /\
      (forall p, In p out ->
         exists i, (i < length candidate_vectors)%nat /\
                   nth_error candidate_ids i = Some (fst p) /\
                   snd p = cos_row query_vector
                                   (nth i candidate_vectors [])) /\
      (NoDup candidate_ids -> NoDup (map fst out)) /\
      ((Z.of_nat (length candidate_vectors) <= top_n)%Z ->
       Permutation (map fst out) candidate_ids).
Proof.
  intros pf q cv ids lam N Hne Hids Hq Hrows.
  destruct (mmr_selection q cv ids lam N Hne Hids Hq Hrows)
    as (selected & Hout & Hnd & Hrange & Hlen).
  eexists. split; [exact Hout |]. unfold Vec in *.
  assert (Hfst : map fst (map (fun i => (nth i ids EmptyString,
                                         relevance_of q cv i)) selected) =
                 map (fun i => nth i ids EmptyString) selected).
  { rewrite map_map. reflexivity. }
  split; [| split].
  - intros p Hp. apply in_map_iff in Hp. destruct Hp as (i & <- & Hi).
    rewrite Forall_forall in Hrange. specialize (Hrange i Hi).
    exists i. split; [exact Hrange |]. split; [| reflexivity].
    simpl. apply nth_error_nth'. rewrite Hids. exact Hrange.
  - intros Hdup. rewrite Hfst. apply NoDup_map_nth; auto.
    rewrite Hids. exact Hrange.
  - intros Hn. rewrite Hfst.
    assert (Hperm : Permutation selected (seq 0 (length ids))).
    { apply NoDup_Permutation_bis; [exact Hnd | |].
      - rewrite length_seq. lia.
      - intros x Hx. rewrite Forall_forall in Hrange.
        apply in_seq. specialize (Hrange x Hx). lia. }
    rewrite (Permutation_map _ Hperm), map_nth_seq_id. reflexivity.
Qed.

Lemma X13_mmr_returns_candidates_witness :
  exists out,
    Advanced._maximal_marginal_relevance (pf := Examples.platform)
      [1; 0] [[1; 0]; [1; 1]; [0; 1]] ["x"; "y"; "z"]%string (1 # 2) 7 =
      Ok out /\
    (forall p, In p out ->
       exists i, (i < 3)%nat /\
                 nth_error ["x"; "y"; "z"]%string i = Some (fst p) /\
                 snd p = cos_row (pf := Examples.platform) [1; 0]
                           (nth i [[1; 0]; [1; 1]; [0; 1]] [])) /\
    (NoDup ["x"; "y"; "z"]%string -> NoDup (map fst out)) /\
    ((3 <= 7)%Z -> Permutation (map fst out) ["x"; "y"; "z"]%string).
Proof.
  refine (X13_mmr_returns_candidates Examples.platform
            [1; 0] [[1; 0]; [1; 1]; [0; 1]] ["x"; "y"; "z"]%string
            (1 # 2) 7 _ eq_refl _ _).
  - discriminate.
  - discriminate.
  - repeat constructor.
Defined.

(** X14. Ill-shaped inputs of the MMR utility: an empty candidate
    matrix, a query of dimension 0 or a row of another dimension than
    the query raise [ValueError]; more ids than rows raise [IndexError]
    as soon as a second pick is asked for ([top_n >= 2]). *)
Theorem X14_mmr_shape_errors :
  forall (pf : Platform) (query_vector : Vec) (candidate_vectors : list Vec)
         (candidate_ids : list string) (lambda_param : Q) (top_n : Z),
    ((candidate_vectors = [] \/ length query_vector = O \/
      Exists (fun r => length r <> length query_vector) candidate_vectors) ->
     Advanced._maximal_marginal_relevance query_vector candidate_vectors
       candidate_ids lambda_param top_n = Raise ValueError) /\
    (candidate_vectors <> [] ->
     length query_vector <> O ->
     Forall (fun r => length r = length query_vector) candidate_vectors ->
     (length candidate_vectors < length candidate_ids)%nat ->
     (2 <= top_n)%Z ->
     Advanced._maximal_marginal_relevance query_vector candidate_vectors
       candidate_ids lambda_param top_n = Raise IndexError).
Proof.
  intros pf q cv ids lam N. split.
  - intros H. unfold Advanced._maximal_marginal_relevance, cosine_similarity.
    destruct cv as [| r cv]; [reflexivity |].
    destruct (Nat.eqb (length q) 0) eqn:E0; [reflexivity |].
    destruct (same_length (length q) (r :: cv)) eqn:Es; [| reflexivity].
    exfalso. destruct H as [H | [H | H]].
    + discriminate.
    + apply Nat.eqb_neq in E0. contradiction.
    + apply Exists_exists in H. destruct H as (x & Hx & Hne).
      unfold same_length in Es. rewrite forallb_forall in Es.
      apply Hne. apply Nat.eqb_eq. auto.
  - intros Hne Hq Hrows Hlong HN.
    unfold Advanced._maximal_marginal_relevance.
    pose proof (cosine_similarity_rows q Hq cv Hne Hrows) as Hcos.
    unfold Vec in *. rewrite Hcos. clear Hcos. cbn [bind].
    match goal with
    | |- context [np_argmax ?s] => set (sims := s) in *
    end.
    assert (Hsne : sims <> []).
    { unfold sims. destruct cv; [congruence | discriminate]. }
    destruct (np_argmax_spec sims Hsne) as [Hlt _].
    assert (Hlen : length sims = length cv)
      by (unfold sims; apply length_map).
    rewrite Hlen in Hlt.
    set (i0 := np_argmax sims) in *.
    assert (Hin : In i0 (seq 0 (length ids))) by (apply in_seq; lia).
    destruct (list_remove_ok i0 _ Hin) as (others & Hrem & Hperm).
    rewrite Hrem. cbn [bind].
    assert (Hlast : In (length cv) others).
    { assert (Hs : In (length cv) (seq 0 (length ids)))
        by (apply in_seq; lia).
      eapply Permutation_in in Hs; [| exact Hperm].
      destruct Hs as [Hs | Hs]; [lia | exact Hs]. }
    destruct others as [| o others']; [contradiction |].
    cbn [length Advanced.mmr_loop].
    assert (Hlt1 : (Z.of_nat 1 <? N)%Z = true) by (apply Z.ltb_lt; lia).
    rewrite Hlt1.
    rewrite mapM_index_raise; [reflexivity |].
    apply Exists_exists. exists (length cv). split; [exact Hlast | apply le_n].
Qed.

Lemma X14_mmr_shape_errors_witness :
  Advanced._maximal_marginal_relevance (pf := Examples.platform)
    [1; 0] [[1; 0]; [0; 1]] ["x"; "y"; "z"]%string (1 # 2) 2 =
  Raise IndexError.
Proof.
  refine (proj2 (X14_mmr_shape_errors Examples.platform
                   [1; 0] [[1; 0]; [0; 1]] ["x"; "y"; "z"]%string
                   (1 # 2) 2) _ _ _ _ _).
  - discriminate.
  - discriminate.
  - repeat constructor.
  - simpl. lia.
  - lia.
Defined.

(* ================================================================= *)
(** * The vector cache *)

Lemma cache_drop_get_other : forall k k' (c : LruCache),
  k <> k' -> dict_get k (cache_drop k' c) = dict_get k c.
Proof.
  induction c as [| [k0 v0] c IH]; simpl; intros Hne; [reflexivity |].
  destruct (String.eqb k' k0) eqn:E.
  - apply String.eqb_eq in E. subst k0.
    destruct (String.eqb k k') eqn:E'; [| reflexivity].
    apply String.eqb_eq in E'. contradiction.
  - simpl. destruct (String.eqb k k0); auto.
Qed.

Lemma cache_drop_keys : forall k (c : LruCache),
  NoDup (dict_keys c) ->
  NoDup (dict_keys (cache_drop k c)) /\
  ~ In k (dict_keys (cache_drop k c)) /\
  (In k (dict_keys c) -> length c = S (length (cache_drop k c))).
Proof.
  induction c as [| [k0 v0] c IH]; simpl; intros Hnd.
  - split; [constructor | split; intros []].
  - inversion Hnd as [| ? ? Hk0 Hnd']; subst.
    destruct (String.eqb k k0) eqn:E.
    + apply String.eqb_eq in E. subst k0. repeat split; auto.
    + apply String.eqb_neq in E.
      destruct (IH Hnd') as (IH1 & IH2 & IH3). simpl. repeat split.
      * constructor; [| exact IH1]. intros Hin. apply Hk0.
        unfold dict_keys in *. apply in_map_iff in Hin.
        destruct Hin as ([k1 v1] & Hk1 & Hin). simpl in Hk1. subst k1.
        destruct (dict_get_of_key _ k0 (cache_drop k c)) as (v & Hv).
        { apply in_map_iff. exists (k0, v1). auto. }
        rewrite cache_drop_get_other in Hv by congruence.
        apply dict_get_In_keys in Hv. exact Hv.
      * intros [H | H]; [congruence | contradiction].
      * intros [H | H]; [congruence |]. rewrite (IH3 H). reflexivity.
Qed.

Lemma dict_get_firstn : forall (V : Type) n k (d : Dict V) v,
  dict_get k (firstn n d) = Some v -> dict_get k d = Some v.
Proof.
  induction n as [| n IH]; intros k [| [k' v'] d] v H; simpl in *;
    try discriminate.
  destruct (String.eqb k k'); auto.
Qed.

Lemma NoDup_firstn : forall (A : Type) n (l : list A),
  NoDup l -> NoDup (firstn n l).
Proof.
  intros A n l H. rewrite <- (firstn_skipn n l) in H.
  apply NoDup_app_remove_r in H. exact H.
Qed.

Lemma cached_get_ok : forall cache_size self c aid,
  cache_ok cache_size self c ->
  fst (cached_get_article_vector cache_size self c aid) =
    _get_article_vector self aid /\
  cache_ok cache_size self
    (snd (cached_get_article_vector cache_size self c aid)).
Proof.
  intros n self c aid (Hnd & Hlen & Hval).
  unfold cached_get_article_vector.
  destruct (n <=? 0)%Z eqn:En; [split; [reflexivity | repeat split; auto] |].
  apply Z.leb_gt in En.
  destruct (dict_get aid c) as [v |] eqn:Eg; simpl.
  - split; [symmetry; apply Hval; exact Eg |].
    destruct (cache_drop_keys aid c Hnd) as (D1 & D2 & D3).
    repeat split.
    + simpl. constructor; assumption.
    + simpl. rewrite <- D3; [exact Hlen |].
      eapply dict_get_In_keys; eauto.
    + intros k v' H. simpl in H. destruct (String.eqb k aid) eqn:E.
      * apply String.eqb_eq in E. subst k. inversion H; subst. auto.
      * apply String.eqb_neq in E.
        rewrite cache_drop_get_other in H by exact E. auto.
  - destruct (_get_article_vector self aid) as [v | e] eqn:Ev; simpl;
      (split; [reflexivity |]); [| repeat split; auto].
    repeat split.
    + unfold dict_keys. rewrite <- firstn_map. apply NoDup_firstn.
      simpl. constructor; [| exact Hnd].
      intros Hin. destruct (dict_get_of_key _ _ _ Hin) as (v' & Hv').
      congruence.
    + rewrite length_firstn. lia.
    + intros k v' H. apply dict_get_firstn in H. simpl in H.
      destruct (String.eqb k aid) eqn:E; [| auto].
      apply String.eqb_eq in E. subst k. inversion H; subst. exact Ev.
Qed.

Lemma cached_calls_ok : forall cache_size self aids c,
  cache_ok cache_size self c ->
  fst (cached_calls cache_size self c aids) =
    map (_get_article_vector self) aids /\
  cache_ok cache_size self
    (snd (cached_calls cache_size self c aids)).
Proof.
  intros n self. induction aids as [| aid aids IH]; simpl; intros c Hc.
  - split; [reflexivity | exact Hc].
  - destruct (cached_get_ok n self c aid Hc) as [Hr Hc'].
    destruct (cached_get_article_vector n self c aid) as [r c'].
    simpl in Hr, Hc'. destruct (IH c' Hc') as [Hrs Hc''].
    destruct (cached_calls n self c' aids) as [rs c''].
    simpl in *. split; [congruence | exact Hc''].
Qed.

(** X15. The cache is transparent and bounded: starting from the empty
    cache, any sequence of cached calls on one recommender gives, call by
    call, what the uncached [_get_article_vector] gives (exceptions
    included); the cache then holds at most [cache_size] entries, no id
    twice, each with the vector of that id. *)
Theorem X15_cache_is_transparent :
  forall cache_size self aids,
    fst (cached_calls cache_size self [] aids) =
      map (_get_article_vector self) aids /\
    NoDup (dict_keys (snd (cached_calls cache_size self [] aids))) /\
    (length (snd (cached_calls cache_size self [] aids)) <=
     Z.to_nat cache_size)%nat /\
    forall k v,
      dict_get k (snd (cached_calls cache_size self [] aids)) = Some v ->
      _get_article_vector self k = Ok v.
Proof.
  intros n self aids.
  destruct (cached_calls_ok n self aids []) as [Hr Hc].
  - repeat split; simpl; [constructor | lia | discriminate].
  - split; [exact Hr | exact Hc].
Qed.

(** X16. A vector that was just looked up is served from the cache,
    whatever the recommender's articles are by then: with
    [cache_size >= 1], after a call for an id returned a vector, the
    next call for that id returns the same vector on any recommender,
    also one whose [article_vectors] no longer has the id. *)
Theorem X16_cache_serves_stale_vectors :
  forall cache_size self self' c aid v,
    (1 <= cache_size)%Z ->
    fst (cached_get_article_vector cache_size self c aid) = Ok v ->
    fst (cached_get_article_vector cache_size self'
           (snd (cached_get_article_vector cache_size self c aid)) aid) =
    Ok v.
Proof.
  intros n self self' c aid v Hn H.
  unfold cached_get_article_vector in *.
  assert (En : (n <=? 0)%Z = false) by (apply Z.leb_gt; lia).
  rewrite En in *.
  destruct (dict_get aid c) as [v' |] eqn:Eg; simpl in *.
  - inversion H; subst. rewrite String.eqb_refl. reflexivity.
  - destruct (_get_article_vector self aid) as [v' | e]; simpl in *;
      [| discriminate].
    inversion H; subst.
    destruct (Z.to_nat n) as [| m] eqn:Em; [lia |].
    simpl. rewrite String.eqb_refl. reflexivity.
Qed.

Lemma X16_cache_serves_stale_vectors_witness :
  fst (cached_get_article_vector 128 Examples.mixed
         (snd (cached_get_article_vector 128 Examples.ab [] "b"%string))
         "b"%string) = Ok [0; 1].
Proof.
  refine (X16_cache_serves_stale_vectors 128 Examples.ab Examples.mixed
            [] "b"%string [0; 1] _ eq_refl).
  lia.
Defined.

(* ================================================================= *)
(** * The factory *)

(** X17. [create_recommender] looks only at the lower-cased type name.
    For the name ["simple"] without weight keywords it returns a simple
    recommender over the data [_load_data] returns, and raises what
    [_load_data] raises; for the name ["advanced"] it does the same with
    an advanced recommender holding the given weights and 0.3, 30 and
    0.2 for the missing ones. It returns a recommender in these two
    cases only: any other name raises [ValueError], and a weight keyword
    with the name ["simple"] raises [TypeError]. *)
Theorem X17_factory_dispatch :
  forall recommender_type kwargs embeddings profiles,
    (forall other,
        Factory.lower other = Factory.lower recommender_type ->
        Factory.create_recommender other kwargs embeddings profiles =
        Factory.create_recommender recommender_type kwargs embeddings
                                   profiles) /\
    (forall r,
        Factory.create_recommender recommender_type kwargs embeddings
                                   profiles = inl r ->
        exists b,
          _load_data embeddings profiles = Ok b /\
          ((Factory.lower recommender_type = "simple"%string /\
            kwargs = {| Factory.kw_diversity_weight := None;
                        Factory.kw_time_decay_days := None;
                        Factory.kw_cluster_weight := None |} /\
            r = Factory.IsSimple b) \/
           (Factory.lower recommender_type = "advanced"%string /\
            r = Factory.IsAdvanced
                  {| base := b;
                     diversity_weight :=
                       Factory.with_default
                         (Factory.kw_diversity_weight kwargs) (3 # 10);
                     time_decay_days :=
                       Factory.with_default
                         (Factory.kw_time_decay_days kwargs) 30;
                     cluster_weight :=
                       Factory.with_default
                         (Factory.kw_cluster_weight kwargs) (2 # 10) |}))) /\
    (Factory.lower recommender_type <> "simple"%string ->
     Factory.lower recommender_type <> "advanced"%string ->
     Factory.create_recommender recommender_type kwargs embeddings profiles =
     inr (Factory.Raised ValueError)) /\
    (Factory.lower recommender_type = "simple"%string ->
     kwargs <> {| Factory.kw_diversity_weight := None;
                  Factory.kw_time_decay_days := None;
                  Factory.kw_cluster_weight := None |} ->
     Factory.create_recommender recommender_type kwargs embeddings profiles =
     inr Factory.TypeError) /\
    (Factory.lower recommender_type = "simple"%string ->
     kwargs = {| Factory.kw_diversity_weight := None;
                 Factory.kw_time_decay_days := None;
                 Factory.kw_cluster_weight := None |} ->
     Factory.create_recommender recommender_type kwargs embeddings profiles =
     match _load_data embeddings profiles with
     | Ok b => inl (Factory.IsSimple b)
     | Raise e => inr (Factory.Raised e)
     end) /\
    (Factory.lower recommender_type = "advanced"%string ->
     Factory.create_recommender recommender_type kwargs embeddings profiles =
     match _load_data embeddings profiles with
     | Ok b =>
         inl (Factory.IsAdvanced
                {| base := b;
                   diversity_weight :=
                     Factory.with_default
                       (Factory.kw_diversity_weight kwargs) (3 # 10);
                   time_decay_days :=
                     Factory.with_default
                       (Factory.kw_time_decay_days kwargs) 30;
                   cluster_weight :=
                     Factory.with_default
                       (Factory.kw_cluster_weight kwargs) (2 # 10) |})
     | Raise e => inr (Factory.Raised e)
     end).
Proof.
  intros t kw e p. unfold Factory.create_recommender.
  split; [intros other ->; reflexivity |].
  destruct (String.eqb (Factory.lower t) "simple") eqn:Es.
  - apply String.eqb_eq in Es. rewrite Es.
    destruct kw as [[dw |] [td |] [cw |]]; simpl;
      (split; [intros r H; try discriminate |
               split; [congruence |
                       split; [intros _ Hk; congruence |
                               split; [intros _ Hk; try discriminate Hk;
                                       reflexivity |
                                       intros Ha; discriminate Ha]]]]).
    destruct (_load_data e p) as [b |] eqn:El; inversion H; subst.
    exists b. split; [reflexivity |]. left. auto.
  - apply String.eqb_neq in Es.
    destruct (String.eqb (Factory.lower t) "advanced") eqn:Ea.
    + apply String.eqb_eq in Ea.
      split; [| split; [congruence |
                        split; [congruence | split; [congruence |]]]].
      * intros r H. unfold Advanced.__init__ in H.
        destruct (_load_data e p) as [b |] eqn:El; simpl in H;
          inversion H; subst.
        exists b. split; [reflexivity |]. right. auto.
      * intros _. unfold Advanced.__init__.
        destruct (_load_data e p) as [b |]; reflexivity.
    + apply String.eqb_neq in Ea.
      split; [discriminate |].
      split; [reflexivity |].
      split; [congruence | split; congruence].
Qed.

(* ================================================================= *)
(** * The similar-articles endpoint *)

Section Endpoint.
Context {pf : Platform}.

Lemma advanced_result_records : forall self uid av reads top_n recs,
  Advanced.recommend_for_user self uid av reads top_n = Ok recs ->
  Forall (fun r => exists a m,
            dict_get (article_id r) av = Some a /\
            metadata a = Some m /\
            rec_content r = Some (get_or_empty (content m))) recs.
Proof.
  intros self uid av reads top_n recs H.
  unfold Advanced.recommend_for_user in H.
  destruct reads as [| r0 reads']; [inversion H; constructor |].
  inv_bind H. destruct x as [user_vecs user_clusters].
  destruct user_vecs as [| v0 vs]; [inversion H; constructor |].
  inv_bind H. inv_bind H.
  destruct x0 as [| c0 cands']; [inversion H; constructor |].
  inv_bind H. inv_bind H. inv_bind H. inversion H; subst recs. clear H.
  apply Forall_forall. intros r Hr.
  apply slice_to_incl in Hr.
  eapply Permutation_in in Hr; [| apply sort_desc_perm].
  apply mapM_Forall2 in E4.
  destruct (Forall2_In_r _ _ _ _ _ _ E4 Hr) as ([[aid sem] [td cs]] & _ & Hrec).
  apply advanced_record_ok in Hrec.
  destruct Hrec as (Hid & _ & _ & a & m & Ha & Hm & _ & Hc & _).
  exists a, m. rewrite Hid. auto.
Qed.

Lemma add_content_same : forall av recs,
  Forall (fun r => exists a m,
            dict_get (article_id r) av = Some a /\
            metadata a = Some m /\
            rec_content r = Some (get_or_empty (content m))) recs ->
  mapM (App.add_content av) recs = Ok recs.
Proof.
  intros av recs H. induction H as [| r recs (a & m & Ha & Hm & Hc) _ IH];
    [reflexivity |].
  cbn [mapM]. unfold App.add_content at 1. rewrite Ha, Hm. cbn [bind].
  rewrite IH. cbn [bind]. rewrite <- Hc. destruct r; reflexivity.
Qed.

End Endpoint.

(** X18. The similar-articles endpoint mirrors the recommender: when no
    recommender exists the status is 500; otherwise the status is 200
    with exactly the list [recommend_for_user] returns for the read
    list made of the article alone and [top_n = 5] (the content the
    endpoint writes is the one already there), and 500 when it raises. *)
Theorem X18_similar_articles_mirror_recommender :
  forall (pf : Platform) (r : AdvancedRecommender) aid,
    App.get_similar_articles None aid = App.Status500 /\
    (forall recs,
        Advanced.recommend_for_user r "demo_user"
          (article_vectors (base r)) [aid] 5 = Ok recs ->
        App.get_similar_articles (Some r) aid = App.Status200 recs) /\
    (forall e,
        Advanced.recommend_for_user r "demo_user"
          (article_vectors (base r)) [aid] 5 = Raise e ->
        App.get_similar_articles (Some r) aid = App.Status500).
Proof.
  intros pf r aid. split; [reflexivity |].
  unfold App.get_similar_articles. split.
  - intros recs H. rewrite H. cbn [bind].
    rewrite add_content_same; [reflexivity |].
    eapply advanced_result_records; eauto.
  - intros e H. rewrite H. reflexivity.
Qed.

Lemma X18_similar_articles_mirror_recommender_witness :
  App.get_similar_articles (pf := Examples.platform)
    (Some (Examples.advanced Examples.ab (3 # 10) (2 # 10))) "a"%string =
  App.Status200
    [Examples.b_advanced (3000 # 10000) (10000 # 10000) (0 # 10000)].
Proof.
  exact (proj1 (proj2 (X18_similar_articles_mirror_recommender
                         Examples.platform
                         (Examples.advanced Examples.ab (3 # 10) (2 # 10))
                         "a"%string))
               [Examples.b_advanced (3000 # 10000) (10000 # 10000)
                                    (0 # 10000)]
               eq_refl).
Defined.

(** X19. What the endpoint can answer: for an article id the corpus
    does not know, status 200 with the empty list; and any list it
    answers has at most 5 articles, all of the corpus, none of them the
    article asked about. *)
Theorem X19_similar_articles_answer :
  forall (pf : Platform) (r : AdvancedRecommender) aid,
    (dict_get aid (article_vectors (base r)) = None ->
     App.get_similar_articles (Some r) aid = App.Status200 []) /\
    (forall body,
        App.get_similar_articles (Some r) aid = App.Status200 body ->
        (length body <= 5)%nat /\
        forall article, In article body ->
          article_id article <> aid /\
          In (article_id article) (article_ids (base r))).
Proof.
  intros pf r aid. split.
  - intros Hnone.
    destruct (empty_or_unknown_reads (base r) r "demo_user"%string
                (article_vectors (base r)) [aid] 5) as [_ Ha].
    { unfold retained, dict_mem. simpl. rewrite Hnone. reflexivity. }
    unfold App.get_similar_articles. rewrite Ha. reflexivity.
  - intros body H. unfold App.get_similar_articles in H.
    destruct (Advanced.recommend_for_user r "demo_user"
                (article_vectors (base r)) [aid] 5) as [recs | e] eqn:E;
      [| discriminate].
    cbn [bind] in H.
    rewrite add_content_same in H
      by (eapply advanced_result_records; eauto).
    inversion H; subst body.
    destruct (advanced_contract _ _ _ _ _ _ E)
      as (Hlen & _ & (scored & Hids & Hties) & Hread & _).
    split.
    + assert (H5 : (0 <= 5)%Z) by lia. specialize (Hlen H5). lia.
    + intros article Hin. split.
      * intros Heq. apply (Hread article Hin). left. auto.
      * destruct (Hties (score article)) as (later & Hl).
        assert (Hw : In article (with_score (score article) scored)).
        { rewrite Hl. apply in_or_app. left. unfold with_score.
          apply filter_In. split; [exact Hin | apply Qeq_bool_refl]. }
        unfold with_score in Hw. apply filter_In in Hw.
        destruct Hw as [Hw _]. apply (in_map article_id) in Hw.
        rewrite Hids in Hw. unfold candidate_ids_of in Hw.
        apply filter_In in Hw. tauto.
Qed.

Lemma X19_similar_articles_answer_witness :
  (length [Examples.b_advanced (3000 # 10000) (10000 # 10000) (0 # 10000)]
   <= 5)%nat /\
  forall article,
    In article
       [Examples.b_advanced (3000 # 10000) (10000 # 10000) (0 # 10000)] ->
    article_id article <> "a"%string /\
    In (article_id article) (article_ids Examples.ab).
Proof.
  exact (proj2 (X19_similar_articles_answer Examples.platform
                  (Examples.advanced Examples.ab (3 # 10) (2 # 10))
                  "a"%string)
               [Examples.b_advanced (3000 # 10000) (10000 # 10000)
                                    (0 # 10000)]
               eq_refl).
Defined.

(* ================================================================= *)
(** * The statistics endpoint *)

Lemma zget_zset_same : forall (V : Type) k (v : V) d,
  App.zget k (App.zset k v d) = Some v.
Proof.
  induction d as [| [k' v'] d IH]; simpl.
  - rewrite Z.eqb_refl. reflexivity.
  - destruct (Z.eqb k k') eqn:E; simpl; [rewrite Z.eqb_refl | rewrite E];
      auto.
Qed.

Lemma zget_zset_other : forall (V : Type) k k' (v : V) d,
  k <> k' -> App.zget k (App.zset k' v d) = App.zget k d.
Proof.
  induction d as [| [k0 v0] d IH]; simpl; intros Hne.
  - destruct (Z.eqb k k') eqn:E; [apply Z.eqb_eq in E; contradiction | auto].
  - destruct (Z.eqb k' k0) eqn:E'; simpl.
    + apply Z.eqb_eq in E'. subst k0.
      destruct (Z.eqb k k') eqn:E; [apply Z.eqb_eq in E; contradiction | auto].
    + destruct (Z.eqb k k0); auto.
Qed.

Lemma zget_in_keys : forall (V : Type) k (d : list (Z * V)),
  In k (map fst d) <-> exists v, App.zget k d = Some v.
Proof.
  induction d as [| [k' v'] d IH]; simpl.
  - split; [tauto | intros (v & H); discriminate].
  - destruct (Z.eqb k k') eqn:E.
    + apply Z.eqb_eq in E. subst. split; eauto.
    + apply Z.eqb_neq in E. rewrite <- IH. split; [| auto].
      intros [H | H]; [congruence | exact H].
Qed.

Lemma zset_keys : forall (V : Type) k (v : V) d,
  map fst (App.zset k v d) =
  match App.zget k d with
  | Some _ => map fst d
  | None => map fst d ++ [k]
  end.
Proof.
  induction d as [| [k' v'] d IH]; simpl; [reflexivity |].
  destruct (Z.eqb k k') eqn:E; simpl.
  - apply Z.eqb_eq in E. subst. reflexivity.
  - rewrite IH. destruct (App.zget k d); reflexivity.
Qed.

Lemma zset_sum : forall k n d,
  (App.sum_counts (App.zset k n d) + App.count_of k d =
   App.sum_counts d + n)%nat.
Proof.
  unfold App.count_of.
  induction d as [| [k' n'] d IH]; simpl; [lia |].
  destruct (Z.eqb k k') eqn:E; simpl; lia.
Qed.

Lemma zset_nonzero : forall k m (d : list (Z * nat)),
  m <> O ->
  Forall (fun kv : Z * nat => snd kv <> O) d ->
  Forall (fun kv : Z * nat => snd kv <> O) (App.zset k m d).
Proof.
  intros k m d Hm HF. induction HF as [| [k' n'] d Hk HF IH]; simpl.
  - repeat constructor. exact Hm.
  - destruct (Z.eqb k k'); constructor; simpl; auto.
Qed.

Lemma zget_nonzero : forall c n (d : list (Z * nat)),
  Forall (fun kv : Z * nat => snd kv <> O) d ->
  App.zget c d = Some n -> n <> O.
Proof.
  intros c n d HF. induction HF as [| [k' n'] d Hk HF IH]; simpl;
    intros E; [discriminate |].
  destruct (Z.eqb c k'); [inversion E; subst; exact Hk | auto].
Qed.

Lemma count_cluster_step : forall counts data,
  App.sum_counts (App.count_cluster counts data) =
    S (App.sum_counts counts) /\
  (forall c, App.count_of c (App.count_cluster counts data) =
             (App.count_of c counts +
              if Z.eq_dec (Advanced.cluster_label data) c then 1 else 0)%nat) /\
  (Forall (fun kv : Z * nat => snd kv <> O) counts ->
   Forall (fun kv : Z * nat => snd kv <> O) (App.count_cluster counts data)).
Proof.
  intros counts data. unfold App.count_cluster.
  set (k := Advanced.cluster_label data).
  fold (App.count_of k counts).
  split; [| split].
  - pose proof (zset_sum k (App.count_of k counts + 1) counts). lia.
  - intros c. unfold App.count_of at 1.
    destruct (Z.eq_dec k c) as [<- | Hne].
    + rewrite zget_zset_same. reflexivity.
    + rewrite zget_zset_other by congruence.
      fold (App.count_of c counts). lia.
  - apply zset_nonzero. lia.
Qed.

Lemma cluster_fold : forall (av : Dict Article) counts,
  let result :=
    fold_left (fun counts (entry : string * Article) => App.count_cluster counts (snd entry))
              av counts in
  App.sum_counts result = (App.sum_counts counts + length av)%nat /\
  (forall c, App.count_of c result =
             (App.count_of c counts +
              count_occ Z.eq_dec
                (map (fun e => Advanced.cluster_label (snd e)) av) c)%nat) /\
  (Forall (fun kv : Z * nat => snd kv <> O) counts ->
   Forall (fun kv : Z * nat => snd kv <> O) result).
Proof.
  induction av as [| entry av IH]; intros counts; cbn zeta; simpl.
  - repeat split; auto.
  - destruct (count_cluster_step counts (snd entry)) as (S1 & S2 & S3).
    destruct (IH (App.count_cluster counts (snd entry))) as (I1 & I2 & I3).
    cbn zeta in I1, I2, I3. repeat split.
    + rewrite I1, S1. lia.
    + intros c. rewrite I2, S2.
      destruct (Z.eq_dec (Advanced.cluster_label (snd entry)) c); lia.
    + auto.
Qed.

(** X20. The cluster distribution of the statistics counts every
    article once, under its cluster label or under [-1] when it has
    none: a cluster has an entry exactly when some article carries its
    label, the entry is the number of those articles, and the entries
    add up to the number of articles. *)
Theorem X20_cluster_distribution_counts :
  forall (av : Dict Article),
    let labels := map (fun e => Advanced.cluster_label (snd e)) av in
    App.sum_counts (App.cluster_distribution av) = length av /\
    forall c,
      match App.zget c (App.cluster_distribution av) with
      | Some n => n = count_occ Z.eq_dec labels c /\ In c labels
      | None => ~ In c labels
      end.
Proof.
  intros av labels. unfold App.cluster_distribution.
  destruct (cluster_fold av []) as (H1 & H2 & H3). cbn zeta in *.
  split; [rewrite H1; reflexivity |].
  intros c. specialize (H2 c). unfold App.count_of in H2. simpl in H2.
  fold labels in H2.
  destruct (App.zget c _) as [n |] eqn:E.
  - split; [exact H2 |].
    assert (Hn : n <> O).
    { eapply zget_nonzero; [apply H3; constructor | exact E]. }
    apply (count_occ_In Z.eq_dec). lia.
  - intros Hin. apply (count_occ_In Z.eq_dec) in Hin. lia.
Qed.

Section Freshness.
Context {pf : Platform}.

Lemma freshness_fold : forall (av : Dict Article) c,
  let result :=
    fold_left (fun counts (entry : string * Article) =>
                 App.bump (App.bucket_of (snd entry)) counts) av c in
  let count b :=
    length (filter (fun entry : string * Article =>
                      App.in_bucket b (snd entry)) av) in
  App.today result = (App.today c + count App.Today)%nat /\
  App.this_week result = (App.this_week c + count App.ThisWeek)%nat /\
  App.this_month result = (App.this_month c + count App.ThisMonth)%nat /\
  App.older result = (App.older c + count App.Older)%nat.
Proof.
  induction av as [| entry av IH]; intros c; cbn zeta; simpl.
  - repeat split; lia.
  - specialize (IH (App.bump (App.bucket_of (snd entry)) c)).
    cbn zeta in IH. destruct IH as (I1 & I2 & I3 & I4).
    rewrite I1, I2, I3, I4. unfold App.in_bucket.
    destruct (App.bucket_of (snd entry)); simpl; repeat split; lia.
Qed.

End Freshness.

(** X21. The freshness distribution of the statistics puts every
    article in exactly one bucket, so the four counts add up to the
    number of articles, and each count is the number of articles of that
    bucket; an article without a readable timestamp counts as [older],
    one dated in the future as [this_week]. *)
Theorem X21_freshness_distribution_counts :
  forall (pf : Platform) (av : Dict Article),
    let counts := App.freshness_distribution av in
    let count b :=
      length (filter (fun entry : string * Article =>
                        App.in_bucket b (snd entry)) av) in
    App.sum_buckets counts = length av /\
    App.today counts = count App.Today /\
    App.this_week counts = count App.ThisWeek /\
    App.this_month counts = count App.ThisMonth /\
    App.older counts = count App.Older /\
    (forall data,
       (forall m s, metadata data = Some m -> scraped_at m = Some s ->
                    days_old s = None) ->
       App.bucket_of data = App.Older) /\
    (forall data m s d,
       metadata data = Some m -> scraped_at m = Some s ->
       days_old s = Some d -> (d < 0)%Z ->
       App.bucket_of data = App.ThisWeek).
Proof.
  intros pf av counts count.
  destruct (freshness_fold av
              {| App.today := O; App.this_week := O;
                 App.this_month := O; App.older := O |})
    as (H1 & H2 & H3 & H4).
  cbn zeta in *. simpl in H1, H2, H3, H4.
  fold (App.freshness_distribution av) in H1, H2, H3, H4.
  fold counts in H1, H2, H3, H4.
  split; [| repeat split; auto].
  - unfold App.sum_buckets. rewrite H1, H2, H3, H4. subst count. cbv beta.
    clear. induction av as [| entry av IH]; simpl; [reflexivity |].
    unfold App.in_bucket in *.
    destruct (App.bucket_of (snd entry)); simpl; lia.
  - intros data H. unfold App.bucket_of.
    destruct (metadata data) as [m |]; [| reflexivity].
    destruct (scraped_at m) as [s |] eqn:Es; [| reflexivity].
    rewrite (H m s eq_refl Es). reflexivity.
  - intros data m s d Hm Hs Hd Hneg. unfold App.bucket_of.
    rewrite Hm, Hs, Hd.
    assert (E0 : (d =? 0)%Z = false) by (apply Z.eqb_neq; lia).
    assert (E7 : (d <=? 7)%Z = true) by (apply Z.leb_le; lia).
    rewrite E0, E7. reflexivity.
Qed.

Lemma add_topic_step : forall topics data,
  let k := Advanced.cluster_label data in
  (forall c, App.topics_of c (App.add_topic topics data) =
             App.topics_of c topics ++
             App.titles_of c [(EmptyString, data)]) /\
  map fst (App.add_topic topics data) =
    match App.zget k topics with
    | Some _ => map fst topics
    | None => map fst topics ++ [k]
    end.
Proof.
  intros topics data k. unfold App.add_topic. fold k.
  set (base := match App.zget k topics with
               | Some _ => topics
               | None => App.zset k [] topics
               end).
  assert (Hk : App.zget k base = Some (App.topics_of k topics)).
  { unfold base, App.topics_of.
    destruct (App.zget k topics) eqn:E; [exact E | apply zget_zset_same]. }
  assert (Hother : forall c, c <> k ->
            App.topics_of c base = App.topics_of c topics).
  { intros c Hc. unfold base, App.topics_of.
    destruct (App.zget k topics); [reflexivity |].
    rewrite zget_zset_other by exact Hc. reflexivity. }
  assert (Hkeys : map fst base =
                  match App.zget k topics with
                  | Some _ => map fst topics
                  | None => map fst topics ++ [k]
                  end).
  { unfold base. destruct (App.zget k topics) eqn:E; [reflexivity |].
    rewrite zset_keys, E. reflexivity. }
  assert (Hsame : forall c, App.topics_of c base = App.topics_of c topics).
  { intros c. destruct (Z.eq_dec c k) as [-> | Hc]; [| auto].
    unfold App.topics_of at 1. rewrite Hk. reflexivity. }
  unfold App.titles_of. simpl. fold k.
  destruct (metadata data) as [m |].
  2:{ split; [| exact Hkeys]. intros c. rewrite Hsame.
      destruct (Z.eq_dec k c); simpl; rewrite ?app_nil_r; reflexivity. }
  destruct (title m) as [t |].
  2:{ split; [| exact Hkeys]. intros c. rewrite Hsame.
      destruct (Z.eq_dec k c); simpl; rewrite ?app_nil_r; reflexivity. }
  split.
  - intros c. destruct (Z.eq_dec k c) as [<- | Hc]; simpl.
    + unfold App.topics_of at 1. rewrite zget_zset_same, Hk. reflexivity.
    + unfold App.topics_of at 1. rewrite zget_zset_other by congruence.
      fold (App.topics_of c base). rewrite Hsame, app_nil_r. reflexivity.
  - rewrite zset_keys, Hk. exact Hkeys.
Qed.

Lemma titles_of_cons : forall c (entry : string * Article) av,
  App.titles_of c (entry :: av) =
  App.titles_of c [(EmptyString, snd entry)] ++ App.titles_of c av.
Proof.
  intros c entry av. unfold App.titles_of. simpl.
  rewrite app_nil_r. reflexivity.
Qed.

Lemma topics_fold : forall (av : Dict Article) topics counts,
  map fst topics = map fst counts ->
  let t := fold_left (fun topics (entry : string * Article) =>
                        App.add_topic topics (snd entry)) av topics in
  let n := fold_left (fun counts (entry : string * Article) =>
                        App.count_cluster counts (snd entry)) av counts in
  map fst t = map fst n /\
  forall c, App.topics_of c t = App.topics_of c topics ++ App.titles_of c av.
Proof.
  induction av as [| entry av IH]; intros topics counts Hkeys; cbn zeta;
    cbn [fold_left].
  - split; [exact Hkeys |]. intros c. unfold App.titles_of. simpl.
    rewrite app_nil_r. reflexivity.
  - destruct (add_topic_step topics (snd entry)) as [St Sk]. cbn zeta in Sk.
    assert (Hk' : map fst (App.add_topic topics (snd entry)) =
                  map fst (App.count_cluster counts (snd entry))).
    { rewrite Sk. unfold App.count_cluster. rewrite zset_keys.
      set (k := Advanced.cluster_label (snd entry)).
      destruct (App.zget k topics) eqn:Et;
        destruct (App.zget k counts) eqn:Ec;
        rewrite ?Hkeys; try reflexivity; exfalso.
      - assert (Hin : In k (map fst topics))
          by (apply zget_in_keys; eauto).
        rewrite Hkeys in Hin. apply zget_in_keys in Hin.
        destruct Hin as (v & Hv). congruence.
      - assert (Hin : In k (map fst counts))
          by (apply zget_in_keys; eauto).
        rewrite <- Hkeys in Hin. apply zget_in_keys in Hin.
        destruct Hin as (v & Hv). congruence. }
    destruct (IH _ _ Hk') as [I1 I2]. cbn zeta in I1, I2.
    split; [exact I1 |].
    intros c. rewrite I2, St, (titles_of_cons c entry av), app_assoc.
    reflexivity.
Qed.

Lemma zget_map_firstn : forall c (d : list (Z * list string)),
  App.zget c (map (fun kv => (fst kv, firstn 3 (snd kv))) d) =
  match App.zget c d with
  | Some ts => Some (firstn 3 ts)
  | None => None
  end.
Proof.
  induction d as [| [k ts] d IH]; simpl; [reflexivity |].
  destruct (Z.eqb c k); [reflexivity | exact IH].
Qed.

(** X22. The cluster topics of the statistics list the same clusters as
    the cluster distribution, in the same order, and for each cluster
    the titles of its first three titled articles, in the order of the
    articles. *)
Theorem X22_cluster_topics :
  forall (av : Dict Article),
    map fst (App.cluster_topics av) = map fst (App.cluster_distribution av) /\
    (forall c ts,
        App.zget c (App.cluster_topics av) = Some ts ->
        ts = firstn 3 (App.titles_of c av)) /\
    Forall (fun kv => (length (snd kv) <= 3)%nat) (App.cluster_topics av).
Proof.
  intros av. unfold App.cluster_topics, App.cluster_distribution.
  destruct (topics_fold av [] [] eq_refl) as [Hk Ht]. cbn zeta in Hk, Ht.
  split; [| split].
  - rewrite map_map. simpl. exact Hk.
  - intros c ts H. rewrite zget_map_firstn in H.
    specialize (Ht c). unfold App.topics_of in Ht. simpl in Ht.
    destruct (App.zget c _) as [ts' |]; [| discriminate].
    injection H as <-. rewrite Ht. reflexivity.
  - apply Forall_forall. intros kv Hin. apply in_map_iff in Hin.
    destruct Hin as (kv' & <- & _). cbn [snd]. rewrite length_firstn. lia.
Qed.

(** X24. Writing a user out and reading it back keeps the id and the
    read articles, and a second round trip changes nothing; the user
    itself comes back exactly when its preferences are not [None], which
    are written as the empty dictionary. *)
Theorem X24_user_round_trip :
  forall u : UserModel.User,
    let u' := UserModel.from_dict (UserModel.to_dict u) in
    UserModel.to_dict u' = UserModel.to_dict u /\
    UserModel.id u' = UserModel.id u /\
    UserModel.read_articles u' = UserModel.read_articles u /\
    (u' = u <-> UserModel.preferences u <> None) /\
    (UserModel.preferences u = None -> UserModel.preferences u' = Some []).
Proof.
  intros [i r [[| kv p] |]]; cbn; repeat split; try congruence;
    try discriminate.
Qed.

(* ================================================================= *)
(** * Instances on the example corpora *)

Lemma X5_cluster_similarity_range_witness :
  Advanced._calculate_cluster_similarity [0; 1; 0]%Z 2%Z == 0 /\
  0 <= Advanced._calculate_cluster_similarity [0; 1; 0]%Z 0%Z <= 1.
Proof.
  split.
  - apply (proj2 (proj2 (X5_cluster_similarity_range [0; 1; 0]%Z 2%Z))).
    simpl. intros [H | [H | [H | []]]]; discriminate.
  - exact (proj1 (X5_cluster_similarity_range [0; 1; 0]%Z 0%Z)).
Defined.

Lemma X15_cache_is_transparent_witness :
  _get_article_vector Cases.abc "c" = Ok [3; 4].
Proof.
  apply (proj2 (proj2 (proj2
           (X15_cache_is_transparent 2 Cases.abc
              ["a"; "b"; "a"; "zzz"; "c"]%string)))).
  reflexivity.
Defined.

Lemma X17_factory_dispatch_witness :
  let kwargs := {| Factory.kw_diversity_weight := Some (1 # 2);
                   Factory.kw_time_decay_days := None;
                   Factory.kw_cluster_weight := None |} in
  Factory.create_recommender "Hybrid" kwargs Cases.abc_embeddings
                             Cases.abc_profiles =
    inr (Factory.Raised ValueError) /\
  Factory.create_recommender "Simple" kwargs Cases.abc_embeddings
                             Cases.abc_profiles =
    inr Factory.TypeError /\
  Factory.create_recommender "ADVANCED" kwargs Cases.abc_embeddings
                             Cases.abc_profiles =
  Factory.create_recommender "advanced" kwargs Cases.abc_embeddings
                             Cases.abc_profiles /\
  Factory.create_recommender "Advanced" kwargs Cases.abc_embeddings
                             Cases.abc_profiles =
    inl (Factory.IsAdvanced
           {| base := Cases.abc; diversity_weight := 1 # 2;
              time_decay_days := 30; cluster_weight := 2 # 10 |}) /\
  Factory.create_recommender "SIMPLE"
    {| Factory.kw_diversity_weight := None;
       Factory.kw_time_decay_days := None;
       Factory.kw_cluster_weight := None |}
    Cases.abc_embeddings Cases.abc_profiles =
    inl (Factory.IsSimple Cases.abc).
Proof.
  intros kwargs. split; [| split; [| split; [| split]]].
  - apply (proj1 (proj2 (proj2
             (X17_factory_dispatch "Hybrid" kwargs Cases.abc_embeddings
                                   Cases.abc_profiles))));
      vm_compute; discriminate.
  - apply (proj1 (proj2 (proj2 (proj2
             (X17_factory_dispatch "Simple" kwargs Cases.abc_embeddings
                                   Cases.abc_profiles))))).
    + reflexivity.
    + discriminate.
  - apply (proj1 (X17_factory_dispatch "advanced" kwargs
                    Cases.abc_embeddings Cases.abc_profiles)).
    reflexivity.
  - exact (proj2 (proj2 (proj2 (proj2 (proj2
             (X17_factory_dispatch "Advanced" kwargs Cases.abc_embeddings
                                   Cases.abc_profiles)))))
             eq_refl).
  - exact (proj1 (proj2 (proj2 (proj2 (proj2
             (X17_factory_dispatch "SIMPLE" _ Cases.abc_embeddings
                                   Cases.abc_profiles)))))
             eq_refl eq_refl).
Defined.

Lemma X20_cluster_distribution_counts_witness :
  App.cluster_distribution Cases.abc_corpus = [(0%Z, 2%nat); (1%Z, 1%nat)] /\
  App.sum_counts (App.cluster_distribution Cases.abc_corpus) = 3%nat /\
  ~ In 5%Z (map (fun e : string * Article => Advanced.cluster_label (snd e))
                Cases.abc_corpus).
Proof.
  split; [reflexivity |]. split.
  - exact (proj1 (X20_cluster_distribution_counts Cases.abc_corpus)).
  - exact (proj2 (X20_cluster_distribution_counts Cases.abc_corpus) 5%Z).
Defined.

Lemma X21_freshness_distribution_counts_witness :
  App.bucket_of (pf := Examples.platform)
    {| vector := [1; 0]; cluster := None; metadata := None |} = App.Older /\
  App.sum_buckets
    (App.freshness_distribution (pf := Examples.platform) Cases.abc_corpus) =
  3%nat.
Proof.
  split.
  - apply (proj1 (proj2 (proj2 (proj2 (proj2 (proj2
             (X21_freshness_distribution_counts Examples.platform
                Cases.abc_corpus))))))).
    intros m s H. discriminate H.
  - exact (proj1 (X21_freshness_distribution_counts Examples.platform
                    Cases.abc_corpus)).
Defined.

Lemma X22_cluster_topics_witness :
  ["A"; "C"]%string = firstn 3 (App.titles_of 0 Cases.abc_corpus).
Proof.
  apply (proj1 (proj2 (X22_cluster_topics Cases.abc_corpus))).
  reflexivity.
Defined.

Lemma X24_user_round_trip_witness :
  let u := {| UserModel.id := "u1"%string;
              UserModel.read_articles := ["a"]%string;
              UserModel.preferences := None |} in
  UserModel.preferences (UserModel.from_dict (UserModel.to_dict u)) =
  Some [].
Proof.
  intros u.
  apply (proj2 (proj2 (proj2 (proj2 (X24_user_round_trip u))))).
  reflexivity.
Defined.

(* ================================================================= *)
(** * The profile that scoring uses *)

Lemma np_mean_axis0_multiplicity : forall v0 rest profile,
  np_mean_axis0 v0 rest = Ok profile ->
  multiplicity_mean (v0 :: rest) profile.
Proof.
  intros v0 rest profile H.
  destruct (np_mean_axis0_ok v0 rest profile H) as [Hl Hk].
  unfold multiplicity_mean. split; [discriminate |]. split.
  - unfold np_mean_axis0 in H.
    destruct (same_length (length v0) rest) eqn:Es; [| discriminate].
    unfold same_length in Es. rewrite forallb_forall in Es.
    constructor; [symmetry; exact Hl |].
    apply Forall_forall. intros r Hr. rewrite Hl.
    apply Nat.eqb_eq. auto.
  - intros k Hlt. apply Hk. rewrite <- Hl. exact Hlt.
Qed.

Lemma cluster_history_count : forall av reads c,
  count_occ Z.eq_dec (cluster_history_of av reads) c =
  length (filter (reads_cluster av c) reads).
Proof.
  intros av reads c. unfold cluster_history_of.
  induction reads as [| aid reads IH]; [reflexivity |].
  cbn [flat_map filter]. rewrite count_occ_app, IH.
  unfold reads_cluster at 2.
  destruct (dict_get aid av) as [a |]; [| reflexivity].
  destruct (cluster a) as [c' |]; [| reflexivity].
  simpl. destruct (Z.eq_dec c' c) as [-> | Hne].
  - rewrite Z.eqb_refl. reflexivity.
  - apply Z.eqb_neq in Hne. rewrite Hne. reflexivity.
Qed.

(** C10. In both strategies [recommend_for_user] scores against a
    profile that counts every occurrence of a read id: an id known to
    the corpus is kept as often as it occurs in the read list, one
    vector per occurrence, and the profile is the mean of the kept
    vectors, repetitions included; every returned score (the semantic
    component, for the advanced strategy) is the rounded cosine
    similarity to that profile. The cluster history holds a label as
    often as the read list holds known ids carrying it, and the topic
    component of every record the advanced strategy returns is computed
    from that history. For the read list [a, a, b] over the articles
    [a = (1,0)], [b = (0,1)], [c = (3,4)], both strategies return [c]
    scored against the profile [(2/3, 1/3)], the advanced one (on the
    example platform) with topic [2/3]. *)
Theorem C10_profile_counts_every_occurrence :
  forall (pf : Platform) (self : AdvancedRecommender) uid av reads top_n,
    (forall aid, dict_mem aid av = true ->
       count_occ string_dec (retained av reads) aid =
       count_occ string_dec reads aid) /\
    (forall c,
       count_occ Z.eq_dec (cluster_history_of av reads) c =
       length (filter (reads_cluster av c) reads)) /\
    (forall recs r,
       Simple.recommend_for_user (base self) uid av reads top_n = Ok recs ->
       In r recs ->
       exists kept profile v,
         Forall2 (fun aid x => _get_article_vector (base self) aid = Ok x)
                 (retained av reads) kept /\
         multiplicity_mean kept profile /\
         _get_article_vector (base self) (article_id r) = Ok v /\
         score r = round4 (cos_row profile v)) /\
    (forall recs r,
       Advanced.recommend_for_user self uid av reads top_n = Ok recs ->
       In r recs ->
       exists kept profile v a sc,
         Forall2 (fun aid x => _get_article_vector (base self) aid = Ok x)
                 (retained av reads) kept /\
         multiplicity_mean kept profile /\
         _get_article_vector (base self) (article_id r) = Ok v /\
         dict_get (article_id r) av = Some a /\
         similarity_components r = Some sc /\
         semantic sc = round4 (cos_row profile v) /\
         topic sc =
           round4 (Advanced._calculate_cluster_similarity
                     (cluster_history_of av reads)
                     (Advanced.cluster_label a))) /\
    (exists rs ra sc,
       Simple.recommend_for_user Cases.abc "u1"%string Cases.abc_corpus
         ["a"; "a"; "b"]%string 5 = Ok [rs] /\
       article_id rs = "c"%string /\
       score rs = round4 (cos_row [2 # 3; 1 # 3] [3; 4]) /\
       Advanced.recommend_for_user (pf := Examples.platform)
         (Examples.advanced Cases.abc (3 # 10) (2 # 10)) "u1"%string
         Cases.abc_corpus ["a"; "a"; "b"]%string 5 = Ok [ra] /\
       article_id ra = "c"%string /\
       similarity_components ra = Some sc /\
       semantic sc =
         round4 (cos_row (pf := Examples.platform) [2 # 3; 1 # 3] [3; 4]) /\
       topic sc = round4 (2 # 3)).
Proof.
  intros pf self uid av reads top_n.
  split; [intros aid; apply retained_count |].
  split; [intros c; apply cluster_history_count |].
  split; [| split].
  - intros recs r H Hr.
    destruct (simple_record_origin (base self) uid av reads top_n recs r
                H Hr)
      as (v0 & vs & profile & v & a & m & Hread & Hmean & Hv & _ & _ &
          Hs & _).
    exists (v0 :: vs), profile, v.
    split; [apply simple_read_vectors_spec; exact Hread |].
    split; [apply np_mean_axis0_multiplicity; exact Hmean |].
    split; assumption.
  - intros recs r H Hr.
    destruct (advanced_record_origin pf self uid av reads top_n recs r
                H Hr)
      as (v0 & vs & profile & a & v & fresh & Hread & Hmean & Ha & Hv & _ &
          Hrest).
    cbv zeta in Hrest. destruct Hrest as (_ & _ & Hsc).
    exists (v0 :: vs), profile, v, a. eexists.
    split; [apply (advanced_read_history_spec _ _ _ _ _ Hread) |].
    split; [apply np_mean_axis0_multiplicity; exact Hmean |].
    split; [exact Hv |]. split; [exact Ha |]. split; [exact Hsc |].
    split; reflexivity.
  - eexists. eexists. eexists.
    split; [reflexivity |]. split; [reflexivity |].
    split; [reflexivity |]. split; [reflexivity |].
    split; [reflexivity |]. split; [reflexivity |].
    split; reflexivity.
Qed.

(** Reading [a] twice and [b] once: three vectors are averaged, and the
    article [c] is scored against their mean and the history [0, 0, 1]. *)
Lemma C10_profile_counts_every_occurrence_witness :
  let self := Examples.advanced Cases.abc (3 # 10) (2 # 10) in
  let r := {| article_id := "c"%string; rec_title := "C"%string;
              rec_content := Some EmptyString; rec_url := EmptyString;
              score := 8833 # 10000;
              similarity_components :=
                Some {| semantic := 9000 # 10000;
                        freshness := 10000 # 10000;
                        topic := 6667 # 10000 |} |} in
  exists kept profile v a sc,
    Forall2 (fun aid x => _get_article_vector (base self) aid = Ok x)
            (retained Cases.abc_corpus ["a"; "a"; "b"]%string) kept /\
    multiplicity_mean kept profile /\
    _get_article_vector (base self) (article_id r) = Ok v /\
    dict_get (article_id r) Cases.abc_corpus = Some a /\
    similarity_components r = Some sc /\
    semantic sc = round4 (cos_row (pf := Examples.platform) profile v) /\
    topic sc =
      round4 (Advanced._calculate_cluster_similarity
                (cluster_history_of Cases.abc_corpus
                   ["a"; "a"; "b"]%string)
                (Advanced.cluster_label a)).
Proof.
  intros self r.
  exact (proj1 (proj2 (proj2 (proj2
           (C10_profile_counts_every_occurrence Examples.platform self
              "u1"%string Cases.abc_corpus ["a"; "a"; "b"]%string 5%Z))))
         [r] r eq_refl (or_introl eq_refl)).
Defined.
